(** * zotmd: the synchronization engine (src/zotmd/core/sync_engine.py)

    A shallow embedding of [SyncEngine] and of [TemplateChangeDetector]
    (src/zotmd/core/template_manager.py).

    The engine is stateful Python that raises exceptions and talks to four
    collaborators (the Zotero client, the SQLite state manager, the template
    renderer and the file manager).  It is embedded as a state-and-exception
    monad over a [World] that holds the collaborators' state, the [SyncResult]
    object of the running entry point and a log of every collaborator call.
    An exception keeps the state reached when it was raised: nothing is rolled
    back.

    The worker pool ([ThreadPoolExecutor], [MAX_WORKERS = 4]) is embedded as
    the sequential schedule that runs the submitted items in submission
    order; the progress bar is a display side channel and is left out. *)

From Stdlib Require Import ZArith Ascii String List Lia.
From stdpp Require Import base option strings list gmap fin_maps.

Local Open Scope string_scope.
Local Open Scope Z_scope.
Local Open Scope list_scope.

(** ** Python string helpers *)

Module PyStr.

(** [str.lower()] on the ASCII letters.  The engine only asks whether the
    lowered content type contains "pdf"; no other code point lowers to one
    of 'p', 'd', 'f', so the ASCII table decides that test. *)
Definition lower_ascii (c : ascii) : ascii :=
  let n := nat_of_ascii c in
  if (Nat.leb 65 n && Nat.leb n 90)%bool then ascii_of_nat (n + 32) else c.

Fixpoint lower (s : string) : string :=
  match s with
  | EmptyString => EmptyString
  | String c rest => String (lower_ascii c) (lower rest)
  end.

(** [needle in hay] *)
Fixpoint contains (needle hay : string) : bool :=
  if String.prefix needle hay then true
  else match hay with
       | EmptyString => false
       | String _ rest => contains needle rest
       end.

(** [hay.count(needle)] for a non-empty needle: occurrences counted from the
    left without overlap.  [skip] is the number of characters still covered
    by the occurrence found last. *)
Fixpoint count_from (needle : string) (skip : nat) (hay : string) : nat :=
  match hay with
  | EmptyString => 0%nat
  | String _ rest =>
      match skip with
      | S k => count_from needle k rest
      | O => if String.prefix needle hay
             then S (count_from needle (String.length needle - 1) rest)
             else count_from needle 0 rest
      end
  end.

Definition count (needle hay : string) : nat := count_from needle 0 hay.

(** Truthiness of [Optional[str]]: [None] and the empty string are false. *)
Definition truthy (o : option string) : bool :=
  match o with
  | Some (String _ _) => true
  | _ => false
  end.

End PyStr.

(** ** Data model *)

(** An exception, by its message. *)
Definition Exn := string.

(** A raw item of the Zotero API (a JSON dict): [item_data.get("key")] and
    the rest of the payload, which only the parser reads. *)
Record RawItem := mkRawItem {
  raw_key : option string;
  raw_data : string;
}.

(** A raw attachment: [key], [data.parentItem], [data.contentType]
    (read with default [""]). *)
Record RawAttachment := mkRawAttachment {
  att_key : option string;
  att_parentItem : option string;
  att_contentType : string;
}.

(** A raw annotation, opaque to the engine. *)
Record RawAnnotation := mkRawAnnotation {
  rann_data : string;
}.

(** [models.annotation.Annotation]: the engine reads [parent_key] (the key
    of the attachment the annotation belongs to). *)
Record Annotation := mkAnnotation {
  parent_key : option string;
  annotation_body : string;
}.

(** [models.item.ZoteroItem]: the fields the engine reads. *)
Record ZoteroItem := mkZoteroItem {
  key : string;
  citation_key : string;
  item_type : string;
  version : Z;
  item_body : string;
}.

Inductive SyncStatus := active | removed.

(** [state_manager.ItemState] *)
Record ItemState := mkItemState {
  zotero_key : string;
  is_citation_key : string;
  is_item_type : string;
  zotero_version : Z;
  file_path : string;
  last_synced_at : nat;
  sync_status : SyncStatus;
  content_hash : string;
}.

(** One row of table [sync_items]: the item state and the [item_json]
    column.  [json.loads (json.dumps x) = x], so the cached payload is kept as
    the raw item itself; [None] is a NULL (or empty) column. *)
Record ItemRow := mkItemRow {
  row_state : ItemState;
  row_json : option RawItem;
}.

(** [state_manager.TemplateVersion] *)
Record TemplateVersion := mkTemplateVersion {
  template_hash : string;
  template_path : string;
}.

(** [SyncResult] *)
Record SyncResult := mkSyncResult {
  total_items_processed : nat;
  items_created : nat;
  items_updated : nat;
  items_removed : nat;
  items_skipped : nat;
  annotations_synced : nat;
  errors : list string;
}.

(** [SyncResult()] *)
Definition SyncResult0 : SyncResult := mkSyncResult 0 0 0 0 0 0 [].

(** [BatchData] *)
Record BatchData := mkBatchData {
  annotations_by_item : gmap string (list Annotation);
  attachment_keys : gmap string string;
}.

#[global] Instance SyncStatus_eq_dec : EqDecision SyncStatus.
Proof. solve_decision. Defined.
#[global] Instance RawItem_eq_dec : EqDecision RawItem.
Proof. solve_decision. Defined.
#[global] Instance Annotation_eq_dec : EqDecision Annotation.
Proof. solve_decision. Defined.
#[global] Instance ZoteroItem_eq_dec : EqDecision ZoteroItem.
Proof. solve_decision. Defined.
#[global] Instance ItemState_eq_dec : EqDecision ItemState.
Proof. solve_decision. Defined.

(** ** Collaborator calls *)

(** Every call the engine makes on a collaborator, with its arguments.  The
    calls are logged, newest first, in the [trace] of the world. *)
Inductive Call :=
  (* ZoteroClient *)
  | ZGetLibraryVersion
  | ZGetAllItems
  | ZGetItemsSinceVersion (since : Z)
  | ZGetDeletedItems (since : Z)
  | ZGetAllAnnotations
  | ZGetAllAttachments
  | ZItem (k : string)
  (* StateManager *)
  | SGetLastLibraryVersion
  | SGetTemplateVersion
  | SGetItemState (k : string)
  | SSelectItemJson (k : string)
  | SUpsertItem (s : ItemState) (item_json : option RawItem)
  | SMarkItemRemoved (k : string)
  | SGetAllItemKeys
  | SGetActiveItems
  | SRecordFullSync (v : Z)
  | SUpdateLibraryVersion (v : Z)
  | SRecordTemplateVersion (h p : string)
  (* TemplateRenderer *)
  | RGetTemplateHash
  | RGetTemplatePathIdentifier
  | RExtractAnnotationsSection (content : string)
  | RExtractNotesSection (content : string)
  | RRenderItem (item : ZoteroItem) (annotations : list Annotation)
                (preserved_notes : option string) (attachment_key : option string)
  (* FileManager *)
  | FReadExisting (ck : string)
  | FWriteMarkdown (ck : string) (markdown : string)
  | FGetContentHash (ck : string)
  | FHandleRemovedItem (ck : string)
  (* model constructors *)
  | PItemFromApiResponse (raw : RawItem)
  | PAnnotationFromApiResponse (raw : RawAnnotation).

(** ** The world *)

(** The remote library as the Zotero client shows it.  The engine only reads
    it. *)
Record Remote := mkRemote {
  zot_library_version : Z;
  zot_all_items : list RawItem;
  zot_items_since : Z -> list RawItem;
  zot_deleted_since : Z -> list string;
  zot_all_annotations : list RawAnnotation;
  zot_all_attachments : list RawAttachment;
  zot_item : string -> RawItem;
}.

(** The SQLite store behind [StateManager]. *)
Record Store := mkStore {
  db_items : gmap string ItemRow;
  db_last_library_version : option Z;
  db_last_full_sync : option nat;
  db_last_incremental_sync : option nat;
  db_template_version : option TemplateVersion;
}.

Record World := mkWorld {
  remote : Remote;
  store : Store;
  (** the template the renderer was built with *)
  template : TemplateVersion;
  (** the output directory: citation key to markdown text *)
  files : gmap string string;
  (** [datetime.now()] *)
  clock : nat;
  (** which calls raise: [faults n c] is the exception raised by call [c]
      when it is the [n]-th call logged *)
  faults : nat -> Call -> option Exn;
  trace : list Call;
  (** the [SyncResult] object of the running entry point *)
  result : SyncResult;
}.

Definition set_store (f : Store -> Store) (w : World) : World :=
  mkWorld (remote w) (f (store w)) (template w) (files w) (clock w)
          (faults w) (trace w) (result w).

Definition set_files (f : gmap string string -> gmap string string) (w : World) : World :=
  mkWorld (remote w) (store w) (template w) (f (files w)) (clock w)
          (faults w) (trace w) (result w).

Definition set_result (f : SyncResult -> SyncResult) (w : World) : World :=
  mkWorld (remote w) (store w) (template w) (files w) (clock w)
          (faults w) (trace w) (f (result w)).

Definition log (c : Call) (w : World) : World :=
  mkWorld (remote w) (store w) (template w) (files w) (clock w)
          (faults w) (c :: trace w) (result w).

Definition set_db_items (f : gmap string ItemRow -> gmap string ItemRow) (s : Store) : Store :=
  mkStore (f (db_items s)) (db_last_library_version s) (db_last_full_sync s)
          (db_last_incremental_sync s) (db_template_version s).

(** ** The monad: state and exceptions *)

Inductive Res (A : Type) :=
  | Ok (a : A)
  | Raise (e : Exn).
Arguments Ok {A} a.
Arguments Raise {A} e.

Definition M (A : Type) : Type := World -> Res A * World.

#[global] Instance M_ret : MRet M := fun A a w => (Ok a, w).

#[global] Instance M_bind : MBind M := fun A B k m w =>
  match m w with
  | (Ok a, w1) => k a w1
  | (Raise e, w1) => (Raise e, w1)
  end.

Definition raise {A} (e : Exn) : M A := fun w => (Raise e, w).

(** [try: m  except Exception as e: h e] *)
Definition try_except {A} (m : M A) (h : Exn -> M A) : M A := fun w =>
  match m w with
  | (Ok a, w1) => (Ok a, w1)
  | (Raise e, w1) => h e w1
  end.

Definition gets {A} (f : World -> A) : M A := fun w => (Ok (f w), w).
Definition modify (f : World -> World) : M unit := fun w => (Ok tt, f w).

(** A collaborator call: logged, then it raises if the fault table says so. *)
Definition call (c : Call) : M unit := fun w =>
  match faults w (length (trace w)) c with
  | Some e => (Raise e, log c w)
  | None => (Ok tt, log c w)
  end.

(** [for x in l: body x] *)
Fixpoint for_each {A} (body : A -> M unit) (l : list A) : M unit :=
  match l with
  | [] => mret tt
  | x :: rest => body x ;; for_each body rest
  end.

(** A loop that carries an accumulator. *)
Fixpoint foldM {A B} (body : B -> A -> M B) (l : list A) (acc : B) : M B :=
  match l with
  | [] => mret acc
  | x :: rest => acc' ← body acc x; foldM body rest acc'
  end.

(** ** [SyncResult] methods *)

Definition increment_processed : M unit := modify (set_result (fun r =>
  mkSyncResult (S (total_items_processed r)) (items_created r) (items_updated r)
    (items_removed r) (items_skipped r) (annotations_synced r) (errors r))).

Definition increment_created : M unit := modify (set_result (fun r =>
  mkSyncResult (total_items_processed r) (S (items_created r)) (items_updated r)
    (items_removed r) (items_skipped r) (annotations_synced r) (errors r))).

Definition increment_updated : M unit := modify (set_result (fun r =>
  mkSyncResult (total_items_processed r) (items_created r) (S (items_updated r))
    (items_removed r) (items_skipped r) (annotations_synced r) (errors r))).

Definition increment_skipped : M unit := modify (set_result (fun r =>
  mkSyncResult (total_items_processed r) (items_created r) (items_updated r)
    (items_removed r) (S (items_skipped r)) (annotations_synced r) (errors r))).

Definition add_annotations (count : nat) : M unit := modify (set_result (fun r =>
  mkSyncResult (total_items_processed r) (items_created r) (items_updated r)
    (items_removed r) (items_skipped r) (annotations_synced r + count)%nat (errors r))).

Definition add_error (error : string) : M unit := modify (set_result (fun r =>
  mkSyncResult (total_items_processed r) (items_created r) (items_updated r)
    (items_removed r) (items_skipped r) (annotations_synced r) (errors r ++ [error]))).

(** [result.items_removed = n] and [result.items_removed += 1] *)
Definition set_items_removed (f : nat -> nat) : M unit := modify (set_result (fun r =>
  mkSyncResult (total_items_processed r) (items_created r) (items_updated r)
    (f (items_removed r)) (items_skipped r) (annotations_synced r) (errors r))).

(** ** [TemplateChangeDetector.has_template_changed] *)

Definition has_template_changed (current_hash current_path : string)
    (stored_version : option TemplateVersion) : bool :=
  match stored_version with
  | None => false
  | Some stored =>
      if negb (String.eqb (template_hash stored) current_hash) then true
      else if negb (String.eqb (template_path stored) current_path) then true
      else false
  end.

(** ** The collaborators *)

(** The pure part of the collaborators whose code is outside
    sync_engine.py, taken as parameters: the model constructors
    ([ZoteroItem.from_api_response], which returns [None] for an item without
    citation key, and [Annotation.from_api_response]), the renderer and the
    naming and hashing of the file manager. *)
Class Collaborators := {
  parse_item : RawItem -> option ZoteroItem;
  parse_annotation : RawAnnotation -> Annotation;
  render : ZoteroItem -> list Annotation -> option string -> option string -> string;
  annotations_section : string -> option string;
  notes_section : string -> option string;
  markdown_path : string -> string;
  hash_text : string -> string;
  removed_path : string -> option string;
}.

Section Engine.

Context {collab : Collaborators}.

(** *** ZoteroClient *)

Definition zotero_get_library_version : M Z :=
  call ZGetLibraryVersion ;; gets (fun w => zot_library_version (remote w)).

Definition zotero_get_all_items : M (list RawItem) :=
  call ZGetAllItems ;; gets (fun w => zot_all_items (remote w)).

Definition zotero_get_items_since_version (since : Z) : M (list RawItem) :=
  call (ZGetItemsSinceVersion since) ;; gets (fun w => zot_items_since (remote w) since).

(** [get_deleted_items(since).get("items", [])] *)
Definition zotero_get_deleted_items (since : Z) : M (list string) :=
  call (ZGetDeletedItems since) ;; gets (fun w => zot_deleted_since (remote w) since).

Definition zotero_get_all_annotations : M (list RawAnnotation) :=
  call ZGetAllAnnotations ;; gets (fun w => zot_all_annotations (remote w)).

Definition zotero_get_all_attachments : M (list RawAttachment) :=
  call ZGetAllAttachments ;; gets (fun w => zot_all_attachments (remote w)).

(** [self.zotero.zot.item(key)] *)
Definition zotero_item (k : string) : M RawItem :=
  call (ZItem k) ;; gets (fun w => zot_item (remote w) k).

(** *** Model constructors *)

Definition ZoteroItem_from_api_response (item_data : RawItem) : M (option ZoteroItem) :=
  call (PItemFromApiResponse item_data) ;; mret (parse_item item_data).

Definition Annotation_from_api_response (annotation_data : RawAnnotation) : M Annotation :=
  call (PAnnotationFromApiResponse annotation_data) ;; mret (parse_annotation annotation_data).

(** *** StateManager *)

(** Modelled from the spec: state_manager.py is not among the sources.  The
    store is one table keyed by the external key, a singleton template
    version, and the run-level counters (last full and incremental sync
    timestamps, last-seen library version). *)
Definition state_get_last_library_version : M (option Z) :=
  call SGetLastLibraryVersion ;; gets (fun w => db_last_library_version (store w)).

(** Modelled from the spec: the singleton template-version record. *)
Definition state_get_template_version : M (option TemplateVersion) :=
  call SGetTemplateVersion ;; gets (fun w => db_template_version (store w)).

(** Modelled from the spec: look up the Item State by external key. *)
Definition state_get_item_state (k : string) : M (option ItemState) :=
  call (SGetItemState k) ;; gets (fun w => row_state <$> db_items (store w) !! k).

(** [SELECT item_json FROM sync_items WHERE zotero_key = ?] followed by
    [not row or not row[0]]: the cached payload, if the row has one. *)
Definition state_select_item_json (k : string) : M (option RawItem) :=
  call (SSelectItemJson k) ;; gets (fun w => db_items (store w) !! k ≫= row_json).

(** Modelled from the spec: atomically upsert one state row, with the cached
    copy of the raw payload. *)
Definition state_upsert_item (s : ItemState) (item_json : option RawItem) : M unit :=
  call (SUpsertItem s item_json) ;;
  modify (set_store (set_db_items (fun m => <[zotero_key s := mkItemRow s item_json]> m))).

Definition mark_removed (r : ItemRow) : ItemRow :=
  mkItemRow
    (mkItemState (zotero_key (row_state r)) (is_citation_key (row_state r))
       (is_item_type (row_state r)) (zotero_version (row_state r))
       (file_path (row_state r)) (last_synced_at (row_state r)) removed
       (content_hash (row_state r)))
    (row_json r).

(** Modelled from the spec: the row is marked removed, never deleted. *)
Definition state_mark_item_removed (k : string) : M unit :=
  call (SMarkItemRemoved k) ;;
  modify (set_store (set_db_items (fun m => alter mark_removed k m))).

Definition is_active (r : ItemRow) : bool :=
  bool_decide (sync_status (row_state r) = active).

(** Modelled from the spec: the previously tracked active keys. *)
Definition state_get_all_item_keys : M (gset string) :=
  call SGetAllItemKeys ;;
  gets (fun w => dom (filter (fun kr => is_active kr.2 = true) (db_items (store w)))).

(** Modelled from the spec: every active Item State. *)
Definition state_get_active_items : M (list ItemState) :=
  call SGetActiveItems ;;
  gets (fun w => row_state <$> List.filter is_active (map_to_list (db_items (store w))).*2).

(** Modelled from the spec: records the last-seen library version and the
    timestamp of the full sync. *)
Definition state_record_full_sync (v : Z) : M unit :=
  call (SRecordFullSync v) ;;
  modify (fun w => set_store (fun s =>
    mkStore (db_items s) (Some v) (Some (clock w)) (db_last_incremental_sync s)
            (db_template_version s)) w).

(** Modelled from the spec: records the last-seen library version and the
    timestamp of the incremental sync. *)
Definition state_update_library_version (v : Z) : M unit :=
  call (SUpdateLibraryVersion v) ;;
  modify (fun w => set_store (fun s =>
    mkStore (db_items s) (Some v) (db_last_full_sync s) (Some (clock w))
            (db_template_version s)) w).

(** Modelled from the spec: persists the new Template Version. *)
Definition state_record_template_version (h p : string) : M unit :=
  call (SRecordTemplateVersion h p) ;;
  modify (set_store (fun s =>
    mkStore (db_items s) (db_last_library_version s) (db_last_full_sync s)
            (db_last_incremental_sync s) (Some (mkTemplateVersion h p)))).

(** *** TemplateRenderer *)

Definition renderer_get_template_hash : M string :=
  call RGetTemplateHash ;; gets (fun w => template_hash (template w)).

Definition renderer_get_template_path_identifier : M string :=
  call RGetTemplatePathIdentifier ;; gets (fun w => template_path (template w)).

Definition renderer_extract_annotations_section (content : string) : M (option string) :=
  call (RExtractAnnotationsSection content) ;; mret (annotations_section content).

Definition renderer_extract_notes_section (content : string) : M (option string) :=
  call (RExtractNotesSection content) ;; mret (notes_section content).

Definition renderer_render_item (item : ZoteroItem) (annotations : list Annotation)
    (preserved_notes attachment_key : option string) : M string :=
  call (RRenderItem item annotations preserved_notes attachment_key) ;;
  mret (render item annotations preserved_notes attachment_key).

(** *** FileManager *)

(** Modelled from the spec: read-existing(citation_key), text or absent. *)
Definition files_read_existing (ck : string) : M (option string) :=
  call (FReadExisting ck) ;; gets (fun w => files w !! ck).

(** Modelled from the spec: write(citation_key, text), returns the path. *)
Definition files_write_markdown (ck markdown : string) : M string :=
  call (FWriteMarkdown ck markdown) ;;
  modify (set_files (fun m => <[ck := markdown]> m)) ;;
  mret (markdown_path ck).

(** Modelled from the spec: content-fingerprint(citation_key). *)
Definition files_get_content_hash (ck : string) : M string :=
  call (FGetContentHash ck) ;; gets (fun w => hash_text (default "" (files w !! ck))).

(** Modelled from the spec: handle-removed(citation_key); the artifact
    leaves the output directory, and the relocated path is returned under the
    move policy. *)
Definition files_handle_removed_item (ck : string) : M (option string) :=
  call (FHandleRemovedItem ck) ;;
  modify (set_files (fun m => delete ck m)) ;;
  mret (removed_path ck).

(** [datetime.now()] *)
Definition datetime_now : M nat := gets clock.

(** *** [SyncEngine._build_batch_data] *)

(** A string that Python takes as true: neither [None] nor empty. *)
Definition nonempty (o : option string) : option string :=
  if PyStr.truthy o then o else None.

(** One turn of the loop over [all_attachments]; the accumulator is
    ([attachment_to_parent], [batch_data.attachment_keys]). *)
Definition attachment_step (acc : gmap string string * gmap string string)
    (attachment : RawAttachment) : gmap string string * gmap string string :=
  let attachment_key := att_key attachment in
  let parent_key := att_parentItem attachment in
  let content_type := att_contentType attachment in
  match nonempty attachment_key, nonempty parent_key with
  | Some ak, Some pk =>
      (<[ak := pk]> acc.1,
       if PyStr.contains "pdf" (PyStr.lower content_type)
       then <[pk := ak]> acc.2
       else acc.2)
  | _, _ => acc
  end.

Definition attachment_loop (all_attachments : list RawAttachment)
    : gmap string string * gmap string string :=
  fold_left attachment_step all_attachments (∅, ∅).

(** One turn of the loop over [all_annotations]; the accumulator is
    [batch_data.annotations_by_item]. *)
Definition annotation_step (attachment_to_parent : gmap string string)
    (by_item : gmap string (list Annotation)) (annotation_data : RawAnnotation)
    : M (gmap string (list Annotation)) :=
  annotation ← Annotation_from_api_response annotation_data;
  let parent_item_key := parent_key annotation ≫= (fun k => attachment_to_parent !! k) in
  match nonempty parent_item_key with
  | Some pik => mret (<[pik := default [] (by_item !! pik) ++ [annotation]]> by_item)
  | None => mret by_item
  end.

(** Both branches of [show_progress] fetch and build the same way; the
    progress bar is left out. *)
Definition _build_batch_data (show_progress : bool) : M BatchData :=
  all_annotations ← zotero_get_all_annotations;
  all_attachments ← zotero_get_all_attachments;
  let '(attachment_to_parent, attachment_keys) := attachment_loop all_attachments in
  by_item ← foldM (annotation_step attachment_to_parent) all_annotations ∅;
  mret (mkBatchData by_item attachment_keys).

(** *** [SyncEngine._sync_single_item_batch] *)

(** [existing_annotations.count("- <mark class=") if existing_annotations else 0] *)
Definition existing_annot_count (existing_annotations : option string) : nat :=
  match nonempty existing_annotations with
  | Some s => PyStr.count "- <mark class=" s
  | None => 0%nat
  end.

Definition _sync_single_item_batch (item_data : RawItem) (batch_data : BatchData)
    (force_rerender : bool) : M unit :=
  increment_processed ;;
  item ← ZoteroItem_from_api_response item_data;
  match item with
  | None => increment_skipped
  | Some item =>
      existing_state ← state_get_item_state (key item);
      let annotations := default [] (annotations_by_item batch_data !! key item) in
      add_annotations (length annotations) ;;
      (* [Some (existing_content, is_update)] to go on, [None] for the
         early return of an unchanged item *)
      go ← match existing_state return M (option (option string * bool)) with
           | Some existing_state =>
               let item_version_changed :=
                 bool_decide (zotero_version existing_state < version item) in
               existing_content ← files_read_existing (citation_key item);
               annotations_changed ←
                 match nonempty existing_content with
                 | Some content =>
                     existing_annotations ← renderer_extract_annotations_section content;
                     let new_annot_count := length annotations in
                     mret (negb (Nat.eqb (existing_annot_count existing_annotations)
                                         new_annot_count))
                 | None => mret (Nat.ltb 0 (length annotations))
                 end;
               if (negb force_rerender && negb item_version_changed
                   && negb annotations_changed)%bool
               then mret None
               else mret (Some (existing_content, true))
           | None => mret (Some (None, false))
           end;
      match go : option (option string * bool) with
      | None => mret tt
      | Some (existing_content, is_update) =>
          let attachment_key := attachment_keys batch_data !! key item in
          preserved_notes ←
            match (if is_update then nonempty existing_content else None) with
            | Some content => renderer_extract_notes_section content
            | None => mret None
            end;
          markdown ← renderer_render_item item annotations preserved_notes attachment_key;
          file_path ← files_write_markdown (citation_key item) markdown;
          content_hash ← files_get_content_hash (citation_key item);
          let item_json := Some item_data in
          now ← datetime_now;
          let item_state :=
            mkItemState (key item) (citation_key item) (item_type item) (version item)
                        file_path now active content_hash in
          state_upsert_item item_state item_json ;;
          if is_update then increment_updated else increment_created
      end
  end.

(** The per-item boundary of the fan-out: [future.result()] inside
    [try ... except Exception as e: result.add_error(error_msg)]. *)
Definition sync_item_guarded (batch_data : BatchData) (force_rerender : bool)
    (item_data : RawItem) : M unit :=
  try_except (_sync_single_item_batch item_data batch_data force_rerender)
    (fun e => add_error ("Error syncing item " ++ default "UNKNOWN" (raw_key item_data)
                         ++ ": " ++ e)%string).

(** *** [SyncEngine._handle_deleted_item] and [_handle_removed_items] *)

Definition _handle_deleted_item (item_key : string) : M bool :=
  item_state ← state_get_item_state item_key;
  match item_state with
  | None => mret false
  | Some item_state =>
      result_path ← files_handle_removed_item (is_citation_key item_state);
      state_mark_item_removed item_key ;;
      mret true
  end.

(** [zotero_keys] is a set of [item.get("key")]; a missing key never equals
    a tracked key, so only the present ones are kept. *)
Definition _handle_removed_items : M nat :=
  current_items ← zotero_get_all_items;
  let zotero_keys : gset string := list_to_set (omap raw_key current_items) in
  tracked_keys ← state_get_all_item_keys;
  let removed_keys := tracked_keys ∖ zotero_keys in
  if decide (removed_keys = ∅) then mret 0%nat
  else foldM (fun removed_count item_key =>
                moved ← _handle_deleted_item item_key;
                mret (if moved : bool then S removed_count else removed_count))
             (elements removed_keys) 0%nat.

(** *** [SyncEngine.full_sync] *)

Definition full_sync (show_progress : bool) : M SyncResult :=
  modify (set_result (fun _ => SyncResult0)) ;;
  try_except
    (current_version ← zotero_get_library_version;
     items ← zotero_get_all_items;
     batch_data ← _build_batch_data show_progress;
     for_each (sync_item_guarded batch_data true) items ;;
     removed_count ← _handle_removed_items;
     set_items_removed (fun _ => removed_count) ;;
     state_record_full_sync current_version ;;
     current_hash ← renderer_get_template_hash;
     current_path ← renderer_get_template_path_identifier;
     state_record_template_version current_hash current_path ;;
     gets result)
    (fun e => raise e).

(** *** [SyncEngine._rerender_single_item] and [_full_rerender_all_items] *)

Definition _rerender_single_item (item_state : ItemState) (batch_data : BatchData)
    : M unit :=
  row ← state_select_item_json (zotero_key item_state);
  item_data ←
    match row with
    | None =>
        try_except (fetched ← zotero_item (zotero_key item_state); mret (Some fetched))
          (fun e =>
             add_error ("Failed to re-render " ++ is_citation_key item_state
                        ++ ": " ++ e)%string ;;
             mret None)
    | Some cached => mret (Some cached)
    end;
  match item_data with
  | None => mret tt
  | Some item_data =>
      item ← ZoteroItem_from_api_response item_data;
      match item with
      | None => mret tt
      | Some item =>
          let annotations :=
            default [] (annotations_by_item batch_data !! zotero_key item_state) in
          let attachment_key := attachment_keys batch_data !! zotero_key item_state in
          existing_content ← files_read_existing (is_citation_key item_state);
          preserved_notes ←
            match nonempty existing_content with
            | Some content => renderer_extract_notes_section content
            | None => mret None
            end;
          markdown ← renderer_render_item item annotations preserved_notes attachment_key;
          files_write_markdown (is_citation_key item_state) markdown ;;
          content_hash ← files_get_content_hash (is_citation_key item_state);
          let item_json := Some item_data in
          now ← datetime_now;
          let updated_state :=
            mkItemState (zotero_key item_state) (is_citation_key item_state)
                        (is_item_type item_state) (zotero_version item_state)
                        (file_path item_state) now (sync_status item_state)
                        content_hash in
          state_upsert_item updated_state item_json ;;
          increment_updated
      end
  end.

(** The per-item boundary of the re-render fan-out; the two branches of
    [show_progress] word the error differently. *)
Definition rerender_item_guarded (show_progress : bool) (batch_data : BatchData)
    (item_state : ItemState) : M unit :=
  try_except (_rerender_single_item item_state batch_data)
    (fun e => add_error
       (if show_progress
        then ("Error re-rendering " ++ is_citation_key item_state ++ ": " ++ e)%string
        else e)).

Definition _full_rerender_all_items (show_progress : bool) : M SyncResult :=
  modify (set_result (fun _ => SyncResult0)) ;;
  current_hash ← renderer_get_template_hash;
  current_path ← renderer_get_template_path_identifier;
  active_items ← state_get_active_items;
  batch_data ← _build_batch_data show_progress;
  for_each (rerender_item_guarded show_progress batch_data) active_items ;;
  state_record_template_version current_hash current_path ;;
  gets result.

(** *** [SyncEngine.incremental_sync] *)

Definition incremental_sync (show_progress : bool) : M SyncResult :=
  modify (set_result (fun _ => SyncResult0)) ;;
  try_except
    (last_version ← state_get_last_library_version;
     match last_version with
     | None => full_sync show_progress
     | Some last_version =>
         current_version ← zotero_get_library_version;
         current_hash ← renderer_get_template_hash;
         current_path ← renderer_get_template_path_identifier;
         stored_version ← state_get_template_version;
         let template_changed :=
           has_template_changed current_hash current_path stored_version in
         if template_changed then _full_rerender_all_items show_progress
         else if Z.eqb current_version last_version then gets result
         else if Z.ltb 1000 (current_version - last_version)
         then full_sync show_progress
         else
           modified_items ← zotero_get_items_since_version last_version;
           batch_data ← _build_batch_data show_progress;
           for_each (sync_item_guarded batch_data false) modified_items ;;
           deleted_item_keys ← zotero_get_deleted_items last_version;
           (* [if deleted_item_keys:] guards a loop that an empty list
              would not enter anyway *)
           for_each (fun item_key =>
                       _handle_deleted_item item_key ;;
                       set_items_removed S)
                    deleted_item_keys ;;
           state_update_library_version current_version ;;
           current_hash ← renderer_get_template_hash;
           current_path ← renderer_get_template_path_identifier;
           state_record_template_version current_hash current_path ;;
           gets result
     end)
    (fun e => raise e).

End Engine.

(** ** Reasoning about runs *)

(** [logs evs w]: [w] after the calls [evs] (newest first) were logged. *)
Definition logs (evs : list Call) (w : World) : World :=
  mkWorld (remote w) (store w) (template w) (files w) (clock w)
          (faults w) (evs ++ trace w) (result w).

(** [wp m Q w]: running [m] from [w] ends in an outcome and a world that
    satisfy [Q]. *)
Definition wp {A} (m : M A) (Q : Res A -> World -> Prop) (w : World) : Prop :=
  Q (m w).1 (m w).2.

(** What no run changes: the remote library, the active template, the
    clock and the fault table; and no row leaves the store. *)
Definition same_env (w w' : World) : Prop :=
  remote w' = remote w /\ template w' = template w /\ clock w' = clock w
  /\ faults w' = faults w
  /\ dom (db_items (store w)) ⊆ dom (db_items (store w')).

(** [emits P m]: whatever the faults, [m] only logs calls that satisfy [P],
    leaves the environment as it was and keeps the rows of the store. *)
Definition emits {A} (P : Call -> Prop) (m : M A) : Prop :=
  forall w, same_env w (m w).2
            /\ exists evs, trace (m w).2 = evs ++ trace w /\ Forall P evs.

(** No call raises from the [n]-th logged call on. *)
Definition no_faults_from (n : nat) (w : World) : Prop :=
  forall m c, (n <= m)%nat -> faults w m c = None.


(** ** Which calls each routine makes *)

(** Calls of the batch prefetch. *)
Definition prefetch_call (c : Call) : bool :=
  match c with
  | ZGetAllAnnotations | ZGetAllAttachments | PAnnotationFromApiResponse _ => true
  | _ => false
  end.

(** Calls of one per-item reconciliation. *)
Definition item_call (c : Call) : bool :=
  match c with
  | PItemFromApiResponse _ | SGetItemState _ | FReadExisting _
  | RExtractAnnotationsSection _ | RExtractNotesSection _ | RRenderItem _ _ _ _
  | FWriteMarkdown _ _ | FGetContentHash _ | SUpsertItem _ _ => true
  | _ => false
  end.

(** Calls of one per-item re-render. *)
Definition rerender_call (c : Call) : bool :=
  match c with
  | SSelectItemJson _ | ZItem _ | PItemFromApiResponse _ | FReadExisting _
  | RExtractNotesSection _ | RRenderItem _ _ _ _
  | FWriteMarkdown _ _ | FGetContentHash _ | SUpsertItem _ _ => true
  | _ => false
  end.

(** Calls of the reconciliation of one deletion. *)
Definition deletion_call (c : Call) : bool :=
  match c with
  | SGetItemState _ | FHandleRemovedItem _ | SMarkItemRemoved _ => true
  | _ => false
  end.

(** Calls of Full Sync. *)
Definition full_sync_call (c : Call) : bool :=
  match c with
  | ZGetLibraryVersion | ZGetAllItems | SGetAllItemKeys | SRecordFullSync _
  | RGetTemplateHash | RGetTemplatePathIdentifier | SRecordTemplateVersion _ _ => true
  | _ => prefetch_call c || item_call c || deletion_call c
  end.

(** Calls of Full Re-render. *)
Definition full_rerender_call (c : Call) : bool :=
  match c with
  | RGetTemplateHash | RGetTemplatePathIdentifier | SGetActiveItems
  | SRecordTemplateVersion _ _ => true
  | _ => prefetch_call c || rerender_call c
  end.

(** The remote fetches of item content: the full item list, the items
    modified since a version, and a single item. *)
Definition bulk_item_fetch (c : Call) : bool :=
  match c with
  | ZGetAllItems | ZGetItemsSinceVersion _ => true
  | _ => false
  end.

(** A render, an artifact write or a state-row write. *)
Definition render_or_write (c : Call) : bool :=
  match c with
  | RRenderItem _ _ _ _ | FWriteMarkdown _ _ | SUpsertItem _ _
  | SMarkItemRemoved _ | FHandleRemovedItem _ => true
  | _ => false
  end.

(** No call raises from now on. *)
Definition calm (w : World) : Prop := no_faults_from (length (trace w)) w.

(** The log of [w'] extends the log of [w]. *)
Definition extends (w w' : World) : Prop := exists evs, trace w' = evs ++ trace w.

(** Call [c] was logged between [w] and [w']. *)
Definition emitted_since (w w' : World) (c : Call) : Prop :=
  exists evs, trace w' = evs ++ trace w /\ In c evs.

(** [m] returns normally whenever no call raises. *)
Definition returns_when_calm {A} (m : M A) : Prop :=
  forall w, calm w -> exists a, (m w).1 = Ok a.

(** None of the next [k] calls raises. *)
Definition quiet_for (k : nat) (w : World) : Prop :=
  forall n c, (length (trace w) <= n < length (trace w) + k)%nat -> faults w n c = None.

(** The world after the mode selection of Incremental Sync has read the
    last library version, the current library version, the template
    fingerprint and path, and the stored template version. *)
Definition selected (w : World) : World :=
  logs [SGetTemplateVersion; RGetTemplatePathIdentifier; RGetTemplateHash;
        ZGetLibraryVersion; SGetLastLibraryVersion] w.

(** The template of the renderer against the stored template version. *)
Definition template_changed_in (w : World) : bool :=
  has_template_changed (template_hash (template w)) (template_path (template w))
                       (db_template_version (store w)).

(** The incremental fetch: items modified since a version. *)
Definition incremental_fetch (c : Call) : bool :=
  match c with
  | ZGetItemsSinceVersion _ => true
  | _ => false
  end.

(** A run that returns normally leaves the stored template version equal
    to the template of the renderer. *)
Definition template_settled {A} (r : Res A) (w : World) : Prop :=
  match r with
  | Ok _ => template_changed_in w = false
  | Raise _ => True
  end.


(** [aborts_on P m]: if a call of kind [P] raises during a run of [m], the
    run ends there and raises that exception.  The call [c] logged when the
    log was [mid ++ trace w] is the call number [length (mid ++ trace w)]. *)
Definition aborts_on {A} (P : Call -> bool) (m : M A) : Prop :=
  emits (fun _ => True) m
  /\ forall w pre c mid e,
       trace (m w).2 = pre ++ c :: mid ++ trace w ->
       P c = true ->
       faults w (length (mid ++ trace w)) c = Some e ->
       (m w).1 = Raise e.

(** The calls made outside the per-item reconciliations only: mode
    selection, fetches, prefetch, the effects of a deletion, and the final
    commit. *)
Definition run_level_call (c : Call) : bool :=
  match c with
  | ZGetLibraryVersion | ZGetAllItems | ZGetItemsSinceVersion _ | ZGetDeletedItems _
  | ZGetAllAnnotations | ZGetAllAttachments | PAnnotationFromApiResponse _
  | SGetLastLibraryVersion | SGetTemplateVersion | SGetAllItemKeys | SGetActiveItems
  | SRecordFullSync _ | SUpdateLibraryVersion _ | SRecordTemplateVersion _ _
  | RGetTemplateHash | RGetTemplatePathIdentifier
  | FHandleRemovedItem _ | SMarkItemRemoved _ => true
  | _ => false
  end.

(** The calls that open the reconciliation of deletions: the read of the
    tracked keys (Full Sync) and the fetch of the reported deletions
    (Incremental Sync). *)
Definition deletion_started (c : Call) : bool :=
  match c with
  | SGetAllItemKeys | ZGetDeletedItems _ => true
  | _ => false
  end.

(** A call is fatal for the run when it is a run-level call, or when the
    reconciliation of deletions has started among the calls [before] it. *)
Definition fatal (before : list Call) (c : Call) : bool :=
  run_level_call c || existsb deletion_started before.

(** [aborts_after pfx m]: in a run of [m] that follows the calls [pfx] of
    the same entry point, a fatal call that raises ends the run with its
    exception. *)
Definition aborts_after {A} (pfx : list Call) (m : M A) : Prop :=
  forall w pre c mid e,
    trace (m w).2 = pre ++ c :: mid ++ trace w ->
    fatal (mid ++ pfx) c = true ->
    faults w (length (mid ++ trace w)) c = Some e ->
    (m w).1 = Raise e.

(** The calls made only inside a per-item boundary, by the reconciliation
    or the re-render of one item.  The look-up of an Item State is not among
    them: the reconciliation of a deletion makes it too. *)
Definition item_only_call (c : Call) : bool :=
  match c with
  | PItemFromApiResponse _ | FReadExisting _ | RExtractAnnotationsSection _
  | RExtractNotesSection _ | RRenderItem _ _ _ _ | FWriteMarkdown _ _
  | FGetContentHash _ | SUpsertItem _ _ | SSelectItemJson _ | ZItem _ => true
  | _ => false
  end.

(** [fatal] for a routine that runs after the deletions have started
    ([started]) or before. *)
Definition fatal_from (started : bool) (before : list Call) (c : Call) : bool :=
  fatal before c || started.

(** [raises_fatal started m]: a run of [m] only extends the log and keeps
    the fault table; and if it raises, the exception is the one of the last
    call it logged, and this call is fatal and not a call of the per-item
    reconciliations. *)
Definition raises_fatal {A} (started : bool) (m : M A) : Prop :=
  forall w,
    exists evs,
      trace (m w).2 = evs ++ trace w
      /\ faults (m w).2 = faults w
      /\ match (m w).1 with
         | Raise e =>
             exists mid c,
               evs = c :: mid
               /\ fatal_from started mid c = true
               /\ item_only_call c = false
               /\ faults w (length (mid ++ trace w)) c = Some e
         | Ok _ => True
         end.

(** What a write call that does not raise does to the rows of the store
    and to the artifacts. *)
Definition write_effect (c : Call)
    (s : gmap string ItemRow * gmap string string)
    : gmap string ItemRow * gmap string string :=
  match c with
  | SUpsertItem st item_json => (<[zotero_key st := mkItemRow st item_json]> s.1, s.2)
  | SMarkItemRemoved k => (alter mark_removed k s.1, s.2)
  | FWriteMarkdown ck markdown => (s.1, <[ck := markdown]> s.2)
  | FHandleRemovedItem ck => (s.1, delete ck s.2)
  | _ => s
  end.

(** The rows and artifacts after the logged calls [evs] (newest first), the
    first of them call number [base]: every call that did not raise has had
    its effect, in the order of the log. *)
Fixpoint replay (f : nat -> Call -> option Exn) (base : nat) (evs : list Call)
    (s : gmap string ItemRow * gmap string string)
    : gmap string ItemRow * gmap string string :=
  match evs with
  | [] => s
  | c :: older =>
      let s' := replay f base older s in
      match f (base + length older)%nat c with
      | Some _ => s'
      | None => write_effect c s'
      end
  end.

(** [committed w w']: the rows and the artifacts of [w'] are those of [w]
    with the effect of every write call logged since that did not raise:
    nothing written is taken back, nothing else is written. *)
Definition committed (w w' : World) : Prop :=
  exists evs,
    trace w' = evs ++ trace w
    /\ (db_items (store w'), files w')
       = replay (faults w) (length (trace w)) evs (db_items (store w), files w).

(** [keeps_writes m]: whatever raises, a run of [m] keeps the fault table
    and leaves [committed] rows and artifacts. *)
Definition keeps_writes {A} (m : M A) : Prop :=
  forall w, faults (m w).2 = faults w /\ committed w (m w).2.

(** ** Notions the statements use *)

Section SpecNotions.

Context {collab : Collaborators}.

(** An attachment that the prefetcher takes for parent [p]: its key and its
    parent are true for Python, the parent is [p], and the lowered content
    type contains "pdf". *)
Definition is_pdf_attachment_of (p : string) (a : RawAttachment) : bool :=
  PyStr.truthy (att_key a) && PyStr.truthy (att_parentItem a)
  && bool_decide (att_parentItem a = Some p)
  && PyStr.contains "pdf" (PyStr.lower (att_contentType a)).

(** The last such attachment of the list. *)
Definition last_pdf_attachment (p : string) (l : list RawAttachment) : option string :=
  last (List.filter (is_pdf_attachment_of p) l) ≫= att_key.

(** The primary attachment in the spec's words: the first attachment of the
    list that has parent [p] and whose content type contains "pdf". *)
Definition first_matching_attachment (p : string) (l : list RawAttachment)
    : option string :=
  head (List.filter (fun a => bool_decide (att_parentItem a = Some p)
                              && PyStr.contains "pdf" (PyStr.lower (att_contentType a)))
                    l) ≫= att_key.

(** The annotation count derived from the previously written artifact: the
    markers of its annotation section, and none when there is no artifact
    (or an empty one). *)
Definition artifact_marker_count (existing_content : option string) : nat :=
  match nonempty existing_content with
  | Some content => existing_annot_count (annotations_section content)
  | None => 0%nat
  end.

(** The annotations the batch holds for an item. *)
Definition item_annotations (batch : BatchData) (item : ZoteroItem) : list Annotation :=
  default [] (annotations_by_item batch !! key item).

(** The free text carried over to a render: the notes section of the
    artifact written before, for an item that has a state row. *)
Definition preserved_for (w : World) (item : ZoteroItem) : option string :=
  match db_items (store w) !! key item with
  | Some _ => nonempty (files w !! citation_key item) ≫= notes_section
  | None => None
  end.

(** The artifact a reconciliation of [item] writes from world [w]. *)
Definition rendered_markdown (batch : BatchData) (item : ZoteroItem) (w : World)
    : string :=
  render item (item_annotations batch item) (preserved_for w item)
         (attachment_keys batch !! key item).

(** The state row it upserts. *)
Definition rendered_state (batch : BatchData) (item : ZoteroItem) (w : World)
    : ItemState :=
  mkItemState (key item) (citation_key item) (item_type item) (version item)
              (markdown_path (citation_key item)) (clock w) active
              (hash_text (rendered_markdown batch item w)).

(** The result after one more processed item with [n] annotations,
    created or updated. *)
Definition counted (is_update : bool) (n : nat) (r : SyncResult) : SyncResult :=
  mkSyncResult (S (total_items_processed r))
    (if is_update then items_created r else S (items_created r))
    (if is_update then S (items_updated r) else items_updated r)
    (items_removed r) (items_skipped r) (annotations_synced r + n)%nat (errors r).

(** The result after one more processed item with [n] annotations that was
    left as it is. *)
Definition passed_over (n : nat) (r : SyncResult) : SyncResult :=
  mkSyncResult (S (total_items_processed r)) (items_created r) (items_updated r)
    (items_removed r) (items_skipped r) (annotations_synced r + n)%nat (errors r).

(** When a reconciliation goes on to render: the item has no state row, or
    the render is forced, or its version advanced, or its annotation count
    differs from the marker count of the artifact. *)
Definition goes_on (force : bool) (item : ZoteroItem) (batch : BatchData) (w : World)
    : Prop :=
  match db_items (store w) !! key item with
  | None => True
  | Some existing =>
      force = true
      \/ zotero_version (row_state existing) < version item
      \/ artifact_marker_count (files w !! citation_key item)
         <> length (item_annotations batch item)
  end.

End SpecNotions.

(** ** The batch index as a function of the remote library *)

Section BatchOf.

Context {collab : Collaborators}.

(** One turn of the annotation loop when the constructor does not raise. *)
Definition annotation_step_pure (attachment_to_parent : gmap string string)
    (by_item : gmap string (list Annotation)) (annotation_data : RawAnnotation)
    : gmap string (list Annotation) :=
  let annotation := parse_annotation annotation_data in
  match nonempty (parent_key annotation ≫= (fun k => attachment_to_parent !! k)) with
  | Some pik => <[pik := default [] (by_item !! pik) ++ [annotation]]> by_item
  | None => by_item
  end.

(** What [_build_batch_data] returns when no call raises. *)
Definition batch_of (r : Remote) : BatchData :=
  let maps := attachment_loop (zot_all_attachments r) in
  mkBatchData (fold_left (annotation_step_pure maps.1) (zot_all_annotations r) ∅) maps.2.

(** The calls of the prefetch, newest first. *)
Definition prefetch_log (r : Remote) : list Call :=
  rev (map PAnnotationFromApiResponse (zot_all_annotations r))
  ++ [ZGetAllAttachments; ZGetAllAnnotations].

End BatchOf.


(** ** A concrete library *)

Module Demo.

(** Collaborators for the examples: an item parses when its payload is not
    empty, with citation key "ck-" followed by its key and version 10; an
    annotation's payload names its attachment; the renderer writes one
    marker per annotation. *)
#[local] Instance collaborators : Collaborators := {|
  parse_item raw :=
    match raw_key raw with
    | Some k => if String.eqb (raw_data raw) "" then None
                else Some (mkZoteroItem k ("ck-" ++ k)%string "article" 10 (raw_data raw))
    | None => None
    end;
  parse_annotation ra := mkAnnotation (Some (rann_data ra)) "note";
  render item annotations notes att :=
    ("# " ++ citation_key item
     ++ String.concat "" (map (fun _ => "- <mark class=x>") annotations))%string;
  annotations_section content := Some content;
  notes_section content := None;
  markdown_path ck := (ck ++ ".md")%string;
  hash_text text := text;
  removed_path ck := None;
|}.

Definition pdf1 : RawAttachment := mkRawAttachment (Some "ATT1") (Some "A") "application/pdf".
Definition pdf2 : RawAttachment := mkRawAttachment (Some "ATT2") (Some "A") "application/PDF".

Definition itemA : RawItem := mkRawItem (Some "A") "x".
Definition parsedA : ZoteroItem := mkZoteroItem "A" "ck-A" "article" 10 "x".

(** A library at version [v] with item "A", two PDF attachments of "A",
    [m] annotations on the first, and a deletion reported for "GHOST". *)
Definition library_at (v : Z) (m : nat) : Remote :=
  mkRemote v [itemA] (fun _ => [itemA]) (fun _ => ["GHOST"])
           (replicate m (mkRawAnnotation "ATT1")) [pdf1; pdf2]
           (fun k => mkRawItem (Some k) "x").

Definition library_with (m : nat) : Remote := library_at 11 m.

Definition library : Remote := library_with 1.

Definition builtin : TemplateVersion := mkTemplateVersion "h1" "built-in".

(** Nothing synced yet at version 10, no call raises. *)
Definition fresh : World :=
  mkWorld library (mkStore ∅ (Some 10) None None None) builtin ∅ 0
          (fun _ _ => None) [] SyncResult0.

(** The artifact of "A" with [n] annotation markers, and its state row at
    version 10. *)
Definition artifact (n : nat) : string :=
  render parsedA (replicate n (mkAnnotation (Some "ATT1") "note")) None (Some "ATT2").

Definition rowA (n : nat) : ItemRow :=
  mkItemRow (mkItemState "A" "ck-A" "article" 10 "ck-A.md" 0 active (artifact n))
            (Some itemA).

(** The batch index of the library with [m] annotations. *)
Definition batch (m : nat) : BatchData := batch_of (library_with m).

(** "A" is tracked at version 10 with an artifact of [n] markers, the
    library has [m] annotations for it, and no call raises. *)
Definition tracked (n m : nat) : World :=
  mkWorld (library_with m) (mkStore {["A" := rowA n]} (Some 10) None None (Some builtin))
          builtin {["ck-A" := artifact n]} 0 (fun _ _ => None) [] SyncResult0.

(** The same store, far behind a library at version 5000. *)
Definition stale : World :=
  mkWorld (library_at 5000 1)
          (mkStore {["A" := rowA 1]} (Some 10) None None (Some builtin))
          builtin {["ck-A" := artifact 1]} 0 (fun _ _ => None) [] SyncResult0.

(** "A" is tracked without cached payload, and the stored template version
    is an older one; the library version is the recorded one. *)
Definition uncached : World :=
  mkWorld (library_at 10 1)
          (mkStore {["A" := mkItemRow (row_state (rowA 1)) None]} (Some 10) None None
                   (Some (mkTemplateVersion "h0" "built-in")))
          builtin {["ck-A" := artifact 1]} 0 (fun _ _ => None) [] SyncResult0.

(** The render of an item raises, nothing else does. *)
Definition render_raises (n : nat) (c : Call) : option Exn :=
  match c with
  | RRenderItem _ _ _ _ => Some "boom"
  | _ => None
  end.

Definition flaky : World :=
  mkWorld library (mkStore ∅ (Some 10) None None None) builtin ∅ 0
          render_raises [] SyncResult0.

End Demo.


Section RunMarks.

Context {collab : Collaborators}.

(** The mark a forced reconciliation of [item_data] leaves between [w] and
    [w']: if the item has a citation key, a render call with the batch's
    annotations and attachment, and an upsert of an active row at the item's
    version that caches the raw payload. *)
Definition rendered_and_upserted (batch : BatchData) (item_data : RawItem)
    (w w' : World) : Prop :=
  forall item, parse_item item_data = Some item ->
    exists st preserved,
      emitted_since w w' (RRenderItem item (item_annotations batch item) preserved
                                      (attachment_keys batch !! key item))
      /\ emitted_since w w' (SUpsertItem st (Some item_data))
      /\ zotero_key st = key item
      /\ zotero_version st = version item
      /\ sync_status st = active.

(** The text recorded for an item whose reconciliation raised [e]. *)
Definition item_error_message (item_data : RawItem) (e : Exn) : string :=
  ("Error syncing item " ++ default "UNKNOWN" (raw_key item_data) ++ ": " ++ e)%string.

End RunMarks.

Section RerenderNotions.

Context {collab : Collaborators}.

(** The store keeps its primary key: the row found under an external key
    carries that key. *)
Definition store_keyed (w : World) : Prop :=
  forall k row, db_items (store w) !! k = Some row -> zotero_key (row_state row) = k.

(** The payload a re-render of the row under [k] parses: the cached one,
    or, when the cache is empty, the item fetched from the remote. *)
Definition payload_for (w : World) (k : string) : RawItem :=
  default (zot_item (remote w) k) (db_items (store w) !! k ≫= row_json).

(** A single-item fetch is only made for a key whose cache is empty. *)
Definition fetch_is_fallback (w : World) (c : Call) : Prop :=
  forall k, c = ZItem k -> db_items (store w) !! k ≫= row_json = None.

(** The active Item States, as [get_active_items] lists them. *)
Definition active_states (w : World) : list ItemState :=
  row_state <$> List.filter is_active (map_to_list (db_items (store w))).*2.

(** The mark a re-render of the row under [k] leaves between [v] and [v']:
    if the payload of [w] for [k] has a citation key, a render call with the
    batch's annotations and attachment for [k]. *)
Definition rerendered (w : World) (batch : BatchData) (k : string) (v v' : World)
    : Prop :=
  forall item, parse_item (payload_for w k) = Some item ->
    exists preserved,
      emitted_since v v' (RRenderItem item (default [] (annotations_by_item batch !! k))
                                      preserved (attachment_keys batch !! k)).

End RerenderNotions.

(** ** Notions for the rest of the engine *)

Section MoreNotions.

Context {collab : Collaborators}.

(** An attachment that the prefetcher enters under key [ak] in its
    attachment-to-parent index: key and parent true for Python, key [ak]. *)
Definition keyed_child (ak : string) (a : RawAttachment) : bool :=
  PyStr.truthy (att_key a) && PyStr.truthy (att_parentItem a)
  && bool_decide (att_key a = Some ak).

(** An annotation that the index [attachment_to_parent] files under the
    parent item [p]. *)
Definition filed_under (attachment_to_parent : gmap string string) (p : string)
    (a : Annotation) : bool :=
  bool_decide (nonempty (parent_key a ≫= (fun k => attachment_to_parent !! k)) = Some p).

(** The annotations of parent [p], in the order of the raw list. *)
Definition annotations_of (attachment_to_parent : gmap string string) (p : string)
    (all_annotations : list RawAnnotation) : list Annotation :=
  List.filter (filed_under attachment_to_parent p) (map parse_annotation all_annotations).

End MoreNotions.

(** A request to the Zotero client. *)
Definition zotero_call (c : Call) : bool :=
  match c with
  | ZGetLibraryVersion | ZGetAllItems | ZGetItemsSinceVersion _ | ZGetDeletedItems _
  | ZGetAllAnnotations | ZGetAllAttachments | ZItem _ => true
  | _ => false
  end.

(** [frames f m]: whatever raises, a run of [m] leaves the component [f] of
    the world as it was. *)
Definition frames {X A} (f : World -> X) (m : M A) : Prop :=
  forall w, f (m w).2 = f w.

(** The items a run has settled: created, updated, skipped, or failed with
    a recorded error. *)
Definition settled (r : SyncResult) : nat :=
  (items_created r + items_updated r + items_skipped r + length (errors r))%nat.

(** The keys [_handle_removed_items] takes as removed: tracked as active,
    and not a key of the current remote item list. *)
Definition gone_keys (w : World) : gset string :=
  dom (filter (fun kr => is_active kr.2 = true) (db_items (store w)))
  ∖ list_to_set (omap raw_key (zot_all_items (remote w))).

(** The rows after the keys [ks] were marked removed. *)
Definition rows_marked (ks : gset string) (m : gmap string ItemRow) (k : string)
    : option ItemRow :=
  if decide (k ∈ ks) then mark_removed <$> m !! k else m !! k.

(** The keys of the current remote item list. *)
Definition remote_keys (r : Remote) : gset string :=
  list_to_set (omap raw_key (zot_all_items r)).

(** The result after one more updated item. *)
Definition one_more_updated (r : SyncResult) : SyncResult :=
  mkSyncResult (total_items_processed r) (items_created r) (S (items_updated r))
    (items_removed r) (items_skipped r) (annotations_synced r) (errors r).

Section MoreItemNotions.

Context {collab : Collaborators}.

(** The model constructor takes the key of an item from the key of its raw
    payload. *)
Definition keeps_key : Prop :=
  forall raw item, parse_item raw = Some item -> raw_key raw = Some (key item).

(** The artifact a re-render of the row [x] writes from world [v]: the item
    parsed from the payload, the batch's annotations and attachment for the
    key of the row, and the notes of the artifact filed under the citation
    key of the row. *)
Definition rerender_markdown (x : ItemState) (batch : BatchData) (item : ZoteroItem)
    (v : World) : string :=
  render item (default [] (annotations_by_item batch !! zotero_key x))
         (nonempty (files v !! is_citation_key x) ≫= notes_section)
         (attachment_keys batch !! zotero_key x).

(** The state row it upserts: the row [x] with a new timestamp and a new
    content fingerprint. *)
Definition rerender_state (x : ItemState) (batch : BatchData) (item : ZoteroItem)
    (v : World) : ItemState :=
  mkItemState (zotero_key x) (is_citation_key x) (is_item_type x) (zotero_version x)
              (file_path x) (clock v) (sync_status x)
              (hash_text (rerender_markdown x batch item v)).

(** A row is tracked as active under key [k]. *)
Definition tracked_active (w : World) (k : string) : Prop :=
  exists row, db_items (store w) !! k = Some row /\ is_active row = true.

End MoreItemNotions.

(** The counters a re-render never moves. *)
Definition rerender_untouched (r : SyncResult) : nat * nat * nat * nat * nat :=
  (total_items_processed r, items_created r, items_removed r, items_skipped r,
   annotations_synced r).

(** The items a re-render has accounted for: updated, or failed with a
    recorded error. *)
Definition rerender_tally (r : SyncResult) : nat :=
  (items_updated r + length (errors r))%nat.

(** [keeps_on_raise f m]: a run of [m] that raises leaves the component [f]
    of the world as it was. *)
Definition keeps_on_raise {X A} (f : World -> X) (m : M A) : Prop :=
  forall w, match (m w).1 with
            | Raise _ => f (m w).2 = f w
            | Ok _ => True
            end.

(** The stored template version. *)
Definition stored_template (w : World) : option TemplateVersion :=
  db_template_version (store w).

(** ** More concrete worlds *)

Module DemoMore.

(** The fetch of the attachments raises, nothing else does. *)
Definition attachments_down (n : nat) (c : Call) : option Exn :=
  match c with
  | ZGetAllAttachments => Some "down"
  | _ => None
  end.

(** Nothing synced yet, an older template version stored, and the remote
    does not serve the attachments. *)
Definition outage : World :=
  mkWorld Demo.library
          (mkStore ∅ (Some 10) None None (Some (mkTemplateVersion "h0" "built-in")))
          Demo.builtin ∅ 0 attachments_down [] SyncResult0.

(** A row for "B", an item that is no longer in the library. *)
Definition rowB : ItemRow :=
  mkItemRow (mkItemState "B" "ck-B" "article" 3 "ck-B.md" 0 active "old") None.

(** "A" and "B" are tracked, the library has only "A", no call raises. *)
Definition orphaned : World :=
  mkWorld (Demo.library_with 1)
          (mkStore (<["B" := rowB]> {["A" := Demo.rowA 1]}) (Some 10) None None
                   (Some Demo.builtin))
          Demo.builtin (<["ck-B" := "old"]> {["ck-A" := Demo.artifact 1]}) 0
          (fun _ _ => None) [] SyncResult0.

End DemoMore.

(** ** [cli.sanitize_path] *)

Module Cli.

(** A Python [str] as the list of its code points. *)
Definition pystr : Type := list N.

(** [str.isspace] of one character, the whitespace that [str.strip()]
    removes: U+0009..U+000D, U+001C..U+0020, U+0085, U+00A0, U+1680,
    U+2000..U+200A, U+2028, U+2029, U+202F, U+205F and U+3000. *)
Definition isspace (c : N) : bool :=
  ((9 <=? c) && (c <=? 13) || (28 <=? c) && (c <=? 32)
   || (c =? 133) || (c =? 160) || (c =? 5760)
   || (8192 <=? c) && (c <=? 8202)
   || (c =? 8232) || (c =? 8233) || (c =? 8239) || (c =? 8287) || (c =? 12288))%N.

Fixpoint lstrip (s : pystr) : pystr :=
  match s with
  | c :: rest => if isspace c then lstrip rest else s
  | [] => []
  end.

Definition rstrip (s : pystr) : pystr := rev (lstrip (rev s)).

(** [s.strip()] *)
Definition strip (s : pystr) : pystr := rstrip (lstrip s).

(** [s.startswith(q)] and [s.endswith(q)] for a one-character [q] *)
Definition startswith (q : N) (s : pystr) : bool :=
  match s with
  | c :: _ => (c =? q)%N
  | [] => false
  end.

Definition endswith (q : N) (s : pystr) : bool :=
  match last s with
  | Some c => (c =? q)%N
  | None => false
  end.

(** [s[1:-1]] *)
Definition inner (s : pystr) : pystr := removelast (tail s).

(** The double and the single quote. *)
Definition dquote : N := 34.
Definition squote : N := 39.

Definition sanitize_path (path_str : pystr) : pystr :=
  let path_str := strip path_str in
  let path_str :=
    if startswith dquote path_str && endswith dquote path_str
       || startswith squote path_str && endswith squote path_str
    then inner path_str
    else path_str in
  strip path_str.

(** Neither the first nor the last character is whitespace. *)
Definition stripped (s : pystr) : Prop :=
  (forall c, head s = Some c -> isspace c = false)
  /\ (forall c, last s = Some c -> isspace c = false).

(** The string is made of whitespace only. *)
Definition blank (s : pystr) : Prop := Forall (fun c => isspace c = true) s.

(** The string starts and ends with the same quote character. *)
Definition quoted (s : pystr) : bool :=
  startswith dquote s && endswith dquote s || startswith squote s && endswith squote s.

End Cli.

(** ** Worlds with failures *)

Module DemoFail.

Definition itemB : RawItem := mkRawItem (Some "B") "y".

(** The render of item "A" raises, nothing else does. *)
Definition render_of_A_raises (n : nat) (c : Call) : option Exn :=
  match c with
  | RRenderItem item _ _ _ => if String.eqb (key item) "A" then Some "boom" else None
  | _ => None
  end.

(** A library with the items "A" and "B", nothing synced yet. *)
Definition two_items : World :=
  mkWorld (mkRemote 11 [Demo.itemA; itemB] (fun _ => [Demo.itemA; itemB])
                    (fun _ => []) [] [Demo.pdf1] (fun k => mkRawItem (Some k) "x"))
          (mkStore ∅ (Some 10) None None None) Demo.builtin ∅ 0
          render_of_A_raises [] SyncResult0.

(** Recording the full sync raises, nothing else does. *)
Definition record_raises (n : nat) (c : Call) : option Exn :=
  match c with
  | SRecordFullSync _ => Some "db locked"
  | _ => None
  end.

(** Nothing synced yet, and the store refuses the final commit. *)
Definition db_locked : World :=
  mkWorld Demo.library (mkStore ∅ None None None None) Demo.builtin ∅ 0
          record_raises [] SyncResult0.

End DemoFail.

(** * Proofs *)

(** ** Rules for [wp] *)

Lemma bind_run {A B} (m : M A) (k : A -> M B) w :
  (m ≫= k) w = match m w with
               | (Ok a, w1) => k a w1
               | (Raise e, w1) => (Raise e, w1)
               end.
Proof. reflexivity. Qed.

Lemma try_except_reraise {A} (m : M A) w :
  try_except m (fun e => raise e) w = m w.
Proof. unfold try_except, raise. by destruct (m w) as [[a|e] w1]. Qed.

Lemma wp_run {A} (m : M A) Q w : wp m Q w -> Q (m w).1 (m w).2.
Proof. done. Qed.

Lemma wp_conseq {A} (m : M A) (Q Q' : Res A -> World -> Prop) w :
  wp m Q w -> (forall r w', Q r w' -> Q' r w') -> wp m Q' w.
Proof. unfold wp. auto. Qed.

Lemma wp_ret {A} (a : A) Q w : Q (Ok a) w -> wp (mret a) Q w.
Proof. done. Qed.

Lemma wp_raise {A} e (Q : Res A -> World -> Prop) w : Q (Raise e) w -> wp (raise e) Q w.
Proof. done. Qed.

Lemma wp_gets {A} (f : World -> A) Q w : Q (Ok (f w)) w -> wp (gets f) Q w.
Proof. done. Qed.

Lemma wp_modify f Q w : Q (Ok tt) (f w) -> wp (modify f) Q w.
Proof. done. Qed.

Lemma wp_bind {A B} (m : M A) (k : A -> M B) Q w :
  wp m (fun r w1 => match r with
                    | Ok a => wp (k a) Q w1
                    | Raise e => Q (Raise e) w1
                    end) w ->
  wp (m ≫= k) Q w.
Proof. unfold wp. rewrite bind_run. by destruct (m w) as [[a|e] w1]. Qed.

Lemma wp_try_except {A} (m : M A) h Q w :
  wp m (fun r w1 => match r with
                    | Ok a => Q (Ok a) w1
                    | Raise e => wp (h e) Q w1
                    end) w ->
  wp (try_except m h) Q w.
Proof. unfold wp, try_except. by destruct (m w) as [[a|e] w1]. Qed.

Lemma wp_call c Q w :
  match faults w (length (trace w)) c with
  | Some e => Q (Raise e) (log c w)
  | None => Q (Ok tt) (log c w)
  end ->
  wp (call c) Q w.
Proof. unfold wp, call. by destruct (faults w _ c). Qed.

(** ** Rules for [emits] *)

Lemma same_env_refl w : same_env w w.
Proof. by repeat split. Qed.

Lemma same_env_trans w1 w2 w3 : same_env w1 w2 -> same_env w2 w3 -> same_env w1 w3.
Proof.
  unfold same_env. intros (?&?&?&?&?) (?&?&?&?&?).
  repeat split; [congruence..|set_solver].
Qed.

Lemma emits_ret {A} P (a : A) : emits P (mret a).
Proof. intros w. split; [apply same_env_refl|]. by exists []. Qed.

Lemma emits_raise {A} P e : emits P (@raise A e).
Proof. intros w. split; [apply same_env_refl|]. by exists []. Qed.

Lemma emits_gets {A} P (f : World -> A) : emits P (gets f).
Proof. intros w. split; [apply same_env_refl|]. by exists []. Qed.

Lemma emits_modify P f :
  (forall w, same_env w (f w) /\ trace (f w) = trace w) -> emits P (modify f).
Proof. intros Hf w. destruct (Hf w) as [? Ht]. split; [done|]. by exists []. Qed.

Lemma emits_call (P : Call -> Prop) c : P c -> emits P (call c).
Proof.
  intros Hc w. unfold call.
  destruct (faults w _ c); (split; [by repeat split|]); exists [c]; by repeat constructor.
Qed.

Lemma emits_bind {A B} P (m : M A) (k : A -> M B) :
  emits P m -> (forall a, emits P (k a)) -> emits P (m ≫= k).
Proof.
  intros Hm Hk w. rewrite bind_run.
  destruct (Hm w) as [He (evs & Ht & Hf)].
  destruct (m w) as [[a|e] w1]; cbn in *; [|eauto].
  destruct (Hk a w1) as [He' (evs' & Ht' & Hf')].
  split; [by eapply same_env_trans|].
  exists (evs' ++ evs). rewrite Ht', Ht, app_assoc. split; [done|].
  by apply Forall_app.
Qed.

Lemma emits_try_except {A} P (m : M A) h :
  emits P m -> (forall e, emits P (h e)) -> emits P (try_except m h).
Proof.
  intros Hm Hh w. unfold try_except.
  destruct (Hm w) as [He (evs & Ht & Hf)].
  destruct (m w) as [[a|e] w1]; cbn in *; [eauto|].
  destruct (Hh e w1) as [He' (evs' & Ht' & Hf')].
  split; [by eapply same_env_trans|].
  exists (evs' ++ evs). rewrite Ht', Ht, app_assoc. split; [done|].
  by apply Forall_app.
Qed.

Lemma emits_for_each {A} P (body : A -> M unit) l :
  (forall x, emits P (body x)) -> emits P (for_each body l).
Proof.
  intros Hb. induction l as [|x rest IH]; cbn [for_each].
  - apply emits_ret.
  - apply emits_bind; auto.
Qed.

Lemma emits_foldM {A B} P (body : B -> A -> M B) l acc :
  (forall acc x, emits P (body acc x)) -> emits P (foldM body l acc).
Proof.
  intros Hb. revert acc. induction l as [|x rest IH]; intros acc; cbn [foldM].
  - apply emits_ret.
  - apply emits_bind; auto.
Qed.

Lemma emits_weaken {A} (P P' : Call -> Prop) (m : M A) :
  (forall c, P c -> P' c) -> emits P m -> emits P' m.
Proof.
  intros HP Hm w. destruct (Hm w) as [He (evs & Ht & Hf)].
  split; [done|]. exists evs. split; [done|]. eapply Forall_impl; eauto.
Qed.

Lemma set_result_env f w : same_env w (set_result f w) /\ trace (set_result f w) = trace w.
Proof. by repeat split. Qed.

Lemma set_store_env f w :
  (forall s, dom (db_items s) ⊆ dom (db_items (f s))) ->
  same_env w (set_store f w) /\ trace (set_store f w) = trace w.
Proof. intros Hf. repeat split. apply Hf. Qed.

Lemma rows_kept_insert (m : gmap string ItemRow) k v : dom m ⊆ dom (<[k:=v]> m).
Proof. rewrite dom_insert_L. set_solver. Qed.

Lemma rows_kept_alter (m : gmap string ItemRow) f k : dom m ⊆ dom (alter f k m).
Proof. by rewrite dom_alter_L. Qed.

Ltac solve_rows :=
  intros ?; cbn [set_db_items db_items];
  first [done | apply rows_kept_insert | apply rows_kept_alter].

Lemma set_files_env f w : same_env w (set_files f w) /\ trace (set_files f w) = trace w.
Proof. by repeat split. Qed.

Ltac emits_step :=
  lazymatch goal with
  | |- emits _ (mbind _ _) => apply emits_bind; [|intros ?]
  | |- emits _ (mret _) => apply emits_ret
  | |- emits _ (raise _) => apply emits_raise
  | |- emits _ (gets _) => apply emits_gets
  | |- emits _ (modify (set_result _)) => apply emits_modify, set_result_env
  | |- emits _ (modify (set_store _)) =>
      apply emits_modify; intros ?; apply set_store_env; solve_rows
  | |- emits _ (modify (set_files _)) => apply emits_modify, set_files_env
  | |- emits _ (modify (fun w => set_store _ w)) =>
      apply emits_modify; intros ?; apply set_store_env; solve_rows
  | |- emits _ (call _) => apply emits_call; reflexivity
  | |- emits _ (try_except _ _) => apply emits_try_except; [|intros ?]
  | |- emits _ (for_each _ _) => apply emits_for_each; intros ?
  | |- emits _ (foldM _ _ _) => apply emits_foldM; intros ? ?
  | |- emits _ (match ?x with _ => _ end) => destruct x
  | |- emits _ (if ?x then _ else _) => destruct x
  end.

Ltac unfold_ops :=
  unfold zotero_get_library_version, zotero_get_all_items,
    zotero_get_items_since_version, zotero_get_deleted_items,
    zotero_get_all_annotations, zotero_get_all_attachments, zotero_item,
    ZoteroItem_from_api_response, Annotation_from_api_response,
    state_get_last_library_version, state_get_template_version,
    state_get_item_state, state_select_item_json, state_upsert_item,
    state_mark_item_removed, state_get_all_item_keys, state_get_active_items,
    state_record_full_sync, state_update_library_version,
    state_record_template_version, renderer_get_template_hash,
    renderer_get_template_path_identifier, renderer_extract_annotations_section,
    renderer_extract_notes_section, renderer_render_item, files_read_existing,
    files_write_markdown, files_get_content_hash, files_handle_removed_item,
    datetime_now, increment_processed, increment_created, increment_updated,
    increment_skipped, add_annotations, add_error, set_items_removed.

Ltac solve_emits := unfold_ops; repeat emits_step.

Section Emits.

Context {collab : Collaborators}.

Lemma emits_build_batch_data sp :
  emits (fun c => prefetch_call c = true) (_build_batch_data sp).
Proof. unfold _build_batch_data, annotation_step. solve_emits. Qed.

Lemma emits_sync_single_item_batch item_data batch force :
  emits (fun c => item_call c = true) (_sync_single_item_batch item_data batch force).
Proof. unfold _sync_single_item_batch. solve_emits. Qed.

Lemma emits_sync_item_guarded batch force item_data :
  emits (fun c => item_call c = true) (sync_item_guarded batch force item_data).
Proof.
  unfold sync_item_guarded. apply emits_try_except.
  - apply emits_sync_single_item_batch.
  - intros e. solve_emits.
Qed.

Lemma emits_handle_deleted_item item_key :
  emits (fun c => deletion_call c = true) (_handle_deleted_item item_key).
Proof. unfold _handle_deleted_item. solve_emits. Qed.

Lemma emits_rerender_single_item item_state batch :
  emits (fun c => rerender_call c = true) (_rerender_single_item item_state batch).
Proof. unfold _rerender_single_item. solve_emits. Qed.

End Emits.

Ltac emits_sub lem :=
  eapply emits_weaken; [|apply lem]; first [done | by intros []].

Ltac emits_go :=
  unfold_ops;
  repeat lazymatch goal with
  | |- emits _ (call _) => apply emits_call; first [reflexivity | done]
  | |- emits _ (_build_batch_data _) => emits_sub emits_build_batch_data
  | |- emits _ (sync_item_guarded _ _ _) => emits_sub emits_sync_item_guarded
  | |- emits _ (_handle_deleted_item _) => emits_sub emits_handle_deleted_item
  | |- emits _ (_rerender_single_item _ _) => emits_sub emits_rerender_single_item
  | |- _ => emits_step
  end.

Section EmitsEntry.

Context {collab : Collaborators}.

Lemma emits_handle_removed_items :
  emits (fun c => full_sync_call c = true) _handle_removed_items.
Proof. unfold _handle_removed_items. emits_go. Qed.

Lemma emits_full_sync sp : emits (fun c => full_sync_call c = true) (full_sync sp).
Proof.
  unfold full_sync.
  repeat lazymatch goal with
  | |- emits _ _handle_removed_items => apply emits_handle_removed_items
  | |- _ => progress emits_go
  end.
Qed.

Lemma emits_full_rerender_all_items sp :
  emits (fun c => full_rerender_call c = true) (_full_rerender_all_items sp).
Proof. unfold _full_rerender_all_items, rerender_item_guarded. emits_go. Qed.

Lemma emits_incremental_sync sp : emits (fun _ => True) (incremental_sync sp).
Proof.
  unfold incremental_sync.
  repeat lazymatch goal with
  | |- emits _ (full_sync _) => emits_sub emits_full_sync
  | |- emits _ (_full_rerender_all_items _) => emits_sub emits_full_rerender_all_items
  | |- _ => progress emits_go
  end.
Qed.

End EmitsEntry.

(** ** Stepping through a run *)

Ltac wsimpl :=
  cbn [faults trace store files remote template clock result log logs
       set_result set_store set_files set_db_items
       db_items db_last_library_version db_last_full_sync
       db_last_incremental_sync db_template_version fst snd].

Ltac wsimpl_all :=
  cbn [faults trace store files remote template clock result log logs
       set_result set_store set_files set_db_items
       db_items db_last_library_version db_last_full_sync
       db_last_incremental_sync db_template_version fst snd] in *.

Ltac wp_step :=
  lazymatch goal with
  | |- wp (mbind _ _) _ _ => apply wp_bind
  | |- wp (mret _) _ _ => apply wp_ret
  | |- wp (raise _) _ _ => apply wp_raise
  | |- wp (gets _) _ _ => apply wp_gets
  | |- wp (modify _) _ _ => apply wp_modify
  | |- wp (try_except _ _) _ _ => apply wp_try_except
  | |- wp (call _) _ _ => apply wp_call
  end; wsimpl.

(** Steps as long as no call has to be decided. *)
Ltac wp_steps := unfold_ops; repeat wp_step.

(** Steps through calls that do not raise: [Hnf] rewrites the fault table. *)
Ltac wp_ok Hnf :=
  unfold_ops;
  repeat (wp_step; try (rewrite Hnf by (cbn [length]; lia))).

(** Steps through calls that may raise; a raising call leaves the goal for
    [tac]. *)
Ltac wp_any tac :=
  unfold_ops;
  repeat (wp_step;
          try lazymatch goal with
              | |- match faults ?w ?n ?c with _ => _ end =>
                  destruct (faults w n c) eqn:?; [tac|]
              end).

Lemma logs_nil w : logs [] w = w.
Proof. by destruct w. Qed.

Lemma logs_log evs c w : logs evs (log c w) = logs (evs ++ [c]) w.
Proof. unfold logs, log. cbn. by rewrite <- app_assoc. Qed.

Lemma ext_nil {A} (t : list A) : t = [] ++ t.
Proof. done. Qed.

Lemma ext_cons {A} (c : A) l evs t : l = evs ++ t -> c :: l = (c :: evs) ++ t.
Proof. by intros ->. Qed.

(** Splits a log [c1 :: ... :: cn :: trace w] into the new calls and the old
    log. *)
Ltac solve_ext := repeat eapply ext_cons; apply ext_nil.

Lemma wp_ok_elim {A} (m : M A) (a : A) (P : World -> Prop) w :
  wp m (fun r w' => r = Ok a /\ P w') w -> exists w', m w = (Ok a, w') /\ P w'.
Proof. unfold wp. destruct (m w) as [r w']. cbn. intros [-> HP]. eauto. Qed.

Lemma calm_step w w' : calm w -> same_env w w' -> extends w w' -> calm w'.
Proof.
  intros Hc (_&_&_&Hf&_) [evs Ht] m c Hm. rewrite Hf. apply Hc.
  rewrite Ht, length_app in Hm. lia.
Qed.

Lemma emits_calm {A} P (m : M A) w : emits P m -> calm w -> calm (m w).2.
Proof.
  intros Hm Hc. destruct (Hm w) as [He (evs & Ht & _)].
  eapply calm_step; [done..|]. by exists evs.
Qed.

Ltac wp_case :=
  lazymatch goal with
  | |- wp (match ?x with _ => _ end) _ _ => destruct x eqn:?
  | |- wp (if ?x then _ else _) _ _ => destruct x eqn:?
  end.

(** Explores every path, raising calls and branches included; [tac] closes
    the leaves. *)
Ltac wp_all tac :=
  unfold_ops;
  repeat first
    [ wp_step;
      try lazymatch goal with
          | |- match faults ?w ?n ?c with _ => _ end =>
              destruct (faults w n c) eqn:?
          end
    | wp_case ];
  tac.

Lemma wp_of_eq {A} (m : M A) r w' (Q : Res A -> World -> Prop) w :
  m w = (r, w') -> Q r w' -> wp m Q w.
Proof. unfold wp. by intros ->. Qed.

Lemma extends_refl w : extends w w.
Proof. by exists []. Qed.

Lemma extends_trans w1 w2 w3 : extends w1 w2 -> extends w2 w3 -> extends w1 w3.
Proof. intros [e1 H1] [e2 H2]. exists (e2 ++ e1). by rewrite H2, H1, app_assoc. Qed.

Lemma emits_extends {A} P (m : M A) w : emits P m -> extends w (m w).2.
Proof. intros Hm. destruct (Hm w) as [_ (evs & Ht & _)]. by exists evs. Qed.

Lemma emitted_since_mono w0 w1 w2 w3 c :
  extends w0 w1 -> emitted_since w1 w2 c -> extends w2 w3 -> emitted_since w0 w3 c.
Proof.
  intros [e1 H1] (evs & Ht & Hin) [e3 H3].
  exists (e3 ++ evs ++ e1). rewrite H3, Ht, H1, <- !app_assoc. split; [done|].
  apply in_or_app. right. apply in_or_app. by left.
Qed.

Lemma emitted_since_here w w' evs c :
  trace w' = evs ++ trace w -> In c evs -> emitted_since w w' c.
Proof. intros. by exists evs. Qed.

(** A loop whose body never raises: the invariant holds at the end and
    every item has left its mark [phi]. *)
Lemma for_each_marks {A} (body : A -> M unit) (I : list A -> World -> Prop)
    (phi : A -> World -> World -> Prop) :
  (forall x rest w, I (x :: rest) w ->
     exists w', body x w = (Ok tt, w') /\ I rest w' /\ extends w w' /\ phi x w w') ->
  (forall x w0 w1 w2 w3,
     extends w0 w1 -> phi x w1 w2 -> extends w2 w3 -> phi x w0 w3) ->
  forall items w, I items w ->
    exists w', for_each body items w = (Ok tt, w') /\ I [] w' /\ extends w w'
               /\ forall x, In x items -> phi x w w'.
Proof.
  intros Hbody Hmono. induction items as [|x rest IH]; intros w HI.
  - exists w. repeat split; [done|apply extends_refl|intros ? []].
  - destruct (Hbody x rest w HI) as (w1 & Hrun & HI1 & Hext1 & Hphi).
    destruct (IH w1 HI1) as (w2 & Hrun2 & HI2 & Hext2 & Hall).
    exists w2. cbn [for_each]. rewrite bind_run, Hrun.
    repeat split; [done..|by eapply extends_trans|].
    intros y [<-|Hy].
    + eapply Hmono; [apply extends_refl|done..].
    + eapply Hmono; [done|by apply Hall|apply extends_refl].
Qed.

(** ** The batch prefetcher *)

Section Prefetch.

Context {collab : Collaborators}.

Lemma attachment_loop_snoc l a :
  attachment_loop (l ++ [a]) = attachment_step (attachment_loop l) a.
Proof. unfold attachment_loop. by rewrite fold_left_app. Qed.

Lemma last_pdf_attachment_snoc p l a :
  last_pdf_attachment p (l ++ [a])
  = if is_pdf_attachment_of p a then att_key a else last_pdf_attachment p l.
Proof.
  unfold last_pdf_attachment. rewrite List.filter_app. cbn [List.filter].
  destruct (is_pdf_attachment_of p a).
  - by rewrite last_snoc.
  - by rewrite app_nil_r.
Qed.

Lemma attachment_loop_lookup p l :
  (attachment_loop l).2 !! p = last_pdf_attachment p l.
Proof.
  induction l as [|a l IH] using rev_ind; [done|].
  rewrite attachment_loop_snoc, last_pdf_attachment_snoc.
  unfold attachment_step, is_pdf_attachment_of, nonempty.
  destruct (PyStr.truthy (att_key a)) eqn:Hk; [|by destruct (att_key a)].
  destruct (PyStr.truthy (att_parentItem a)) eqn:Hp;
    [|by destruct (att_key a), (att_parentItem a)].
  destruct (att_key a) as [ak|]; [|done].
  destruct (att_parentItem a) as [pk|]; [|done].
  cbn [andb snd].
  destruct (PyStr.contains "pdf" _); rewrite ?andb_true_r, ?andb_false_r; [|done].
  case_bool_decide as Hpk.
  - simplify_eq. by rewrite lookup_insert_eq.
  - rewrite lookup_insert_ne; [done|congruence].
Qed.

End Prefetch.

Section PrefetchRun.

Context {collab : Collaborators}.

Lemma annotation_loop_ok a2p annots : forall acc w,
  no_faults_from (length (trace w)) w ->
  foldM (annotation_step a2p) annots acc w
  = (Ok (fold_left (annotation_step_pure a2p) annots acc),
     logs (rev (map PAnnotationFromApiResponse annots)) w).
Proof.
  induction annots as [|ad annots IH]; intros acc w Hnf.
  - cbn. by rewrite logs_nil.
  - cbn [foldM fold_left map rev]. rewrite bind_run.
    unfold annotation_step at 1, Annotation_from_api_response.
    rewrite !bind_run. unfold call. rewrite Hnf by lia.
    change (annotation_step_pure a2p acc ad) with
      (match nonempty (parent_key (parse_annotation ad) ≫= (fun k => a2p !! k)) with
       | Some pik => <[pik := default [] (acc !! pik) ++ [parse_annotation ad]]> acc
       | None => acc
       end).
    cbn [mret M_ret].
    assert (Hnf' : no_faults_from (length (trace (log (PAnnotationFromApiResponse ad) w)))
                     (log (PAnnotationFromApiResponse ad) w)).
    { intros m c Hm. apply Hnf. cbn [trace log length] in Hm. lia. }
    destruct (nonempty _); cbn [mret M_ret]; rewrite IH by done;
      by rewrite logs_log.
Qed.

Lemma build_batch_data_ok sp w :
  no_faults_from (length (trace w)) w ->
  _build_batch_data sp w = (Ok (batch_of (remote w)), logs (prefetch_log (remote w)) w).
Proof.
  intros Hnf. unfold _build_batch_data, zotero_get_all_annotations,
    zotero_get_all_attachments, batch_of, prefetch_log.
  rewrite !bind_run. unfold call. rewrite Hnf by lia.
  cbn [gets]. rewrite !bind_run. wsimpl. rewrite Hnf by (cbn [length]; lia).
  cbn [gets]. wsimpl.
  destruct (attachment_loop _) as [a2p keys] eqn:Hloop. rewrite bind_run.
  rewrite annotation_loop_ok.
  - cbn [mret M_ret]. by rewrite !logs_log, <- !app_assoc.
  - intros m c Hm. apply Hnf. cbn [trace log length] in Hm. lia.
Qed.

End PrefetchRun.

Section PrefetchClaims.

Context {collab : Collaborators}.

(** C3 (amended): when no call of the prefetch raises, the Batch Prefetcher
    returns a map that records, for every parent, the key of the LAST
    attachment of the raw list that has a non-empty key, that parent, and a
    content type containing "pdf" whatever the case; an attachment without
    parent (or without key) is skipped, and a parent without such an
    attachment is absent from the map. *)
Theorem batch_primary_attachment_is_last_match sp w :
  no_faults_from (length (trace w)) w ->
  exists batch w',
    _build_batch_data sp w = (Ok batch, w')
    /\ (forall p, attachment_keys batch !! p
                  = last_pdf_attachment p (zot_all_attachments (remote w)))
    /\ (forall p, Forall (fun a => is_pdf_attachment_of p a = false)
                         (zot_all_attachments (remote w)) ->
                  attachment_keys batch !! p = None).
Proof.
  intros Hnf. eexists _, _. split; [by apply build_batch_data_ok|].
  cbn [attachment_keys batch_of].
  split; intros p; rewrite attachment_loop_lookup; [done|].
  intros Hall. unfold last_pdf_attachment.
  replace (List.filter (is_pdf_attachment_of p) (zot_all_attachments (remote w)))
    with (@nil RawAttachment); [done|].
  symmetry. induction Hall as [|a l Ha _ IH]; [done|].
  cbn [List.filter]. by rewrite Ha.
Qed.

End PrefetchClaims.

Lemma batch_primary_attachment_is_last_match_witness :
  no_faults_from (length (trace Demo.fresh)) Demo.fresh
  /\ exists batch w',
       _build_batch_data (collab := Demo.collaborators) true Demo.fresh = (Ok batch, w')
       /\ (forall p, attachment_keys batch !! p
                     = last_pdf_attachment p (zot_all_attachments (remote Demo.fresh)))
       /\ (forall p, Forall (fun a => is_pdf_attachment_of p a = false)
                            (zot_all_attachments (remote Demo.fresh)) ->
                     attachment_keys batch !! p = None).
Proof.
  assert (Hnf : no_faults_from (length (trace Demo.fresh)) Demo.fresh)
    by (intros m c _; reflexivity).
  split; [exact Hnf|].
  exact (batch_primary_attachment_is_last_match true Demo.fresh Hnf).
Defined.

(** C3 as stated fails: with two PDF attachments of the same parent, the
    prefetcher records the second, not the first. *)
Lemma batch_primary_attachment_not_first :
  exists batch w',
    _build_batch_data (collab := Demo.collaborators) true Demo.fresh = (Ok batch, w')
    /\ first_matching_attachment "A" (zot_all_attachments (remote Demo.fresh))
       = Some "ATT1"
    /\ attachment_keys batch !! "A" = Some "ATT2"
    /\ attachment_keys batch !! "A"
       <> first_matching_attachment "A" (zot_all_attachments (remote Demo.fresh)).
Proof.
  eexists _, _. split; [vm_compute; reflexivity|].
  by vm_compute.
Qed.

(** ** Per-item reconciliation *)

Section PerItem.

Context {collab : Collaborators}.

(** The code's two ways of comparing annotation counts agree with the count
    derived from the artifact: a missing artifact counts for no marker. *)
Lemma nat_ltb_0_ne (n : nat) : Nat.ltb 0 n = negb (Nat.eqb 0 n).
Proof. by destruct n. Qed.

(** Closes a leaf of the skip analysis: store and artifacts untouched, only
    read calls logged, and a raise contradicts calmness. *)
Ltac skip_leaf Hraise :=
  split; [reflexivity|];
  split; [reflexivity|];
  split; [eexists; split; [solve_ext|by repeat constructor]|];
  first [done | eapply Hraise; [|eassumption]; cbn [length]; lia].

(** C1: an item that has an Item State row, reconciled without
    force-rerender, whose remote version has not advanced past the stored
    one and whose annotation count equals the marker count of the artifact
    written before, is skipped: whatever calls raise, nothing of the store
    and of the artifacts changes and no render, write or upsert call is made;
    and when no call raises the reconciliation returns normally. *)
Theorem unchanged_item_is_skipped item_data batch item existing w :
  parse_item item_data = Some item ->
  db_items (store w) !! key item = Some existing ->
  ~ (zotero_version (row_state existing) < version item) ->
  artifact_marker_count (files w !! citation_key item)
    = length (default [] (annotations_by_item batch !! key item)) ->
  let r  := (_sync_single_item_batch item_data batch false w).1 in
  let w' := (_sync_single_item_batch item_data batch false w).2 in
  store w' = store w
  /\ files w' = files w
  /\ (exists evs, trace w' = evs ++ trace w
                  /\ Forall (fun c => render_or_write c = false) evs)
  /\ (calm w -> r = Ok tt).
Proof.
  intros Hp Hdb Hv Hc. cbv zeta.
  apply (wp_run (_sync_single_item_batch item_data batch false)
           (fun r w' => store w' = store w /\ files w' = files w
              /\ (exists evs, trace w' = evs ++ trace w
                              /\ Forall (fun c => render_or_write c = false) evs)
              /\ (calm w -> r = Ok tt))).
  unfold artifact_marker_count in Hc.
  assert (Hraise : forall n c e, (length (trace w) <= n)%nat ->
            faults w n c = Some e -> calm w -> Raise e = Ok tt :> Res unit).
  { intros n c e Hn He Hcalm. rewrite Hcalm in He by done. discriminate. }
  unfold _sync_single_item_batch.
  wp_any ltac:(skip_leaf Hraise).
  rewrite Hp. wsimpl.
  wp_any ltac:(skip_leaf Hraise).
  rewrite Hdb. cbn [fmap option_fmap option_map].
  wp_any ltac:(skip_leaf Hraise).
  rewrite bool_decide_eq_false_2 by done.
  destruct (nonempty (files w !! citation_key item)) as [content|].
  - wp_any ltac:(skip_leaf Hraise).
    rewrite Hc, Nat.eqb_refl. cbn [negb andb].
    wp_steps. skip_leaf Hraise.
  - wp_steps. rewrite <- Hc. cbn [Nat.ltb Nat.leb negb andb].
    wp_steps. skip_leaf Hraise.
Qed.

(** The render path: a new item, a forced one, or one whose version or
    annotation count changed is rendered, written and upserted, and counted
    as created (no state row before) or updated. *)
Lemma sync_item_render_path item_data batch force item w :
  calm w ->
  parse_item item_data = Some item ->
  goes_on force item batch w ->
  exists w',
    _sync_single_item_batch item_data batch force w = (Ok tt, w')
    /\ db_items (store w')
       = <[key item := mkItemRow (rendered_state batch item w) (Some item_data)]>
           (db_items (store w))
    /\ files w' = <[citation_key item := rendered_markdown batch item w]> (files w)
    /\ result w'
       = counted (bool_decide (is_Some (db_items (store w) !! key item)))
                 (length (item_annotations batch item)) (result w)
    /\ exists evs,
         trace w' = evs ++ trace w
         /\ List.filter render_or_write evs
            = [SUpsertItem (rendered_state batch item w) (Some item_data);
               FWriteMarkdown (citation_key item) (rendered_markdown batch item w);
               RRenderItem item (item_annotations batch item) (preserved_for w item)
                           (attachment_keys batch !! key item)].
Proof.
  intros Hcalm Hp Hgo. apply wp_ok_elim.
  unfold goes_on, artifact_marker_count in Hgo.
  unfold rendered_state, rendered_markdown, preserved_for, item_annotations in *.
  unfold _sync_single_item_batch. wp_ok Hcalm.
  rewrite Hp. wp_ok Hcalm.
  destruct (db_items (store w) !! key item) as [existing|] eqn:Hdb;
    cbn [fmap option_fmap option_map].
  - wp_ok Hcalm.
    destruct (nonempty (files w !! citation_key item)) as [content|] eqn:Hcontent.
    + wp_ok Hcalm.
      assert (Hcond : (negb force
                       && negb (bool_decide (zotero_version (row_state existing)
                                             < version item))
                       && negb (negb (existing_annot_count (annotations_section content)
                                      =? length (default [] (annotations_by_item batch
                                                             !! key item)))%nat))%bool
                      = false).
      { destruct Hgo as [->|[Hv|Hn]]; [done| |].
        - rewrite bool_decide_eq_true_2 by done. by rewrite andb_false_r.
        - apply Nat.eqb_neq in Hn. rewrite Hn. by rewrite andb_false_r. }
      rewrite Hcond. wp_ok Hcalm. rewrite Hcontent. wp_ok Hcalm.
      cbn [mbind option_bind].
      rewrite lookup_insert_eq. cbn [default].
      repeat split. eexists. split; [solve_ext|reflexivity].
    + wp_ok Hcalm.
      assert (Hcond : (negb force
                       && negb (bool_decide (zotero_version (row_state existing)
                                             < version item))
                       && negb (0 <? length (default [] (annotations_by_item batch
                                                         !! key item)))%nat)%bool
                      = false).
      { destruct Hgo as [->|[Hv|Hn]]; [done| |].
        - rewrite bool_decide_eq_true_2 by done. by rewrite andb_false_r.
        - rewrite nat_ltb_0_ne. apply Nat.eqb_neq in Hn.
          rewrite Hn. by rewrite andb_false_r. }
      rewrite Hcond. wp_ok Hcalm. rewrite Hcontent. wp_ok Hcalm.
      cbn [mbind option_bind].
      rewrite lookup_insert_eq. cbn [default].
      repeat split. eexists. split; [solve_ext|reflexivity].
  - wp_ok Hcalm. rewrite lookup_insert_eq. cbn [default].
    repeat split. eexists. split; [solve_ext|reflexivity].
Qed.

(** C7: an item that has an Item State row and whose remote version is
    strictly greater than the stored one, or whose annotation count differs
    from the marker count of the artifact written before, is (when no call
    raises) rendered, written, upserted and counted as updated, each exactly
    once. *)
Theorem changed_item_is_updated_once item_data batch force item existing w :
  calm w ->
  parse_item item_data = Some item ->
  db_items (store w) !! key item = Some existing ->
  (zotero_version (row_state existing) < version item
   \/ artifact_marker_count (files w !! citation_key item)
      <> length (item_annotations batch item)) ->
  exists w',
    _sync_single_item_batch item_data batch force w = (Ok tt, w')
    /\ db_items (store w') !! key item
       = Some (mkItemRow (rendered_state batch item w) (Some item_data))
    /\ files w' !! citation_key item = Some (rendered_markdown batch item w)
    /\ result w' = counted true (length (item_annotations batch item)) (result w)
    /\ exists evs,
         trace w' = evs ++ trace w
         /\ List.filter render_or_write evs
            = [SUpsertItem (rendered_state batch item w) (Some item_data);
               FWriteMarkdown (citation_key item) (rendered_markdown batch item w);
               RRenderItem item (item_annotations batch item) (preserved_for w item)
                           (attachment_keys batch !! key item)].
Proof.
  intros Hcalm Hp Hdb Hchg.
  destruct (sync_item_render_path item_data batch force item w Hcalm Hp)
    as (w' & Hrun & Hdb' & Hfiles & Hres & Hevs).
  { unfold goes_on. rewrite Hdb. tauto. }
  exists w'. split; [done|].
  rewrite Hdb', Hfiles, Hres, Hdb, !lookup_insert_eq.
  rewrite bool_decide_eq_true_2 by done. done.
Qed.

(** The skip path, when no call raises: processed and the annotation total
    move, nothing else. *)
Lemma sync_item_skip_path item_data batch item existing w :
  calm w ->
  parse_item item_data = Some item ->
  db_items (store w) !! key item = Some existing ->
  ~ (zotero_version (row_state existing) < version item) ->
  artifact_marker_count (files w !! citation_key item)
    = length (item_annotations batch item) ->
  exists w',
    _sync_single_item_batch item_data batch false w = (Ok tt, w')
    /\ result w' = passed_over (length (item_annotations batch item)) (result w).
Proof.
  intros Hcalm Hp Hdb Hv Hc. apply wp_ok_elim.
  unfold artifact_marker_count, item_annotations in *.
  unfold _sync_single_item_batch. wp_ok Hcalm.
  rewrite Hp. wp_ok Hcalm. rewrite Hdb. cbn [fmap option_fmap option_map].
  wp_ok Hcalm. rewrite bool_decide_eq_false_2 by done.
  destruct (nonempty (files w !! citation_key item)) as [content|].
  - wp_ok Hcalm. rewrite Hc, Nat.eqb_refl. cbn [negb andb]. by wp_ok Hcalm.
  - wp_ok Hcalm. rewrite <- Hc. cbn [Nat.ltb Nat.leb negb andb]. by wp_ok Hcalm.
Qed.

(** Whatever raises and whatever path is taken, one reconciliation moves the
    skipped counter only when the parse returned no item. *)
Lemma skipped_counts_missing_citation_key item_data batch force w :
  items_skipped (result (_sync_single_item_batch item_data batch force w).2)
  = match faults w (length (trace w)) (PItemFromApiResponse item_data),
          parse_item item_data with
    | None, None => S (items_skipped (result w))
    | _, _ => items_skipped (result w)
    end.
Proof.
  apply (wp_run (_sync_single_item_batch item_data batch force)
           (fun _ w' => items_skipped (result w')
              = match faults w (length (trace w)) (PItemFromApiResponse item_data),
                      parse_item item_data with
                | None, None => S (items_skipped (result w))
                | _, _ => items_skipped (result w)
                end)).
  unfold _sync_single_item_batch.
  destruct (faults w (length (trace w)) (PItemFromApiResponse item_data)) eqn:Hf;
    wp_steps; rewrite Hf; [done|].
  wp_steps. destruct (parse_item item_data) as [item|]; [|by wp_steps].
  wp_all ltac:(try done).
Qed.

(** C10: an item that has an Item State row and is skipped as unchanged
    increments the processed counter and adds its annotation count to the
    annotations-synced total, and leaves the created, updated and skipped
    counters alone; the skipped counter moves, in any reconciliation, only
    for a record whose parse returned no item (no derivable citation key). *)
Theorem skipped_unchanged_item_counters item_data batch item existing w :
  calm w ->
  parse_item item_data = Some item ->
  db_items (store w) !! key item = Some existing ->
  ~ (zotero_version (row_state existing) < version item) ->
  artifact_marker_count (files w !! citation_key item)
    = length (item_annotations batch item) ->
  (exists w',
     _sync_single_item_batch item_data batch false w = (Ok tt, w')
     /\ total_items_processed (result w') = S (total_items_processed (result w))
     /\ annotations_synced (result w')
        = (annotations_synced (result w) + length (item_annotations batch item))%nat
     /\ items_created (result w') = items_created (result w)
     /\ items_updated (result w') = items_updated (result w)
     /\ items_skipped (result w') = items_skipped (result w))
  /\ (forall raw b force v,
        items_skipped (result (_sync_single_item_batch raw b force v).2)
        <> items_skipped (result v) ->
        parse_item raw = None).
Proof.
  intros Hcalm Hp Hdb Hv Hc. split.
  - destruct (sync_item_skip_path item_data batch item existing w)
      as (w' & Hrun & Hres); [done..|].
    exists w'. by rewrite Hres.
  - intros raw b force v. rewrite skipped_counts_missing_citation_key.
    destruct (faults v _ _); [done|]. by destruct (parse_item raw).
Qed.

(** The per-item boundary never raises. *)
Lemma sync_item_guarded_total batch force item_data w :
  (sync_item_guarded batch force item_data w).1 = Ok tt.
Proof.
  unfold sync_item_guarded, try_except.
  by destruct (_sync_single_item_batch _ _ _ w) as [[[]|e] w1].
Qed.

(** A reconciliation that returns passes the boundary unchanged. *)
Lemma sync_item_guarded_ok batch force item_data w w' :
  _sync_single_item_batch item_data batch force w = (Ok tt, w') ->
  sync_item_guarded batch force item_data w = (Ok tt, w').
Proof. unfold sync_item_guarded, try_except. by intros ->. Qed.

End PerItem.


Lemma unchanged_item_is_skipped_witness :
  store (_sync_single_item_batch (collab := Demo.collaborators)
           Demo.itemA (Demo.batch 1) false (Demo.tracked 1 1)).2
  = store (Demo.tracked 1 1)
  /\ files (_sync_single_item_batch (collab := Demo.collaborators)
              Demo.itemA (Demo.batch 1) false (Demo.tracked 1 1)).2
     = files (Demo.tracked 1 1)
  /\ (exists evs,
        trace (_sync_single_item_batch (collab := Demo.collaborators)
                 Demo.itemA (Demo.batch 1) false (Demo.tracked 1 1)).2
        = evs ++ trace (Demo.tracked 1 1)
        /\ Forall (fun c => render_or_write c = false) evs)
  /\ (calm (Demo.tracked 1 1) ->
      (_sync_single_item_batch (collab := Demo.collaborators)
         Demo.itemA (Demo.batch 1) false (Demo.tracked 1 1)).1 = Ok tt).
Proof.
  apply (unchanged_item_is_skipped (collab := Demo.collaborators)
           Demo.itemA (Demo.batch 1) Demo.parsedA (Demo.rowA 1) (Demo.tracked 1 1)).
  - reflexivity.
  - vm_compute. reflexivity.
  - vm_compute. discriminate.
  - vm_compute. reflexivity.
Defined.

(** ** Runs in which no call raises *)

Lemma rwc_ret {A} (a : A) : returns_when_calm (mret a).
Proof. intros w _. by exists a. Qed.

Lemma rwc_gets {A} (f : World -> A) : returns_when_calm (gets f).
Proof. intros w _. by eexists. Qed.

Lemma rwc_modify f : returns_when_calm (modify f).
Proof. intros w _. by eexists. Qed.

Lemma rwc_call c : returns_when_calm (call c).
Proof. intros w Hc. exists tt. unfold call. by rewrite Hc. Qed.

Lemma rwc_bind {A B} (m : M A) (k : A -> M B) :
  emits (fun _ => True) m -> returns_when_calm m ->
  (forall a, returns_when_calm (k a)) -> returns_when_calm (m ≫= k).
Proof.
  intros He Hm Hk w Hc. rewrite bind_run.
  destruct (Hm w Hc) as [a Ha]. pose proof (emits_calm _ m w He Hc) as Hc'.
  destruct (m w) as [r w1]. cbn in Ha, Hc'. subst r. by apply Hk.
Qed.

Lemma rwc_try_except {A} (m : M A) h :
  returns_when_calm m -> returns_when_calm (try_except m h).
Proof.
  intros Hm w Hc. destruct (Hm w Hc) as [a Ha]. exists a.
  unfold try_except. destruct (m w) as [r w1]. cbn in Ha. by subst r.
Qed.

Lemma rwc_for_each {A} (body : A -> M unit) l :
  (forall x, emits (fun _ => True) (body x)) ->
  (forall x, returns_when_calm (body x)) ->
  returns_when_calm (for_each body l).
Proof.
  intros He Hb. induction l as [|x rest IH]; cbn [for_each].
  - apply rwc_ret.
  - apply rwc_bind; auto.
Qed.

Lemma rwc_foldM {A B} (body : B -> A -> M B) l acc :
  (forall acc x, emits (fun _ => True) (body acc x)) ->
  (forall acc x, returns_when_calm (body acc x)) ->
  returns_when_calm (foldM body l acc).
Proof.
  intros He Hb. revert acc. induction l as [|x rest IH]; intros acc; cbn [foldM].
  - apply rwc_ret.
  - apply rwc_bind; auto.
Qed.

(** What a calm run of a routine gives: a normal return into a calm world
    whose log extends the old one. *)
Lemma wp_calm {A} P (m : M A) w :
  emits P m -> returns_when_calm m -> calm w ->
  wp m (fun r w' => (exists a, r = Ok a) /\ calm w' /\ extends w w' /\ same_env w w') w.
Proof.
  intros He Hm Hc. unfold wp. split; [by apply Hm|].
  split; [by eapply emits_calm|]. split; [by eapply emits_extends|].
  apply He.
Qed.

Ltac rwc_step :=
  lazymatch goal with
  | |- returns_when_calm (mbind _ _) => apply rwc_bind; [| |intros ?]
  | |- returns_when_calm (mret _) => apply rwc_ret
  | |- returns_when_calm (gets _) => apply rwc_gets
  | |- returns_when_calm (modify _) => apply rwc_modify
  | |- returns_when_calm (call _) => apply rwc_call
  | |- returns_when_calm (try_except _ _) => apply rwc_try_except
  | |- returns_when_calm (for_each _ _) => apply rwc_for_each; intros ?
  | |- returns_when_calm (foldM _ _ _) => apply rwc_foldM; intros ? ?
  | |- returns_when_calm (match ?x with _ => _ end) => destruct x
  | |- returns_when_calm (if ?x then _ else _) => destruct x
  end.

Section Calm.

Context {collab : Collaborators}.

Lemma rwc_sync_item_guarded batch force item_data :
  returns_when_calm (sync_item_guarded batch force item_data).
Proof. intros w _. exists tt. apply sync_item_guarded_total. Qed.

Lemma rwc_build_batch_data sp : returns_when_calm (_build_batch_data sp).
Proof. intros w Hc. eexists. by rewrite build_batch_data_ok. Qed.


Lemma rwc_handle_deleted_item item_key :
  returns_when_calm (_handle_deleted_item item_key).
Proof. unfold _handle_deleted_item. unfold_ops. repeat first [rwc_step | emits_go]. Qed.

Lemma rwc_handle_removed_items : returns_when_calm _handle_removed_items.
Proof.
  unfold _handle_removed_items. unfold_ops.
  repeat lazymatch goal with
  | |- emits _ _ => emits_go
  | |- returns_when_calm (_handle_deleted_item _) => apply rwc_handle_deleted_item
  | |- _ => rwc_step
  end.
Qed.

End Calm.

(** ** Full Sync *)

(** Calmness of a world reached by logging and by updates of the store, the
    files or the result. *)
Ltac solve_calm Hcalm :=
  let m := fresh "m" in let c := fresh "c" in let Hm := fresh "Hm" in
  intros m c Hm; wsimpl; apply Hcalm;
  cbn [trace log logs set_result set_store set_files length] in Hm;
  rewrite ?length_app in Hm; cbn [length] in Hm; lia.

Lemma wp_ok_some_elim {A} (m : M A) (P : A -> World -> Prop) w :
  wp m (fun r w' => match r with Ok a => P a w' | Raise _ => False end) w ->
  exists a w', m w = (Ok a, w') /\ P a w'.
Proof. unfold wp. destruct (m w) as [[a|e] w']; cbn; [eauto|done]. Qed.

Section FullSync.

Context {collab : Collaborators}.

Lemma rendered_and_upserted_mono batch x w0 w1 w2 w3 :
  extends w0 w1 -> rendered_and_upserted batch x w1 w2 -> extends w2 w3 ->
  rendered_and_upserted batch x w0 w3.
Proof.
  intros H01 Hm H23 item Hp.
  destruct (Hm item Hp) as (st & pn & Hr & Hu & Hrest).
  exists st, pn. split; [by eapply emitted_since_mono|].
  split; [by eapply emitted_since_mono|done].
Qed.

(** One forced reconciliation behind the per-item boundary. *)
Lemma sync_item_guarded_forced batch item_data w :
  calm w ->
  exists w',
    sync_item_guarded batch true item_data w = (Ok tt, w')
    /\ calm w' /\ extends w w' /\ rendered_and_upserted batch item_data w w'.
Proof.
  intros Hcalm.
  pose proof (emits_sync_item_guarded batch true item_data) as He.
  exists (sync_item_guarded batch true item_data w).2.
  split; [|split; [by eapply emits_calm|split; [by eapply emits_extends|]]].
  { rewrite <- (sync_item_guarded_total batch true item_data w).
    by destruct (sync_item_guarded _ _ _ w). }
  intros item Hp.
  destruct (sync_item_render_path item_data batch true item w Hcalm Hp)
    as (w' & Hrun & _ & _ & _ & evs & Ht & Hf).
  { unfold goes_on. destruct (db_items _ !! _); auto. }
  rewrite (sync_item_guarded_ok _ _ _ _ _ Hrun). cbn [snd].
  exists (rendered_state batch item w), (preserved_for w item).
  assert (Hin : forall c, In c (List.filter render_or_write evs) -> In c evs).
  { intros c Hc. by apply filter_In in Hc as [? _]. }
  rewrite Hf in Hin.
  split; [|split]; [eapply emitted_since_here; [done|apply Hin; cbn; tauto]..|done].
Qed.

(** C5: Full Sync reconciles every fetched item with force-rerender set:
    when no call raises it returns normally, and for every fetched item with
    a derivable citation key a render call was made and its state row was
    upserted (active, at the item's version, with the raw payload cached),
    whatever the store held for the item before. *)
Theorem full_sync_rerenders_every_item sp w :
  calm w ->
  exists res w',
    full_sync sp w = (Ok res, w')
    /\ forall item_data,
         In item_data (zot_all_items (remote w)) ->
         rendered_and_upserted (batch_of (remote w)) item_data w w'.
Proof.
  intros Hcalm. apply wp_ok_some_elim.
  unfold full_sync. wp_ok Hcalm.
  eapply wp_of_eq; [apply build_batch_data_ok; solve_calm Hcalm|]. wsimpl.
  wp_step.
  match goal with |- wp _ _ ?W => set (w1 := W) end.
  assert (Hcalm1 : calm w1) by (subst w1; solve_calm Hcalm).
  assert (Hext1 : extends w w1).
  { subst w1. exists (prefetch_log (remote w) ++ [ZGetAllItems; ZGetLibraryVersion]).
    wsimpl. by rewrite <- app_assoc. }
  destruct (for_each_marks (sync_item_guarded (batch_of (remote w)) true)
              (fun _ v => calm v) (rendered_and_upserted (batch_of (remote w))))
    with (items := zot_all_items (remote w)) (w := w1)
    as (w2 & Hrun & Hcalm2 & Hext2 & Hall); [| |done|].
  { intros x rest v Hv. destruct (sync_item_guarded_forced (batch_of (remote w)) x v Hv)
      as (v' & ? & ? & ? & ?). by exists v'. }
  { intros. by eapply rendered_and_upserted_mono. }
  eapply wp_of_eq; [exact Hrun|]. cbn beta iota. wp_step.
  eapply wp_conseq;
    [apply (wp_calm _ _ w2 emits_handle_removed_items rwc_handle_removed_items Hcalm2)|].
  intros r w3 ([n ->] & Hcalm3 & Hext3 & _).
  wp_ok Hcalm3.
  intros item_data Hin.
  eapply rendered_and_upserted_mono; [exact Hext1|by apply Hall|].
  eapply extends_trans; [exact Hext3|]. eexists. wsimpl. solve_ext.
Qed.

End FullSync.

(** ** Mode selection of Incremental Sync *)

Section ModeSelection.

Context {collab : Collaborators}.

Lemma run_eq_intro {A} (m : M A) w (x : Res A * World) :
  wp m (fun r w' => (r, w') = x) w -> m w = x.
Proof. unfold wp. by destruct (m w). Qed.

Lemma wp_run_eq {A} (m : M A) w : wp m (fun r w' => (r, w') = m w) w.
Proof. unfold wp. by destruct (m w). Qed.

Lemma quiet_for_le k k' w : (k' <= k)%nat -> quiet_for k w -> quiet_for k' w.
Proof. intros Hle Hq n c Hn. apply Hq. lia. Qed.

Lemma mode_no_prior_version sp w :
  quiet_for 1 w ->
  db_last_library_version (store w) = None ->
  incremental_sync sp w = full_sync sp (log SGetLastLibraryVersion w).
Proof.
  intros Hq Hlast. apply run_eq_intro.
  unfold incremental_sync. wp_ok Hq. rewrite Hlast.
  eapply wp_conseq; [apply wp_run_eq|].
  intros [a|e] w' Heq; [|apply wp_raise]; rewrite Heq; reflexivity.
Qed.

Ltac delegate :=
  eapply wp_conseq; [apply wp_run_eq|];
  (let Heq := fresh "Heq" in
   intros [?|?] ? Heq; [|apply wp_raise]; rewrite Heq; reflexivity).

Lemma mode_template_changed sp w last :
  quiet_for 5 w ->
  db_last_library_version (store w) = Some last ->
  template_changed_in w = true ->
  incremental_sync sp w = _full_rerender_all_items sp (selected w).
Proof.
  intros Hq Hlast Htpl. apply run_eq_intro. unfold template_changed_in in Htpl.
  unfold incremental_sync. wp_ok Hq. rewrite Hlast. wp_ok Hq. rewrite Htpl.
  delegate.
Qed.

Lemma mode_nothing_to_do sp w last :
  quiet_for 5 w ->
  db_last_library_version (store w) = Some last ->
  template_changed_in w = false ->
  zot_library_version (remote w) = last ->
  incremental_sync sp w
  = (Ok SyncResult0, set_result (fun _ => SyncResult0) (selected w)).
Proof.
  intros Hq Hlast Htpl Hcur. apply run_eq_intro. unfold template_changed_in in Htpl.
  unfold incremental_sync. wp_ok Hq. rewrite Hlast. wp_ok Hq. rewrite Htpl.
  rewrite Hcur, Z.eqb_refl. by wp_ok Hq.
Qed.

Lemma mode_large_gap sp w last :
  quiet_for 5 w ->
  db_last_library_version (store w) = Some last ->
  template_changed_in w = false ->
  zot_library_version (remote w) - last > 1000 ->
  incremental_sync sp w = full_sync sp (selected w).
Proof.
  intros Hq Hlast Htpl Hgap. apply run_eq_intro. unfold template_changed_in in Htpl.
  unfold incremental_sync. wp_ok Hq. rewrite Hlast. wp_ok Hq. rewrite Htpl.
  replace (zot_library_version (remote w) =? last) with false
    by (symmetry; apply Z.eqb_neq; lia).
  replace (1000 <? zot_library_version (remote w) - last) with true
    by (symmetry; apply Z.ltb_lt; lia).
  delegate.
Qed.

(** Full Sync never asks for the items modified since a version. *)
Lemma full_sync_no_incremental_fetch sp w :
  exists evs, trace (full_sync sp w).2 = evs ++ trace w
              /\ Forall (fun c => incremental_fetch c = false) evs.
Proof.
  destruct (emits_full_sync sp w) as [_ (evs & Ht & Hf)].
  exists evs. split; [done|]. eapply Forall_impl; [exact Hf|]. by intros [].
Qed.

(** C2: the mode selection of Incremental Sync, when its reads do not
    raise, follows the decision table in order: without a recorded library
    version it is Full Sync; otherwise a changed template makes it Full
    Re-render; otherwise, when the remote library version equals the recorded
    one, it returns the empty Sync Result; otherwise, when the remote version
    exceeds the recorded one by more than 1000, it is Full Sync, and whatever
    happens then no incremental fetch is made. *)
Theorem incremental_sync_decision_table sp w :
  quiet_for 5 w ->
  match db_last_library_version (store w) with
  | None => incremental_sync sp w = full_sync sp (log SGetLastLibraryVersion w)
  | Some last =>
      if template_changed_in w
      then incremental_sync sp w = _full_rerender_all_items sp (selected w)
      else if bool_decide (zot_library_version (remote w) = last)
      then incremental_sync sp w
           = (Ok SyncResult0, set_result (fun _ => SyncResult0) (selected w))
      else if bool_decide (zot_library_version (remote w) - last > 1000)
      then incremental_sync sp w = full_sync sp (selected w)
           /\ exists evs, trace (incremental_sync sp w).2 = evs ++ trace w
                          /\ Forall (fun c => incremental_fetch c = false) evs
      else True
  end.
Proof.
  intros Hq.
  destruct (db_last_library_version (store w)) as [last|] eqn:Hlast.
  - destruct (template_changed_in w) eqn:Htpl.
    { by eapply mode_template_changed. }
    repeat case_bool_decide; [by eapply mode_nothing_to_do| |done].
    split; [by eapply mode_large_gap|].
    erewrite mode_large_gap by done.
    destruct (full_sync_no_incremental_fetch sp (selected w)) as (evs & Ht & Hf).
    exists (evs ++ [SGetTemplateVersion; RGetTemplatePathIdentifier; RGetTemplateHash;
                    ZGetLibraryVersion; SGetLastLibraryVersion]).
    rewrite Ht. cbn [selected logs trace]. rewrite <- app_assoc. split; [done|].
    apply Forall_app. split; [done|]. by repeat constructor.
  - apply mode_no_prior_version; [|done]. by eapply quiet_for_le; [|exact Hq]; lia.
Qed.

End ModeSelection.

(** ** Idempotence of Incremental Sync *)

Lemma wp_bind_any {A B} (m : M A) (k : A -> M B) (Q : Res B -> World -> Prop) w :
  (forall e w1, Q (Raise e) w1) ->
  (forall a w1, wp (k a) Q w1) ->
  wp (m ≫= k) Q w.
Proof. intros Hr Hk. apply wp_bind. unfold wp at 1. by destruct (m w).1. Qed.

Lemma wp_skip {A} (m : M A) (Q : Res A -> World -> Prop) w :
  (forall r w1, Q r w1) -> wp m Q w.
Proof. intros HQ. apply HQ. Qed.

Lemma wp_env {A} P (m : M A) (Q : Res A -> World -> Prop) w :
  emits P m ->
  (forall r w1, same_env w w1 -> Q r w1) ->
  wp m Q w.
Proof. intros He HQ. unfold wp. apply HQ. apply He. Qed.

Section Idempotence.

Context {collab : Collaborators}.

Lemma template_changed_in_recorded h p :
  has_template_changed h p (Some (mkTemplateVersion h p)) = false.
Proof. cbn. by rewrite !String.eqb_refl. Qed.

Lemma full_sync_template_settled sp w : wp (full_sync sp) template_settled w.
Proof.
  unfold full_sync. wp_step. wp_step. wp_step.
  do 7 (apply wp_bind_any; [done|intros ? ?]).
  wp_all ltac:(try done).
  unfold template_settled, template_changed_in. wsimpl.
  apply template_changed_in_recorded.
Qed.

Lemma emits_rerender_item_guarded sp batch item_state :
  emits (fun c => rerender_call c = true) (rerender_item_guarded sp batch item_state).
Proof. unfold rerender_item_guarded. emits_go. Qed.

Lemma full_rerender_template_settled sp w :
  wp (_full_rerender_all_items sp) template_settled w.
Proof.
  unfold _full_rerender_all_items, state_get_active_items.
  wp_all ltac:(try done).
  eapply wp_env; [apply emits_build_batch_data|]. intros [batch|e] w1 Hw1; [|done].
  apply wp_bind.
  eapply wp_env; [apply emits_for_each, emits_rerender_item_guarded|].
  intros [[]|e] w2 Hw2; [|done].
  wp_all ltac:(try done).
  unfold template_settled, template_changed_in. wsimpl.
  destruct Hw1 as (_ & Ht1 & _), Hw2 as (_ & Ht2 & _).
  rewrite Ht2, Ht1. wsimpl. apply template_changed_in_recorded.
Qed.

Lemma incremental_sync_template_settled sp w :
  wp (incremental_sync sp) template_settled w.
Proof.
  unfold incremental_sync. wp_step. wp_step. wp_step.
  wp_all ltac:(try done).
  - (* template changed: Full Re-render *)
    eapply wp_conseq; [apply full_rerender_template_settled|]. by intros [].
  - (* large gap: Full Sync *)
    eapply wp_conseq; [apply full_sync_template_settled|]. by intros [].
  - (* the delta path *)
    apply wp_skip. intros [batch|e] w1; [|done].
    do 4 (apply wp_bind_any; [done|intros ? ?]).
    wp_all ltac:(try done).
    unfold template_settled, template_changed_in. wsimpl.
    apply template_changed_in_recorded.
  - (* no prior version: Full Sync *)
    eapply wp_conseq; [apply full_sync_template_settled|]. by intros [].
Qed.

(** C9: after an Incremental Sync that returned normally and left the new
    library version recorded, a second Incremental Sync on the same remote
    library and template (its reads not raising) returns the empty Sync
    Result: created, updated and removed are zero, and neither the store's
    rows nor the artifacts change. *)
Theorem second_incremental_sync_is_empty sp sp' w res w1 :
  incremental_sync sp w = (Ok res, w1) ->
  db_last_library_version (store w1) = Some (zot_library_version (remote w1)) ->
  quiet_for 5 w1 ->
  exists res2 w2,
    incremental_sync sp' w1 = (Ok res2, w2)
    /\ items_created res2 = 0%nat
    /\ items_updated res2 = 0%nat
    /\ items_removed res2 = 0%nat
    /\ store w2 = store w1
    /\ files w2 = files w1.
Proof.
  intros Hrun Hver Hq.
  pose proof (incremental_sync_template_settled sp w) as Hset.
  unfold wp in Hset. rewrite Hrun in Hset. cbn in Hset.
  eexists _, _. split.
  - by eapply mode_nothing_to_do.
  - done.
Qed.

End Idempotence.

(** ** Full Re-render *)

Section Rerender.

Context {collab : Collaborators}.

(** One re-render when no call raises: the payload is the cached one, or
    the fetched one when the cache is empty; only the row of the item
    changes. *)
Lemma rerender_single_item_calm x batch v :
  calm v ->
  exists v',
    _rerender_single_item x batch v = (Ok tt, v')
    /\ (forall k, k <> zotero_key x ->
          db_items (store v') !! k = db_items (store v) !! k)
    /\ exists evs,
         trace v' = evs ++ trace v
         /\ Forall (fun c => forall k, c = ZItem k ->
                      k = zotero_key x
                      /\ db_items (store v) !! k ≫= row_json = None) evs
         /\ forall item,
              parse_item (payload_for v (zotero_key x)) = Some item ->
              exists preserved,
                In (RRenderItem item
                      (default [] (annotations_by_item batch !! zotero_key x))
                      preserved (attachment_keys batch !! zotero_key x)) evs.
Proof.
  intros Hcalm. apply wp_ok_elim. unfold payload_for.
  unfold _rerender_single_item. wp_ok Hcalm.
  destruct (db_items (store v) !! zotero_key x ≫= row_json) as [cached|] eqn:Hc;
    cbn [default].
  - wp_ok Hcalm.
    destruct (parse_item cached) as [item|] eqn:Hp.
    + wp_ok Hcalm.
      destruct (nonempty (files v !! is_citation_key x)) as [content|]; wp_ok Hcalm.
      all: split; [done|]; split;
        [intros k Hk; by rewrite lookup_insert_ne|].
      all: eexists; split; [solve_ext|]; split;
        [repeat (apply Forall_cons_2; [by intros k ?; simplify_eq|]); apply Forall_nil_2|].
      all: intros item' Heq; unfold id in Heq; rewrite ?Hp in Heq; simplify_eq;
        eexists; cbn [In]; eauto 10.
    + wp_ok Hcalm. split; [done|]. split; [done|].
      eexists; split; [solve_ext|]. split; [repeat (apply Forall_cons_2; [by intros k ?; simplify_eq|]); apply Forall_nil_2|].
      intros item Heq; unfold id in Heq; congruence.
  - wp_ok Hcalm.
    destruct (parse_item (zot_item (remote v) (zotero_key x))) as [item|] eqn:Hp.
    + wp_ok Hcalm.
      destruct (nonempty (files v !! is_citation_key x)) as [content|]; wp_ok Hcalm.
      all: split; [done|]; split;
        [intros k Hk; by rewrite lookup_insert_ne|].
      all: eexists; split; [solve_ext|]; split;
        [repeat (apply Forall_cons_2; [by intros k ?; simplify_eq|]); apply Forall_nil_2|].
      all: intros item' Heq; unfold id in Heq; rewrite ?Hp in Heq; simplify_eq;
        eexists; cbn [In]; eauto 10.
    + wp_ok Hcalm. split; [done|]. split; [done|].
      eexists; split; [solve_ext|]. split; [repeat (apply Forall_cons_2; [by intros k ?; simplify_eq|]); apply Forall_nil_2|].
      intros item Heq; unfold id in Heq; congruence.
Qed.

Lemma active_states_keys_nodup w :
  store_keyed w -> NoDup (zotero_key <$> active_states w).
Proof.
  intros Hk. unfold active_states.
  pose proof (NoDup_fst_map_to_list (db_items (store w))) as Hnd.
  assert (Hin : forall k r, (k, r) ∈ map_to_list (db_items (store w)) ->
                            zotero_key (row_state r) = k).
  { intros k r Hkr. apply Hk. by apply elem_of_map_to_list. }
  induction (map_to_list (db_items (store w))) as [|[k r] l IH]; [constructor|].
  cbn in Hnd |- *. apply NoDup_cons in Hnd as [Hk1 Hnd].
  assert (IH' := IH Hnd (fun k' r' H' => Hin k' r' (list_elem_of_further _ _ _ H'))).
  destruct (is_active r); [|done].
  cbn. apply NoDup_cons. split; [|done].
  rewrite (Hin k r) by left. intros Hmem. apply Hk1.
  apply list_elem_of_fmap in Hmem as (st & -> & Hst).
  apply list_elem_of_fmap in Hst as (r' & -> & Hr').
  apply list_elem_of_In, filter_In in Hr' as [Hr' _].
  apply list_elem_of_In, list_elem_of_fmap in Hr' as ([k' r''] & -> & Hpair).
  cbn. rewrite (Hin k' r'') by by right.
  apply list_elem_of_fmap. by exists (k', r'').
Qed.

Lemma active_states_complete w k row :
  db_items (store w) !! k = Some row -> is_active row = true ->
  In (row_state row) (active_states w).
Proof.
  intros Hrow Hact. unfold active_states.
  apply list_elem_of_In, list_elem_of_fmap. exists row. split; [done|].
  apply list_elem_of_In, filter_In. split; [|done].
  apply list_elem_of_In, list_elem_of_fmap. exists (k, row). split; [done|].
  by apply elem_of_map_to_list.
Qed.

Lemma rerendered_mono w batch k w0 w1 w2 w3 :
  extends w0 w1 -> rerendered w batch k w1 w2 -> extends w2 w3 ->
  rerendered w batch k w0 w3.
Proof.
  intros H01 Hm H23 item Hp. destruct (Hm item Hp) as [pn Hr].
  exists pn. by eapply emitted_since_mono.
Qed.

(** The invariant of the re-render loop over the items still to do: no
    call raises, the remote is the one of [w], the rows still to do are
    those of [w], and every single-item fetch so far was a fallback. *)
Lemma rerender_loop sp w batch :
  forall items v,
    calm v -> remote v = remote w ->
    (forall x, In x items ->
       db_items (store v) !! zotero_key x = db_items (store w) !! zotero_key x) ->
    NoDup (zotero_key <$> items) ->
    exists v',
      for_each (rerender_item_guarded sp batch) items v = (Ok tt, v')
      /\ calm v' /\ same_env v v'
      /\ (exists evs, trace v' = evs ++ trace v /\ Forall (fetch_is_fallback w) evs)
      /\ forall x, In x items -> rerendered w batch (zotero_key x) v v'.
Proof.
  induction items as [|x rest IH]; intros v Hcalm Hrem Hrows Hnd.
  - exists v. split; [done|]. split; [done|]. split; [apply same_env_refl|].
    split; [by exists []|]. intros ? [].
  - cbn in Hnd. apply NoDup_cons in Hnd as [Hx Hnd].
    destruct (rerender_single_item_calm x batch v Hcalm)
      as (v1 & Hrun & Hframe & evs1 & Ht1 & Hf1 & Hr1).
    assert (Hrun' : rerender_item_guarded sp batch x v = (Ok tt, v1)).
    { unfold rerender_item_guarded, try_except. by rewrite Hrun. }
    pose proof (emits_rerender_single_item x batch v) as [Henv1 _].
    rewrite Hrun in Henv1. cbn [snd] in Henv1.
    assert (Hcalm1 : calm v1).
    { eapply calm_step; [done..|]. by exists evs1. }
    destruct (IH v1 Hcalm1) as (v2 & Hrun2 & Hcalm2 & Henv2 & (evs2 & Ht2 & Hf2) & Hr2).
    { destruct Henv1 as [-> _]. done. }
    { intros y Hy. rewrite Hframe; [apply Hrows; by right|].
      intros Heq. apply Hx. rewrite <- Heq.
      apply list_elem_of_fmap. exists y. split; [done|]. by apply list_elem_of_In. }
    { done. }
    exists v2. cbn [for_each]. rewrite bind_run, Hrun'.
    split; [done|]. split; [done|]. split; [by eapply same_env_trans|].
    split.
    { exists (evs2 ++ evs1). rewrite Ht2, Ht1, app_assoc. split; [done|].
      apply Forall_app. split; [done|].
      eapply Forall_impl; [exact Hf1|].
      intros c Hc k ->. destruct (Hc k eq_refl) as [-> Hnone].
      rewrite <- Hrows by by left. done. }
    intros y [<-|Hy].
    + intros item Hp.
      destruct (Hr1 item) as [pn Hin].
      { unfold payload_for in *. rewrite Hrows by by left. by rewrite Hrem. }
      exists pn. exists (evs2 ++ evs1). rewrite Ht2, Ht1, app_assoc.
      split; [done|]. apply in_or_app. by right.
    + eapply rerendered_mono; [by exists evs1|by apply Hr2|apply extends_refl].
Qed.

Lemma prefetch_log_no_item_fetch w r : Forall (fetch_is_fallback w) (prefetch_log r).
Proof.
  unfold prefetch_log. apply Forall_app. split.
  - apply Forall_forall. intros c Hc k ->.
    apply list_elem_of_In, in_rev, in_map_iff in Hc as (? & [=] & _).
  - repeat (apply Forall_cons_2; [by intros k [=]|]). apply Forall_nil_2.
Qed.

Lemma calm_quiet k w : calm w -> quiet_for k w.
Proof. intros Hc n c [Hn _]. by apply Hc. Qed.

(** Full Re-render when no call raises. *)
Lemma full_rerender_calm sp w :
  calm w -> store_keyed w ->
  exists res w',
    _full_rerender_all_items sp w = (Ok res, w')
    /\ db_template_version (store w')
       = Some (mkTemplateVersion (template_hash (template w))
                                 (template_path (template w)))
    /\ (exists evs, trace w' = evs ++ trace w /\ Forall (fetch_is_fallback w) evs)
    /\ forall k row,
         db_items (store w) !! k = Some row -> is_active row = true ->
         rerendered w (batch_of (remote w)) k w w'.
Proof.
  intros Hcalm Hkeyed. apply wp_ok_some_elim.
  unfold _full_rerender_all_items. wp_ok Hcalm.
  eapply wp_of_eq; [apply build_batch_data_ok; solve_calm Hcalm|]. wsimpl.
  wp_step.
  match goal with |- wp _ _ ?W => set (w1 := W) end.
  assert (Hcalm1 : calm w1) by (subst w1; solve_calm Hcalm).
  destruct (rerender_loop sp w (batch_of (remote w)) (active_states w) w1)
    as (w2 & Hrun & Hcalm2 & Henv2 & (evs2 & Ht2 & Hf2) & Hall);
    [done|done|done|by apply active_states_keys_nodup|].
  eapply wp_of_eq; [exact Hrun|]. cbn beta iota.
  wp_ok Hcalm2.
  destruct Henv2 as (_ & Htpl & _). subst w1. wsimpl_all.
  split; [done|]. split.
  - exists ([SRecordTemplateVersion (template_hash (template w))
                                    (template_path (template w))]
            ++ evs2 ++ prefetch_log (remote w)
            ++ [SGetActiveItems; RGetTemplatePathIdentifier; RGetTemplateHash]).
    rewrite Ht2. cbn [app]. rewrite <- !app_assoc. split; [done|].
    apply Forall_cons_2; [by intros k [=]|].
    apply Forall_app. split; [done|].
    apply Forall_app. split; [apply prefetch_log_no_item_fetch|].
    repeat (apply Forall_cons_2; [by intros k [=]|]). apply Forall_nil_2.
  - intros k row Hrow Hact.
    pose proof (active_states_complete w k row Hrow Hact) as Hin.
    pose proof (Hall _ Hin) as Hr. rewrite (Hkeyed k row Hrow) in Hr.
    eapply rerendered_mono; [|exact Hr|].
    + exists (prefetch_log (remote w)
              ++ [SGetActiveItems; RGetTemplatePathIdentifier; RGetTemplateHash]).
      cbn [trace logs]. by rewrite <- app_assoc.
    + eexists. wsimpl. solve_ext.
Qed.

(** C6 (amended): when Incremental Sync detects a template change and no
    call raises, it makes no bulk fetch of item content (neither the item
    list nor the items modified since a version), and fetches a single item
    from the remote only for a row whose cached payload is empty; it
    re-renders every active Item State whose payload (the cached one, or the
    fetched one when the cache is empty) has a citation key, with the
    annotations and the attachment of the batch prefetch; and it records the
    new Template Version before it returns. *)
Theorem template_change_rerenders_active_items sp w last :
  calm w -> store_keyed w ->
  db_last_library_version (store w) = Some last ->
  template_changed_in w = true ->
  exists res w',
    incremental_sync sp w = (Ok res, w')
    /\ db_template_version (store w')
       = Some (mkTemplateVersion (template_hash (template w))
                                 (template_path (template w)))
    /\ (exists evs, trace w' = evs ++ trace w
                    /\ Forall (fun c => bulk_item_fetch c = false) evs
                    /\ Forall (fetch_is_fallback w) evs)
    /\ forall k row,
         db_items (store w) !! k = Some row -> is_active row = true ->
         rerendered w (batch_of (remote w)) k w w'.
Proof.
  intros Hcalm Hkeyed Hlast Htpl.
  rewrite (mode_template_changed sp w last) by (try done; by apply calm_quiet).
  destruct (full_rerender_calm sp (selected w)) as (res & w' & Hrun & Hrec & Hev & Hall).
  { unfold selected. solve_calm Hcalm. }
  { done. }
  exists res, w'. split; [done|]. split; [done|].
  destruct Hev as (evs & Ht & Hf).
  pose proof (emits_full_rerender_all_items sp (selected w)) as [_ (evs' & Ht' & Hf')].
  rewrite Hrun in Ht'. cbn [snd] in Ht'. rewrite Ht in Ht'.
  apply app_inv_tail in Ht'. subst evs'.
  split.
  - exists (evs ++ [SGetTemplateVersion; RGetTemplatePathIdentifier; RGetTemplateHash;
                    ZGetLibraryVersion; SGetLastLibraryVersion]).
    rewrite Ht. cbn [selected logs trace]. rewrite <- app_assoc. split; [done|].
    split; apply Forall_app; split.
    + eapply Forall_impl; [exact Hf'|]. by intros [].
    + by repeat constructor.
    + done.
    + repeat (apply Forall_cons_2; [by intros k [=]|]). apply Forall_nil_2.
  - intros k row Hrow Hact.
    eapply rerendered_mono; [|by eapply Hall|apply extends_refl].
    eexists. cbn [selected logs trace]. reflexivity.
Qed.

End Rerender.

(** ** Failures: caught per item, fatal for the run *)

Lemma emits_any {A} P (m : M A) : emits P m -> emits (fun _ => True) m.
Proof. apply emits_weaken. done. Qed.

Lemma aborts_quiet {A} P (m : M A) :
  emits (fun c => P c = false) m -> aborts_on P m.
Proof.
  intros He. split; [by eapply emits_any|].
  intros w pre c mid e Ht Hc _. destruct (He w) as [_ (evs & Ht' & Hf)].
  rewrite Ht' in Ht.
  replace (pre ++ c :: mid ++ trace w) with ((pre ++ c :: mid) ++ trace w) in Ht
    by (by rewrite <- app_assoc).
  apply app_inv_tail in Ht. subst evs.
  apply Forall_app in Hf as [_ Hf].
  apply Forall_cons in Hf as [Hf _]. congruence.
Qed.

Lemma aborts_ret {A} P (a : A) : aborts_on P (mret a).
Proof. apply aborts_quiet, emits_ret. Qed.

Lemma aborts_gets {A} P (f : World -> A) : aborts_on P (gets f).
Proof. apply aborts_quiet, emits_gets. Qed.

Lemma aborts_modify P f :
  (forall w, same_env w (f w) /\ trace (f w) = trace w) -> aborts_on P (modify f).
Proof. intros Hf. by apply aborts_quiet, emits_modify. Qed.

Lemma aborts_call P c : aborts_on P (call c).
Proof.
  split; [by apply emits_call|].
  intros w pre c' mid e Ht _ Hf. unfold call in *.
  assert (trace (log c w) = pre ++ c' :: mid ++ trace w) as Ht'.
  { by destruct (faults w (length (trace w)) c). }
  cbn [log trace] in Ht'.
  assert (pre = [] /\ c' = c /\ mid = []) as (-> & -> & ->).
  { assert (Hlen := f_equal length Ht'). rewrite length_app in Hlen.
    cbn [length] in Hlen. rewrite length_app in Hlen.
    destruct pre as [|? pre]; [|cbn in Hlen; lia].
    destruct mid as [|? mid]; [|cbn in Hlen; lia].
    cbn in Ht'. by simplify_eq. }
  cbn in Hf. by rewrite Hf.
Qed.

Lemma aborts_bind {A B} P (m : M A) (k : A -> M B) :
  aborts_on P m -> (forall a, aborts_on P (k a)) -> aborts_on P (m ≫= k).
Proof.
  intros [Hem Hm] Hk. split.
  { apply emits_bind; [done|]. intros a. apply Hk. }
  intros w pre c mid e Ht Hc Hf. rewrite bind_run in Ht |- *.
  destruct (Hem w) as [Henv (evs_m & Htm & _)].
  pose proof (Hm w) as Hmw.
  destruct (m w) as [[a|e'] w1] eqn:Hrun; cbn [fst snd] in *.
  - destruct (Hk a) as [Hek Hka].
    destruct (Hek w1) as [_ (evs_k & Htk & _)].
    rewrite Htk, Htm in Ht.
    replace (pre ++ c :: mid ++ trace w) with ((pre ++ c :: mid) ++ trace w) in Ht
      by (by rewrite <- app_assoc).
    rewrite app_assoc in Ht. apply app_inv_tail in Ht.
    apply app_eq_inv in Ht as [(k' & Hk1 & Hk2)|(k' & Hk1 & Hk2)].
    + destruct k' as [|c0 k'].
      * cbn in Hk2. subst evs_m.
        discriminate (Hmw [] c mid e); [by rewrite Htm|done..].
      * cbn in Hk2. injection Hk2 as <- ->.
        apply (Hka w1 pre c k' e); [|done|].
        -- rewrite Htk, Hk1, Htm. by rewrite <- app_assoc.
        -- destruct Henv as (_&_&_&->&_). by rewrite Htm, app_assoc.
    + subst evs_m. discriminate (Hmw k' c mid e); [|done..].
      rewrite Htm. by rewrite <- app_assoc.
  - specialize (Hmw pre c mid e Ht Hc Hf). by simplify_eq.
Qed.

Lemma aborts_reraise {A} P (m : M A) :
  aborts_on P m -> aborts_on P (try_except m (fun e => raise e)).
Proof.
  intros [He Hm]. split.
  - apply emits_try_except; [done|]. intros e. apply emits_raise.
  - intros w. rewrite try_except_reraise. apply Hm.
Qed.

Lemma aborts_for_each {A} P (body : A -> M unit) l :
  (forall x, aborts_on P (body x)) -> aborts_on P (for_each body l).
Proof.
  intros Hb. induction l as [|x rest IH]; cbn [for_each].
  - apply aborts_ret.
  - apply aborts_bind; auto.
Qed.

Lemma aborts_foldM {A B} P (body : B -> A -> M B) l acc :
  (forall acc x, aborts_on P (body acc x)) -> aborts_on P (foldM body l acc).
Proof.
  intros Hb. revert acc. induction l as [|x rest IH]; intros acc; cbn [foldM].
  - apply aborts_ret.
  - apply aborts_bind; auto.
Qed.

(** *** Fatal calls, the start of the deletions included *)

Lemma aborts_after_all {A} pfx (m : M A) :
  aborts_on (fun _ => true) m -> aborts_after pfx m.
Proof. intros [_ Hm] w pre c mid e Ht _ Hf. by eapply Hm. Qed.

Lemma not_started_existsb (l : list Call) :
  Forall (fun c => deletion_started c = false) l -> existsb deletion_started l = false.
Proof.
  induction 1 as [|c l Hc _ IH]; [done|]. cbn. by rewrite Hc, IH.
Qed.

Lemma aborts_after_quiet {A} pfx (m : M A) :
  Forall (fun c => deletion_started c = false) pfx ->
  emits (fun c => run_level_call c = false /\ deletion_started c = false) m ->
  aborts_after pfx m.
Proof.
  intros Hpfx He w pre c mid e Ht Hfatal _.
  destruct (He w) as [_ (evs & Ht' & Hf)].
  rewrite Ht' in Ht.
  replace (pre ++ c :: mid ++ trace w) with ((pre ++ c :: mid) ++ trace w) in Ht
    by (by rewrite <- app_assoc).
  apply app_inv_tail in Ht. subst evs.
  apply Forall_app in Hf as [_ Hf]. apply Forall_cons in Hf as [[Hc _] Hmid].
  unfold fatal in Hfatal. rewrite Hc, not_started_existsb in Hfatal; [done|].
  apply Forall_app. split; [|done].
  eapply Forall_impl; [exact Hmid|]. by intros ? [_ ?].
Qed.

Lemma aborts_after_bind {A B} pfx (m : M A) (k : A -> M B) :
  emits (fun c => deletion_started c = false) m ->
  aborts_after pfx m ->
  (forall a evs, Forall (fun c => deletion_started c = false) evs ->
                 emits (fun _ => True) (k a) /\ aborts_after (evs ++ pfx) (k a)) ->
  aborts_after pfx (m ≫= k).
Proof.
  intros Hem Hm Hk w pre c mid e Ht Hc Hf. rewrite bind_run in Ht |- *.
  destruct (Hem w) as [Henv (evs_m & Htm & Hfm)].
  pose proof (Hm w) as Hmw.
  destruct (m w) as [[a|e'] w1] eqn:Hrun; cbn [fst snd] in *.
  - destruct (Hk a evs_m Hfm) as [Hek Hka].
    destruct (Hek w1) as [_ (evs_k & Htk & _)].
    rewrite Htk, Htm in Ht.
    replace (pre ++ c :: mid ++ trace w) with ((pre ++ c :: mid) ++ trace w) in Ht
      by (by rewrite <- app_assoc).
    rewrite app_assoc in Ht. apply app_inv_tail in Ht.
    apply app_eq_inv in Ht as [(k' & Hk1 & Hk2)|(k' & Hk1 & Hk2)].
    + destruct k' as [|c0 k'].
      * cbn in Hk2. subst evs_m.
        discriminate (Hmw [] c mid e); [by rewrite Htm|done..].
      * cbn in Hk2. injection Hk2 as <- ->.
        apply (Hka w1 pre c k' e).
        -- rewrite Htk, Hk1, Htm. by rewrite <- app_assoc.
        -- by rewrite app_assoc.
        -- destruct Henv as (_&_&_&->&_). by rewrite Htm, app_assoc.
    + subst evs_m. discriminate (Hmw k' c mid e); [|done..].
      rewrite Htm. by rewrite <- app_assoc.
  - specialize (Hmw pre c mid e Ht Hc Hf). by simplify_eq.
Qed.

Lemma aborts_after_reraise {A} pfx (m : M A) :
  aborts_after pfx m -> aborts_after pfx (try_except m (fun e => raise e)).
Proof. intros Hm w. rewrite try_except_reraise. apply Hm. Qed.

Lemma aborts_after_for_each {A} (body : A -> M unit) l :
  (forall x, emits (fun c => run_level_call c = false /\ deletion_started c = false)
                   (body x)) ->
  forall pfx, Forall (fun c => deletion_started c = false) pfx ->
              aborts_after pfx (for_each body l).
Proof.
  intros Hb. induction l as [|x rest IH]; intros pfx Hpfx; cbn [for_each].
  - apply aborts_after_all, aborts_ret.
  - apply aborts_after_bind.
    + eapply emits_weaken; [|apply Hb]. by intros ? [_ ?].
    + by apply aborts_after_quiet.
    + intros [] evs Hevs. split.
      * apply emits_for_each. intros y. eapply emits_any, Hb.
      * apply IH. by apply Forall_app.
Qed.

Ltac aborts_step :=
  lazymatch goal with
  | |- aborts_on _ (mbind _ _) => apply aborts_bind; [|intros ?]
  | |- aborts_on _ (mret _) => apply aborts_ret
  | |- aborts_on _ (gets _) => apply aborts_gets
  | |- aborts_on _ (modify (set_result _)) => apply aborts_modify, set_result_env
  | |- aborts_on _ (modify (set_files _)) => apply aborts_modify, set_files_env
  | |- aborts_on _ (modify (set_store _)) =>
      apply aborts_modify; intros ?; apply set_store_env; solve_rows
  | |- aborts_on _ (modify (fun w => set_store _ w)) =>
      apply aborts_modify; intros ?; apply set_store_env; solve_rows
  | |- aborts_on _ (call _) => apply aborts_call
  | |- aborts_on _ (try_except _ (fun e => raise e)) => apply aborts_reraise
  | |- aborts_on _ (for_each _ _) => apply aborts_for_each; intros ?
  | |- aborts_on _ (foldM _ _ _) => apply aborts_foldM; intros ? ?
  | |- aborts_on _ (match ?x with _ => _ end) => destruct x
  | |- aborts_on _ (if ?x then _ else _) => destruct x
  end.

Ltac solve_in := cbn [In]; repeat first [by left | right].

Section Failures.

Context {collab : Collaborators}.

(** The reconciliation of a deletion has no handler: whichever of its
    calls raises, it raises. *)
Lemma aborts_handle_deleted_item P item_key :
  aborts_on P (_handle_deleted_item item_key).
Proof. unfold _handle_deleted_item. unfold_ops. repeat aborts_step. Qed.

Lemma aborts_build_batch_data P sp : aborts_on P (_build_batch_data sp).
Proof. unfold _build_batch_data, annotation_step. unfold_ops. repeat aborts_step. Qed.

Ltac emits_all :=
  unfold_ops;
  repeat lazymatch goal with
  | |- emits _ (full_sync _) => emits_sub emits_full_sync
  | |- emits _ (_full_rerender_all_items _) => emits_sub emits_full_rerender_all_items
  | |- emits _ _handle_removed_items => emits_sub emits_handle_removed_items
  | |- emits _ (rerender_item_guarded _ _ _) => emits_sub emits_rerender_item_guarded
  | |- _ => progress emits_go
  end.

Ltac aborts_all :=
  unfold_ops;
  repeat lazymatch goal with
  | |- aborts_on _ (_build_batch_data _) => apply aborts_build_batch_data
  | |- aborts_on _ (_handle_deleted_item _) => apply aborts_handle_deleted_item
  | |- _ => aborts_step
  end.

(** One bind before the deletions start: the first computation makes no
    call that starts them and raises whatever call of its own raises. *)
Ltac before_deletions Hpfx :=
  apply aborts_after_bind;
  [ emits_all
  | apply aborts_after_all; aborts_all
  | let Hnew := fresh "Hnew" in
    let Hboth := fresh "Hboth" in
    intros ? ? Hnew;
    pose proof (Forall_app_2 _ _ _ Hnew Hpfx) as Hboth;
    clear Hnew Hpfx; rename Hboth into Hpfx;
    split; [emits_all|] ].

Lemma aborts_all_handle_removed_items :
  aborts_on (fun _ => true) _handle_removed_items.
Proof. unfold _handle_removed_items. aborts_all. Qed.

Lemma aborts_after_full_sync sp pfx :
  Forall (fun c => deletion_started c = false) pfx ->
  aborts_after pfx (full_sync sp).
Proof.
  intros Hpfx. unfold full_sync.
  before_deletions Hpfx. apply aborts_after_reraise.
  before_deletions Hpfx. before_deletions Hpfx. before_deletions Hpfx.
  apply aborts_after_bind.
  - apply emits_for_each. intros x. emits_sub emits_sync_item_guarded.
  - apply aborts_after_for_each; [|done]. intros x.
    eapply emits_weaken; [|apply emits_sync_item_guarded]. by intros [].
  - intros [] evs' Hevs'. split; [emits_all|].
    apply aborts_after_all.
    apply aborts_bind; [apply aborts_all_handle_removed_items|]. intros n.
    aborts_all.
Qed.

Lemma aborts_after_full_rerender sp pfx :
  Forall (fun c => deletion_started c = false) pfx ->
  aborts_after pfx (_full_rerender_all_items sp).
Proof.
  intros Hpfx. unfold _full_rerender_all_items.
  do 5 before_deletions Hpfx.
  apply aborts_after_bind.
  - apply emits_for_each. intros x. emits_sub emits_rerender_item_guarded.
  - apply aborts_after_for_each; [|done]. intros x.
    eapply emits_weaken; [|apply emits_rerender_item_guarded]. by intros [].
  - intros [] evs' Hevs'. split; [emits_all|]. apply aborts_after_all. aborts_all.
Qed.

Lemma aborts_after_incremental_sync sp :
  aborts_after [] (incremental_sync sp).
Proof.
  assert (Hpfx : Forall (fun c => deletion_started c = false) []) by constructor.
  unfold incremental_sync.
  before_deletions Hpfx. apply aborts_after_reraise.
  before_deletions Hpfx.
  match goal with |- aborts_after _ (match ?x with _ => _ end) => destruct x end;
    [|by apply aborts_after_full_sync].
  do 4 before_deletions Hpfx.
  match goal with |- aborts_after _ (if ?x then _ else _) => destruct x end;
    [by apply aborts_after_full_rerender|].
  match goal with |- aborts_after _ (if ?x then _ else _) => destruct x end;
    [apply aborts_after_all; aborts_all|].
  match goal with |- aborts_after _ (if ?x then _ else _) => destruct x end;
    [by apply aborts_after_full_sync|].
  do 2 before_deletions Hpfx.
  apply aborts_after_bind.
  - apply emits_for_each. intros x. emits_sub emits_sync_item_guarded.
  - apply aborts_after_for_each; [|done]. intros x.
    eapply emits_weaken; [|apply emits_sync_item_guarded]. by intros [].
  - intros [] evs' Hevs'. split; [emits_all|]. apply aborts_after_all. aborts_all.
Qed.

(** Whatever raises, one reconciliation counts the item as processed and
    asks for its parse. *)
Lemma sync_single_item_attempted item_data batch force w :
  total_items_processed (result (_sync_single_item_batch item_data batch force w).2)
  = S (total_items_processed (result w))
  /\ emitted_since w (_sync_single_item_batch item_data batch force w).2
                   (PItemFromApiResponse item_data).
Proof.
  apply (wp_run (_sync_single_item_batch item_data batch force)
           (fun _ w' => total_items_processed (result w')
                        = S (total_items_processed (result w))
                        /\ emitted_since w w' (PItemFromApiResponse item_data))).
  unfold _sync_single_item_batch.
  wp_all ltac:(split; [reflexivity|eexists; split; [solve_ext|solve_in]]).
Qed.

Lemma sync_item_guarded_caught batch force item_data w e w1 :
  _sync_single_item_batch item_data batch force w = (Raise e, w1) ->
  exists w1',
    sync_item_guarded batch force item_data w = (Ok tt, w1')
    /\ errors (result w1') = errors (result w1) ++ [item_error_message item_data e]
    /\ store w1' = store w1 /\ files w1' = files w1 /\ trace w1' = trace w1.
Proof.
  intros Hrun. unfold sync_item_guarded, try_except. rewrite Hrun.
  eexists. split; [reflexivity|]. by repeat split.
Qed.

Lemma sync_item_guarded_attempted batch force item_data w :
  (sync_item_guarded batch force item_data w).1 = Ok tt
  /\ total_items_processed (result (sync_item_guarded batch force item_data w).2)
     = S (total_items_processed (result w))
  /\ emitted_since w (sync_item_guarded batch force item_data w).2
                   (PItemFromApiResponse item_data).
Proof.
  split; [apply sync_item_guarded_total|].
  destruct (sync_single_item_attempted item_data batch force w) as [Hn Hev].
  unfold sync_item_guarded, try_except.
  by destruct (_sync_single_item_batch item_data batch force w) as [[[]|e] w1].
Qed.

(** The fan-out never raises, counts every item as processed and starts
    the reconciliation of every item, whatever raises in between. *)
Lemma fan_out_attempts_every_item batch force items : forall w,
  (for_each (sync_item_guarded batch force) items w).1 = Ok tt
  /\ total_items_processed (result (for_each (sync_item_guarded batch force) items w).2)
     = (total_items_processed (result w) + length items)%nat
  /\ forall x, In x items ->
       emitted_since w (for_each (sync_item_guarded batch force) items w).2
                     (PItemFromApiResponse x).
Proof.
  induction items as [|x rest IH]; intros w.
  - cbn. split; [done|]. split; [lia|]. intros ? [].
  - cbn [for_each]. rewrite bind_run.
    destruct (sync_item_guarded_attempted batch force x w) as (Hok & Hn & Hev).
    destruct (sync_item_guarded batch force x w) as [r w1]. cbn [fst snd] in *.
    subst r. destruct (IH w1) as (Hok' & Hn' & Hev').
    split; [done|]. split; [rewrite Hn', Hn; cbn [length]; lia|].
    pose proof (emits_extends _ _ w1 (emits_for_each _ _ rest
                  (emits_sync_item_guarded batch force))) as Hext.
    intros y [<-|Hy].
    + eapply emitted_since_mono; [apply extends_refl|exact Hev|exact Hext].
    + eapply emitted_since_mono; [|by apply Hev'|apply extends_refl].
      destruct Hev as (evs & Ht & _). by exists evs.
Qed.

End Failures.

(** ** Deletion reconciliation *)

Section Deletion.

Context {collab : Collaborators}.

(** A key without Item State row: the deletion is a no-op that returns
    [False]; nothing but the log changes. *)
Lemma handle_deleted_item_untracked item_key w :
  quiet_for 1 w ->
  db_items (store w) !! item_key = None ->
  _handle_deleted_item item_key w = (Ok false, log (SGetItemState item_key) w).
Proof.
  intros Hq Hrow. apply run_eq_intro. unfold _handle_deleted_item.
  wp_ok Hq. rewrite Hrow. by wp_ok Hq.
Qed.

(** A tracked key: the artifact is handed to the file layer, the row is
    marked removed, and the deletion returns [True]. *)
Lemma handle_deleted_item_tracked item_key row w :
  calm w ->
  db_items (store w) !! item_key = Some row ->
  exists w',
    _handle_deleted_item item_key w = (Ok true, w')
    /\ db_items (store w') = alter mark_removed item_key (db_items (store w))
    /\ files w' = delete (is_citation_key (row_state row)) (files w)
    /\ result w' = result w
    /\ trace w' = [SMarkItemRemoved item_key;
                   FHandleRemovedItem (is_citation_key (row_state row));
                   SGetItemState item_key] ++ trace w.
Proof.
  intros Hcalm Hrow. apply wp_ok_elim. unfold _handle_deleted_item.
  wp_ok Hcalm. rewrite Hrow. cbn [fmap option_fmap option_map]. by wp_ok Hcalm.
Qed.

(** The loop of the incremental path over the reported deletions counts
    every key, tracked or not. *)
Lemma incremental_deletion_loop_counts_all keys : forall w,
  calm w ->
  exists w',
    for_each (fun item_key => _handle_deleted_item item_key ;; set_items_removed S)
             keys w = (Ok tt, w')
    /\ items_removed (result w') = (items_removed (result w) + length keys)%nat.
Proof.
  induction keys as [|k rest IH]; intros w Hcalm.
  - exists w. split; [done|]. cbn. lia.
  - cbn [for_each]. rewrite !bind_run.
    pose proof (emits_calm _ _ w (emits_handle_deleted_item k) Hcalm) as Hcalm1.
    assert (exists b w1, _handle_deleted_item k w = (Ok b, w1)
                         /\ result w1 = result w) as (b & w1 & Hrun & Hres).
    { destruct (db_items (store w) !! k) as [row|] eqn:Hrow.
      - destruct (handle_deleted_item_tracked k row w Hcalm Hrow)
          as (w1 & Hrun & _ & _ & Hres & _).
        by exists true, w1.
      - exists false, (log (SGetItemState k) w). split; [|done].
        apply handle_deleted_item_untracked; [by apply calm_quiet|done]. }
    rewrite Hrun in Hcalm1 |- *. cbn [snd] in Hcalm1.
    unfold set_items_removed at 1. cbn [modify].
    match goal with
    | |- context [for_each _ rest ?W] => destruct (IH W) as (w' & Hrun' & Hn)
    end.
    { intros m c Hm. apply Hcalm1. exact Hm. }
    exists w'. split; [exact Hrun'|]. rewrite Hn. cbn [result set_result items_removed].
    rewrite Hres. cbn [length]. lia.
Qed.

End Deletion.

(** ** The statements at the concrete library *)

Lemma calm_demo r s t f c res : calm (mkWorld r s t f c (fun _ _ => None) [] res).
Proof. intros m k _. reflexivity. Qed.

Lemma changed_item_is_updated_once_witness :
  exists w',
    _sync_single_item_batch (collab := Demo.collaborators)
      Demo.itemA (Demo.batch 3) false (Demo.tracked 2 3) = (Ok tt, w')
    /\ items_updated (result w') = 1%nat
    /\ items_created (result w') = 0%nat
    /\ annotations_synced (result w') = 3%nat.
Proof.
  destruct (changed_item_is_updated_once (collab := Demo.collaborators)
              Demo.itemA (Demo.batch 3) false Demo.parsedA (Demo.rowA 2)
              (Demo.tracked 2 3))
    as (w' & Hrun & _ & _ & Hres & _).
  - apply calm_demo.
  - reflexivity.
  - vm_compute. reflexivity.
  - right. vm_compute. discriminate.
  - exists w'. split; [exact Hrun|]. rewrite Hres. by vm_compute.
Defined.

Lemma skipped_unchanged_item_counters_witness :
  exists w',
    _sync_single_item_batch (collab := Demo.collaborators)
      Demo.itemA (Demo.batch 1) false (Demo.tracked 1 1) = (Ok tt, w')
    /\ total_items_processed (result w') = 1%nat
    /\ annotations_synced (result w') = 1%nat
    /\ items_created (result w') = 0%nat
    /\ items_updated (result w') = 0%nat
    /\ items_skipped (result w') = 0%nat.
Proof.
  destruct (skipped_unchanged_item_counters (collab := Demo.collaborators)
              Demo.itemA (Demo.batch 1) Demo.parsedA (Demo.rowA 1)
              (Demo.tracked 1 1))
    as [(w' & Hrun & Hp & Ha & Hc & Hu & Hs) _].
  - apply calm_demo.
  - reflexivity.
  - vm_compute. reflexivity.
  - vm_compute. discriminate.
  - vm_compute. reflexivity.
  - exists w'. split; [exact Hrun|]. rewrite Hp, Ha, Hc, Hu, Hs. by vm_compute.
Defined.

Lemma full_sync_rerenders_every_item_witness :
  exists res w',
    full_sync (collab := Demo.collaborators) true (Demo.tracked 1 1) = (Ok res, w')
    /\ rendered_and_upserted (collab := Demo.collaborators)
         (Demo.batch 1) Demo.itemA (Demo.tracked 1 1) w'.
Proof.
  destruct (full_sync_rerenders_every_item (collab := Demo.collaborators)
              true (Demo.tracked 1 1) (calm_demo _ _ _ _ _ _))
    as (res & w' & Hrun & Hall).
  exists res, w'. split; [exact Hrun|]. apply Hall. by left.
Defined.

Lemma incremental_sync_decision_table_witness :
  incremental_sync (collab := Demo.collaborators) true Demo.stale
  = full_sync (collab := Demo.collaborators) true (selected Demo.stale)
  /\ exists evs,
       trace (incremental_sync (collab := Demo.collaborators) true Demo.stale).2
       = evs ++ trace Demo.stale
       /\ Forall (fun c => incremental_fetch c = false) evs.
Proof.
  assert (Hq : quiet_for 5 Demo.stale) by (intros n c _; reflexivity).
  exact (incremental_sync_decision_table (collab := Demo.collaborators)
           true Demo.stale Hq).
Defined.

Lemma second_incremental_sync_is_empty_witness :
  exists res2 w2,
    incremental_sync (collab := Demo.collaborators) true
      (incremental_sync (collab := Demo.collaborators) true Demo.fresh).2
    = (Ok res2, w2)
    /\ items_created res2 = 0%nat
    /\ items_updated res2 = 0%nat
    /\ items_removed res2 = 0%nat.
Proof.
  destruct (second_incremental_sync_is_empty (collab := Demo.collaborators)
              true true Demo.fresh
              (mkSyncResult 1 1 0 1 0 1 [])
              (incremental_sync (collab := Demo.collaborators) true Demo.fresh).2)
    as (res2 & w2 & Hrun & Hc & Hu & Hr & _).
  - vm_compute. reflexivity.
  - vm_compute. reflexivity.
  - intros n c _. reflexivity.
  - exists res2, w2. by repeat split.
Defined.

Lemma store_keyed_uncached : store_keyed Demo.uncached.
Proof.
  intros k row Hrow. cbn in Hrow.
  apply lookup_singleton_Some in Hrow as [<- <-]. reflexivity.
Qed.

Lemma template_change_rerenders_active_items_witness :
  exists res w',
    incremental_sync (collab := Demo.collaborators) true Demo.uncached = (Ok res, w')
    /\ db_template_version (store w') = Some Demo.builtin
    /\ rerendered (collab := Demo.collaborators) Demo.uncached (Demo.batch 1) "A"
         Demo.uncached w'.
Proof.
  destruct (template_change_rerenders_active_items (collab := Demo.collaborators)
              true Demo.uncached 10)
    as (res & w' & Hrun & Hrec & _ & Hall).
  - apply calm_demo.
  - apply store_keyed_uncached.
  - reflexivity.
  - reflexivity.
  - exists res, w'. split; [exact Hrun|]. split; [exact Hrec|].
    apply (Hall "A" (mkItemRow (row_state (Demo.rowA 1)) None)); reflexivity.
Defined.

(** C6 as stated fails: a row without cached payload is re-rendered from a
    fetch of the item from the remote. *)
Lemma template_change_fetches_uncached_item :
  template_changed_in Demo.uncached = true
  /\ exists res w',
       incremental_sync (collab := Demo.collaborators) true Demo.uncached = (Ok res, w')
       /\ items_updated res = 1%nat
       /\ In (ZItem "A") (trace w').
Proof.
  split; [reflexivity|]. eexists _, _. split; [vm_compute; reflexivity|].
  split; [reflexivity|]. cbn. tauto.
Qed.

(** C4 at a reported deletion of a key that was never tracked: the
    incremental path counts it as removed. *)
Lemma untracked_deletion_is_counted_as_removed :
  db_items (store Demo.fresh) !! "GHOST" = None
  /\ zot_deleted_since (remote Demo.fresh) 10 = ["GHOST"]
  /\ exists res w',
       incremental_sync (collab := Demo.collaborators) true Demo.fresh = (Ok res, w')
       /\ items_removed res = 1%nat
       /\ errors res = []
       /\ db_items (store w') !! "GHOST" = None.
Proof.
  split; [reflexivity|]. split; [reflexivity|].
  eexists _, _. split; [vm_compute; reflexivity|]. by vm_compute.
Qed.

(** * The rest of the engine *)

(** ** Template change detection *)

(** X17: [has_template_changed] reports a change exactly when a template version
    is stored and its fingerprint or its path differs from the current one;
    without a stored version it reports none. *)
Theorem template_changed_iff_differs h p stored :
  has_template_changed h p stored = true
  <-> exists tv, stored = Some tv /\ (template_hash tv <> h \/ template_path tv <> p).
Proof.
  destruct stored as [tv|]; cbn.
  - destruct (String.eqb_spec (template_hash tv) h) as [Hh|Hh]; cbn.
    + destruct (String.eqb_spec (template_path tv) p) as [Hp|Hp]; cbn.
      * split; [done|]. intros (tv' & [= <-] & [?|?]); done.
      * split; [|done]. intros _. exists tv. auto.
    + split; [|done]. intros _. exists tv. auto.
  - split; [done|]. by intros (? & ? & _).
Qed.

(** ** The prefetch index *)

Section MorePrefetch.

Context {collab : Collaborators}.

(** X2: the attachment-to-parent index maps an attachment key to the parent of
    the last attachment of the raw list that carries this key (with a
    non-empty key and a non-empty parent), PDF or not. *)
Theorem attachment_to_parent_is_last_parent ak l :
  (attachment_loop l).1 !! ak
  = last (List.filter (keyed_child ak) l) ≫= att_parentItem.
Proof.
  induction l as [|a l IH] using rev_ind; [done|].
  rewrite attachment_loop_snoc, List.filter_app. cbn [List.filter].
  unfold attachment_step, keyed_child at 2, nonempty.
  destruct (PyStr.truthy (att_key a)) eqn:Hk;
    [|destruct (att_key a); cbn [andb]; by rewrite app_nil_r].
  destruct (PyStr.truthy (att_parentItem a)) eqn:Hp;
    [|destruct (att_key a), (att_parentItem a); cbn [andb]; by rewrite app_nil_r].
  destruct (att_key a) as [k|] eqn:Hak; [|done].
  destruct (att_parentItem a) as [pk|] eqn:Hpk; [|done].
  cbn [andb fst]. case_bool_decide as Heq.
  - simplify_eq. rewrite last_snoc. cbn. by rewrite Hpk, lookup_insert_eq.
  - rewrite app_nil_r, lookup_insert_ne; [done|congruence].
Qed.

Lemma annotation_loop_snoc a2p l ad acc :
  fold_left (annotation_step_pure a2p) (l ++ [ad]) acc
  = annotation_step_pure a2p (fold_left (annotation_step_pure a2p) l acc) ad.
Proof. by rewrite fold_left_app. Qed.

(** The annotation index groups the annotations by parent item, in the
    order of the raw list; a parent without annotation has no entry. *)
Lemma annotation_loop_lookup a2p p l :
  fold_left (annotation_step_pure a2p) l ∅ !! p
  = match annotations_of a2p p l with
    | [] => None
    | x :: rest => Some (x :: rest)
    end.
Proof.
  induction l as [|ad l IH] using rev_ind; [done|].
  rewrite annotation_loop_snoc. unfold annotations_of in *.
  rewrite map_app, List.filter_app. cbn [map List.filter].
  set (m := fold_left (annotation_step_pure a2p) l ∅) in *.
  unfold annotation_step_pure, filed_under at 2.
  destruct (nonempty (parent_key (parse_annotation ad) ≫= _)) as [pik|] eqn:Hpik.
  - case_bool_decide as Heq.
    + simplify_eq. rewrite lookup_insert_eq, IH.
      by destruct (List.filter _ _).
    + rewrite lookup_insert_ne by congruence. by rewrite IH, app_nil_r.
  - rewrite bool_decide_eq_false_2 by done. by rewrite IH, app_nil_r.
Qed.

(** X1: when no call raises, [_build_batch_data] returns an annotation index
    that holds, for every parent item, the annotations whose attachment the
    attachment-to-parent index maps to this parent, in the order of the raw
    annotation list; an annotation of an unknown attachment is dropped, and a
    parent without annotation is absent from the index, never mapped to an
    empty list. *)
Theorem batch_annotations_grouped_in_order sp w :
  calm w ->
  exists batch w',
    _build_batch_data sp w = (Ok batch, w')
    /\ forall p,
         annotations_by_item batch !! p
         = match annotations_of (attachment_loop (zot_all_attachments (remote w))).1 p
                   (zot_all_annotations (remote w)) with
           | [] => None
           | x :: rest => Some (x :: rest)
           end.
Proof.
  intros Hcalm. eexists _, _. split; [by apply build_batch_data_ok|].
  intros p. cbn [annotations_by_item batch_of]. apply annotation_loop_lookup.
Qed.

(** X3: whatever raises, a per-item reconciliation and the whole fan-out
    over the items make no request to the Zotero client. *)
Theorem fan_out_makes_no_remote_call batch force items w :
  exists evs,
    trace (for_each (sync_item_guarded batch force) items w).2 = evs ++ trace w
    /\ Forall (fun c => zotero_call c = false) evs.
Proof.
  destruct (emits_for_each _ _ items (emits_sync_item_guarded batch force) w)
    as [_ (evs & Ht & Hf)].
  exists evs. split; [done|]. eapply Forall_impl; [exact Hf|]. by intros [].
Qed.

Lemma constructor_calls_are_local (l : list RawAnnotation) :
  List.filter zotero_call (rev (map PAnnotationFromApiResponse l)) = [].
Proof.
  induction l as [|a l IH]; [done|].
  cbn [map rev]. by rewrite List.filter_app, IH.
Qed.

(** X4: when no call raises, the prefetch leaves store, artifacts and
    result alone and logs exactly two requests to the Zotero client, however
    many annotations and attachments the library has. *)
Theorem prefetch_makes_two_requests sp w :
  calm w ->
  exists batch,
    _build_batch_data sp w = (Ok batch, logs (prefetch_log (remote w)) w)
    /\ List.filter zotero_call (prefetch_log (remote w))
       = [ZGetAllAttachments; ZGetAllAnnotations].
Proof.
  intros Hcalm. eexists. split; [by apply build_batch_data_ok|].
  unfold prefetch_log. by rewrite List.filter_app, constructor_calls_are_local.
Qed.

End MorePrefetch.

(** ** What a run leaves alone *)

Lemma frames_ret {X A} (f : World -> X) (a : A) : frames f (mret a).
Proof. done. Qed.

Lemma frames_raise {X A} (f : World -> X) e : frames f (@raise A e).
Proof. done. Qed.

Lemma frames_gets {X A} (f : World -> X) (g : World -> A) : frames f (gets g).
Proof. done. Qed.

Lemma frames_modify {X} (f : World -> X) g :
  (forall w, f (g w) = f w) -> frames f (modify g).
Proof. intros Hg w. apply Hg. Qed.

Lemma frames_call {X} (f : World -> X) c :
  (forall w, f (log c w) = f w) -> frames f (call c).
Proof. intros Hf w. unfold call. destruct (faults w _ c); apply Hf. Qed.

Lemma frames_bind {X A B} (f : World -> X) (m : M A) (k : A -> M B) :
  frames f m -> (forall a, frames f (k a)) -> frames f (m ≫= k).
Proof.
  intros Hm Hk w. rewrite bind_run. specialize (Hm w).
  destruct (m w) as [[a|e] w1]; cbn [snd] in *; [|done].
  by rewrite Hk.
Qed.

Lemma frames_try_except {X A} (f : World -> X) (m : M A) h :
  frames f m -> (forall e, frames f (h e)) -> frames f (try_except m h).
Proof.
  intros Hm Hh w. unfold try_except. specialize (Hm w).
  destruct (m w) as [[a|e] w1]; cbn [snd] in *; [done|].
  by rewrite Hh.
Qed.

Lemma frames_for_each {X A} (f : World -> X) (body : A -> M unit) l :
  (forall x, frames f (body x)) -> frames f (for_each body l).
Proof.
  intros Hb. induction l as [|x rest IH]; cbn [for_each].
  - apply frames_ret.
  - apply frames_bind; auto.
Qed.

Lemma frames_foldM {X A B} (f : World -> X) (body : B -> A -> M B) l acc :
  (forall acc x, frames f (body acc x)) -> frames f (foldM body l acc).
Proof.
  intros Hb. revert acc. induction l as [|x rest IH]; intros acc; cbn [foldM].
  - apply frames_ret.
  - apply frames_bind; auto.
Qed.

Ltac frames_step :=
  lazymatch goal with
  | |- frames _ (mbind _ _) => apply frames_bind; [|intros ?]
  | |- frames _ (mret _) => apply frames_ret
  | |- frames _ (raise _) => apply frames_raise
  | |- frames _ (gets _) => apply frames_gets
  | |- frames _ (modify _) => apply frames_modify; intros ?; reflexivity
  | |- frames _ (call _) => apply frames_call; intros ?; reflexivity
  | |- frames _ (try_except _ _) => apply frames_try_except; [|intros ?]
  | |- frames _ (for_each _ _) => apply frames_for_each; intros ?
  | |- frames _ (foldM _ _ _) => apply frames_foldM; intros ? ?
  | |- frames _ (match ?x with _ => _ end) => destruct x
  | |- frames _ (if ?x then _ else _) => destruct x
  end.

Ltac frames_go := unfold_ops; repeat frames_step.

Lemma wp_post {A} (m : M A) (Phi : World -> Prop) (Q : Res A -> World -> Prop) w :
  Phi (m w).2 -> (forall r w1, Phi w1 -> Q r w1) -> wp m Q w.
Proof. intros HP HQ. apply HQ, HP. Qed.

Section Frames.

Context {collab : Collaborators}.

(** The prefetch and the reconciliation of deletions never touch the Sync
    Result. *)
Lemma frames_result_build_batch_data sp : frames result (_build_batch_data sp).
Proof. unfold _build_batch_data, annotation_step. frames_go. Qed.

Lemma frames_result_handle_deleted_item k : frames result (_handle_deleted_item k).
Proof. unfold _handle_deleted_item. frames_go. Qed.

Lemma frames_result_handle_removed_items : frames result _handle_removed_items.
Proof.
  unfold _handle_removed_items. unfold_ops.
  repeat lazymatch goal with
  | |- frames _ (_handle_deleted_item _) => apply frames_result_handle_deleted_item
  | |- _ => frames_step
  end.
Qed.

End Frames.

(** ** Accounting of a run *)

Section Accounting.

Context {collab : Collaborators}.

(** Closes a leaf of the accounting of one item. *)
Ltac account_leaf :=
  try (match goal with
       | H : (_ && _)%bool = true |- _ => cbn in H; discriminate H
       end);
  unfold settled; cbn; rewrite ?length_app; cbn;
  repeat split;
  first [ lia
        | by intros; first [lia | discriminate]
        | by exists []; rewrite app_nil_r
        | by eexists ].

(** Whatever raises, one item behind the per-item boundary is counted as
    processed and settles at most once: as created, updated or skipped, or
    with one error text; under force-rerender it always settles. *)
Lemma sync_item_guarded_accounts batch force item_data w :
  let w' := (sync_item_guarded batch force item_data w).2 in
  total_items_processed (result w') = S (total_items_processed (result w))
  /\ items_removed (result w') = items_removed (result w)
  /\ (settled (result w) <= settled (result w') <= S (settled (result w)))%nat
  /\ (force = true -> settled (result w') = S (settled (result w)))
  /\ exists msgs, errors (result w') = errors (result w) ++ msgs.
Proof.
  cbv zeta.
  apply (wp_run (sync_item_guarded batch force item_data)
           (fun _ w' =>
              total_items_processed (result w') = S (total_items_processed (result w))
              /\ items_removed (result w') = items_removed (result w)
              /\ (settled (result w) <= settled (result w') <= S (settled (result w)))%nat
              /\ (force = true -> settled (result w') = S (settled (result w)))
              /\ exists msgs, errors (result w') = errors (result w) ++ msgs)).
  unfold sync_item_guarded, _sync_single_item_batch.
  destruct force; wp_all ltac:(account_leaf).
Qed.

(** The fan-out: every item is processed, at most as many are settled, and
    under force-rerender all of them are. *)
Lemma fan_out_accounts batch force items : forall w,
  let w' := (for_each (sync_item_guarded batch force) items w).2 in
  total_items_processed (result w')
  = (total_items_processed (result w) + length items)%nat
  /\ items_removed (result w') = items_removed (result w)
  /\ (settled (result w) <= settled (result w') <= settled (result w) + length items)%nat
  /\ (force = true -> settled (result w') = (settled (result w) + length items)%nat)
  /\ exists msgs, errors (result w') = errors (result w) ++ msgs.
Proof.
  induction items as [|x rest IH]; intros w; cbv zeta.
  - cbn. repeat split; try lia. by exists []; rewrite app_nil_r.
  - cbn [for_each]. rewrite bind_run.
    pose proof (sync_item_guarded_accounts batch force x w) as Hx.
    pose proof (sync_item_guarded_total batch force x w) as Hok.
    destruct (sync_item_guarded batch force x w) as [r w1]. cbn [fst snd] in *.
    subst r. cbv zeta in Hx. destruct Hx as (Hp & Hr & Hs & Hf & msgs & He).
    destruct (IH w1) as (Hp' & Hr' & Hs' & Hf' & msgs' & He').
    cbn [length]. repeat split; try lia.
    + intros ->. rewrite Hf', Hf by done. lia.
    + exists (msgs ++ msgs'). by rewrite He', He, app_assoc.
Qed.

End Accounting.

Section FullSyncOutcome.

Context {collab : Collaborators}.

(** What a Full Sync that returns has done, whatever was caught on the
    way. *)
Lemma full_sync_outcome sp w :
  wp (full_sync sp)
     (fun r w' =>
        match r with
        | Ok res =>
            total_items_processed res = length (zot_all_items (remote w))
            /\ settled res = length (zot_all_items (remote w))
            /\ db_last_library_version (store w')
               = Some (zot_library_version (remote w))
            /\ db_last_full_sync (store w') = Some (clock w)
            /\ db_template_version (store w')
               = Some (mkTemplateVersion (template_hash (template w))
                                         (template_path (template w)))
        | Raise _ => True
        end) w.
Proof.
  unfold full_sync. wp_all ltac:(try done).
  match goal with |- wp _ _ ?W => set (w0 := W) end.
  eapply (wp_post _ (fun w1 => same_env w0 w1 /\ result w1 = result w0)).
  { split; [apply emits_build_batch_data|apply frames_result_build_batch_data]. }
  intros [batch|e] w1 [Henv1 Hres1]; [|done]. apply wp_bind.
  eapply (wp_post _ (fun w2 =>
            same_env w1 w2
            /\ total_items_processed (result w2)
               = (total_items_processed (result w1)
                  + length (zot_all_items (remote w)))%nat
            /\ settled (result w2)
               = (settled (result w1) + length (zot_all_items (remote w)))%nat)).
  { pose proof (fan_out_accounts batch true (zot_all_items (remote w)) w1) as Hfan.
    cbv zeta in Hfan. destruct Hfan as (Hp & _ & _ & Hs & _).
    split; [apply (emits_for_each _ _ _ (emits_sync_item_guarded batch true))|].
    split; [done|by apply Hs]. }
  intros [[]|e] w2 (Henv2 & Hp2 & Hs2); [|done]. apply wp_bind.
  eapply (wp_post _ (fun w3 => same_env w2 w3 /\ result w3 = result w2)).
  { split; [apply emits_handle_removed_items|apply frames_result_handle_removed_items]. }
  intros [n|e] w3 [Henv3 Hres3]; [|done].
  wp_all ltac:(try done).
  pose proof (same_env_trans _ _ _ Henv1 (same_env_trans _ _ _ Henv2 Henv3))
    as (_ & Htpl & Hclock & _).
  subst w0. wsimpl_all. cbn [total_items_processed].
  rewrite Hres3, Htpl, Hclock. wsimpl. unfold settled in *. cbn.
  rewrite Hres1 in Hp2, Hs2. cbn in Hp2, Hs2.
  repeat split; [lia|lia].
Qed.

End FullSyncOutcome.


(** ** What the entry points commit *)

Ltac emits_whole :=
  unfold_ops;
  repeat lazymatch goal with
  | |- emits _ (full_sync _) => emits_sub emits_full_sync
  | |- emits _ (_full_rerender_all_items _) => emits_sub emits_full_rerender_all_items
  | |- emits _ _handle_removed_items => emits_sub emits_handle_removed_items
  | |- emits _ (rerender_item_guarded _ _ _) => emits_sub emits_rerender_item_guarded
  | |- _ => progress emits_go
  end.

Ltac rwc_go :=
  unfold_ops;
  repeat lazymatch goal with
  | |- emits _ _ => emits_whole
  | |- returns_when_calm (sync_item_guarded _ _ _) => apply rwc_sync_item_guarded
  | |- returns_when_calm (_build_batch_data _) => apply rwc_build_batch_data
  | |- returns_when_calm (_handle_deleted_item _) => apply rwc_handle_deleted_item
  | |- returns_when_calm _handle_removed_items => apply rwc_handle_removed_items
  | |- _ => rwc_step
  end.

Section Commit.

Context {collab : Collaborators}.

Lemma rwc_full_sync sp : returns_when_calm (full_sync sp).
Proof. unfold full_sync. rwc_go. Qed.

Lemma rwc_rerender_item_guarded sp batch x :
  returns_when_calm (rerender_item_guarded sp batch x).
Proof.
  intros w Hcalm. exists tt.
  destruct (rerender_single_item_calm x batch w Hcalm) as (w' & Hrun & _).
  unfold rerender_item_guarded, try_except. by rewrite Hrun.
Qed.

Lemma rwc_full_rerender_all_items sp : returns_when_calm (_full_rerender_all_items sp).
Proof.
  unfold _full_rerender_all_items. unfold_ops.
  repeat lazymatch goal with
  | |- emits _ _ => emits_whole
  | |- returns_when_calm (rerender_item_guarded _ _ _) =>
      apply rwc_rerender_item_guarded
  | |- returns_when_calm (_build_batch_data _) => apply rwc_build_batch_data
  | |- _ => rwc_step
  end.
Qed.

Lemma rwc_incremental_sync sp : returns_when_calm (incremental_sync sp).
Proof.
  unfold incremental_sync. unfold_ops.
  repeat lazymatch goal with
  | |- emits _ _ => emits_whole
  | |- returns_when_calm (full_sync _) => apply rwc_full_sync
  | |- returns_when_calm (_full_rerender_all_items _) =>
      apply rwc_full_rerender_all_items
  | |- returns_when_calm (sync_item_guarded _ _ _) => apply rwc_sync_item_guarded
  | |- returns_when_calm (_build_batch_data _) => apply rwc_build_batch_data
  | |- returns_when_calm (_handle_deleted_item _) => apply rwc_handle_deleted_item
  | |- _ => rwc_step
  end.
Qed.

(** What an Incremental Sync that returns has recorded, unless it was a
    Full Re-render. *)
Lemma incremental_sync_outcome sp w :
  wp (incremental_sync sp)
     (fun r w' =>
        match r with
        | Ok _ =>
            db_last_library_version (store w) = None \/ template_changed_in w = false ->
            db_last_library_version (store w')
            = Some (zot_library_version (remote w))
        | Raise _ => True
        end) w.
Proof.
  unfold incremental_sync. wp_step. wp_step. wp_step.
  wp_all ltac:(try done).
  - (* template changed: excluded *)
    apply wp_skip. intros [res|e] w1; [|done].
    unfold template_changed_in. intros [?|?]; congruence.
  - (* nothing to do *)
    intros _. match goal with H : (_ =? _) = true |- _ => apply Z.eqb_eq in H end.
    congruence.
  - (* large gap: Full Sync *)
    eapply wp_conseq; [apply full_sync_outcome|].
    intros [res|e] w1; [|done]. by intros (_ & _ & ? & _) _.
  - (* the delta path *)
    apply wp_skip. intros [batch|e] w1; [|done].
    do 3 (apply wp_bind_any; [done|intros ? ?]).
    wp_all ltac:(try done).
  - (* no prior version: Full Sync *)
    eapply wp_conseq; [apply full_sync_outcome|].
    intros [res|e] w1; [|done]. by intros (_ & _ & ? & _) _.
Qed.

Lemma rwc_elim {A} (m : M A) w :
  returns_when_calm m -> calm w -> exists a w', m w = (Ok a, w').
Proof.
  intros Hm Hcalm. destruct (Hm w Hcalm) as [a Ha].
  exists a, (m w).2. rewrite <- Ha. by destruct (m w).
Qed.

(** X5: Full Sync returns when no call raises; and whenever it returns,
    whatever raised and was caught on the way, it has processed every
    fetched item and settled each of them exactly once: processed = created
    + updated + skipped + number of error texts = number of fetched items. *)
Theorem full_sync_accounts_for_every_item sp w :
  (calm w -> exists res w', full_sync sp w = (Ok res, w'))
  /\ forall res w',
       full_sync sp w = (Ok res, w') ->
       total_items_processed res = length (zot_all_items (remote w))
       /\ (items_created res + items_updated res + items_skipped res
           + length (errors res))%nat = total_items_processed res.
Proof.
  split; [apply rwc_elim, rwc_full_sync|].
  intros res w' Hrun. pose proof (full_sync_outcome sp w) as Hout.
  unfold wp in Hout. rewrite Hrun in Hout. cbn [fst snd] in Hout.
  destruct Hout as (Hp & Hs & _). split; [done|]. unfold settled in Hs. lia.
Qed.

(** X6: whenever Full Sync returns, also after failures of single items, it
    has recorded the library version it read from the remote at its start,
    the time of the full sync, and the fingerprint and path of the
    renderer's template. *)
Theorem full_sync_commits sp w res w' :
  full_sync sp w = (Ok res, w') ->
  db_last_library_version (store w') = Some (zot_library_version (remote w))
  /\ db_last_full_sync (store w') = Some (clock w)
  /\ db_template_version (store w')
     = Some (mkTemplateVersion (template_hash (template w))
                               (template_path (template w))).
Proof.
  intros Hrun. pose proof (full_sync_outcome sp w) as Hout.
  unfold wp in Hout. rewrite Hrun in Hout. cbn [fst snd] in Hout.
  by destruct Hout as (_ & _ & ? & ? & ?).
Qed.

(** X7: Incremental Sync returns when no call raises; and whenever it
    returns from a run that is not a Full Re-render (no recorded version, or
    an unchanged template), the recorded library version is the remote one,
    so that the next Incremental Sync on the same remote library, its reads
    not raising, returns the empty Sync Result and changes neither store nor
    artifacts. *)
Theorem incremental_sync_commits_and_settles sp sp' w :
  (calm w -> exists res w', incremental_sync sp w = (Ok res, w'))
  /\ forall res w',
       incremental_sync sp w = (Ok res, w') ->
       db_last_library_version (store w) = None \/ template_changed_in w = false ->
       db_last_library_version (store w') = Some (zot_library_version (remote w))
       /\ remote w' = remote w
       /\ (quiet_for 5 w' ->
           incremental_sync sp' w'
           = (Ok SyncResult0, set_result (fun _ => SyncResult0) (selected w'))).
Proof.
  split; [apply rwc_elim, rwc_incremental_sync|].
  intros res w' Hrun Hmode.
  pose proof (incremental_sync_outcome sp w) as Hout.
  pose proof (incremental_sync_template_settled sp w) as Hset.
  pose proof (emits_incremental_sync sp w) as [(Hrem & _) _].
  unfold wp in Hout, Hset. rewrite Hrun in Hout, Hset, Hrem. cbn [fst snd] in *.
  specialize (Hout Hmode). split; [done|]. split; [done|].
  intros Hq. eapply mode_nothing_to_do; [done..|]. by rewrite Hrem.
Qed.

(** The store's run-level counters. *)
Lemma frames_counters_full_rerender sp :
  frames (fun w => (db_last_library_version (store w), db_last_full_sync (store w),
                    db_last_incremental_sync (store w)))
         (_full_rerender_all_items sp).
Proof.
  unfold _full_rerender_all_items, rerender_item_guarded, _rerender_single_item,
    _build_batch_data, annotation_step.
  frames_go.
Qed.

(** X8: an Incremental Sync that takes the Full Re-render path never
    advances the recorded library version nor the sync timestamps, whatever
    raises: remote changes made since the recorded version are still pending
    for the next run. *)
Theorem template_change_run_keeps_recorded_version sp w last :
  quiet_for 5 w ->
  db_last_library_version (store w) = Some last ->
  template_changed_in w = true ->
  db_last_library_version (store (incremental_sync sp w).2) = Some last
  /\ db_last_full_sync (store (incremental_sync sp w).2) = db_last_full_sync (store w)
  /\ db_last_incremental_sync (store (incremental_sync sp w).2)
     = db_last_incremental_sync (store w).
Proof.
  intros Hq Hlast Htpl. rewrite (mode_template_changed sp w last) by done.
  pose proof (frames_counters_full_rerender sp (selected w)) as Hf.
  cbn [selected logs store] in Hf. injection Hf as -> -> ->. done.
Qed.

End Commit.

(** ** Removal of items that left the library *)

Section Removed.

Context {collab : Collaborators}.

Lemma mark_removed_idemp r : mark_removed (mark_removed r) = mark_removed r.
Proof. done. Qed.

Lemma mark_removed_not_active r : is_active (mark_removed r) = false.
Proof. done. Qed.

(** The loop over the removed keys, all of them tracked. *)
Lemma removal_loop (ks : list string) : forall n v,
  calm v ->
  (forall k, k ∈ ks -> is_Some (db_items (store v) !! k)) ->
  exists v',
    foldM (fun removed_count item_key =>
             moved ← _handle_deleted_item item_key;
             mret (if moved : bool then S removed_count else removed_count))
          ks n v
    = (Ok (n + length ks)%nat, v')
    /\ calm v' /\ remote v' = remote v /\ result v' = result v
    /\ forall k, db_items (store v') !! k
                 = if decide (k ∈ ks) then mark_removed <$> db_items (store v) !! k
                   else db_items (store v) !! k.
Proof.
  induction ks as [|k rest IH]; intros n v Hcalm Hrows.
  - exists v. cbn. rewrite Nat.add_0_r. by repeat split.
  - destruct (Hrows k) as [row Hrow]; [by left|].
    destruct (handle_deleted_item_tracked k row v Hcalm Hrow)
      as (v1 & Hrun & Hdb & _ & Hres & Ht).
    pose proof (emits_handle_deleted_item k v) as [Henv _].
    rewrite Hrun in Henv. cbn [snd] in Henv.
    assert (Hcalm1 : calm v1).
    { eapply calm_step; [done..|]. eexists. exact Ht. }
    destruct (IH (S n) v1 Hcalm1) as (v' & Hrun' & Hcalm' & Hrem' & Hres' & Hdb').
    { intros j Hj. rewrite Hdb. destruct (decide (j = k)) as [->|Hne].
      - rewrite lookup_alter_eq, Hrow. by eexists.
      - rewrite lookup_alter_ne by done. apply Hrows. by right. }
    exists v'. cbn [foldM]. rewrite !bind_run, Hrun. cbn [mret M_ret].
    rewrite Hrun'. cbn [length].
    replace (n + S (length rest))%nat with (S n + length rest)%nat by lia.
    split; [done|]. split; [done|].
    split; [rewrite Hrem'; by destruct Henv as [-> _]|].
    split; [congruence|].
    intros j. rewrite Hdb', Hdb.
    destruct (decide (j = k)) as [->|Hne].
    + rewrite lookup_alter_eq. rewrite (decide_True (P := k ∈ k :: rest)) by left.
      destruct (decide (k ∈ rest)); [|done].
      rewrite <- option_fmap_compose. by destruct (db_items (store v) !! k).
    + rewrite lookup_alter_ne by done.
      destruct (decide (j ∈ rest)) as [Hin|Hnin].
      * by rewrite (decide_True (P := j ∈ k :: rest)) by by right.
      * rewrite (decide_False (P := j ∈ k :: rest)); [done|].
        intros [?|?]%elem_of_cons; congruence.
Qed.

Lemma gone_keys_tracked w k :
  k ∈ gone_keys w ->
  exists row, db_items (store w) !! k = Some row /\ is_active row = true
              /\ k ∉ (list_to_set (omap raw_key (zot_all_items (remote w))) : gset string).
Proof.
  unfold gone_keys. intros [Hdom Hnot]%elem_of_difference.
  apply elem_of_dom in Hdom as [row Hrow].
  apply map_lookup_filter_Some in Hrow as [Hrow Hact]. eauto.
Qed.

Lemma gone_keys_intro w k row :
  db_items (store w) !! k = Some row -> is_active row = true ->
  k ∉ (list_to_set (omap raw_key (zot_all_items (remote w))) : gset string) ->
  k ∈ gone_keys w.
Proof.
  intros Hrow Hact Hnot. unfold gone_keys. apply elem_of_difference. split; [|done].
  apply elem_of_dom. exists row. by apply map_lookup_filter_Some.
Qed.

(** The removal pass when no call raises. *)
Lemma removed_items_pass w :
  calm w ->
  exists w',
    _handle_removed_items w = (Ok (size (gone_keys w)), w')
    /\ (forall k, db_items (store w') !! k
                  = rows_marked (gone_keys w) (db_items (store w)) k)
    /\ result w' = result w
    /\ remote w' = remote w
    /\ calm w'.
Proof.
  intros Hcalm.
  apply wp_ok_elim. unfold _handle_removed_items. wp_ok Hcalm.
  change (dom _ ∖ _) with (gone_keys w).
  destruct (decide (gone_keys w = ∅)) as [Hempty|Hne].
  - wp_step. rewrite Hempty. split; [done|].
    split; [intros k; unfold rows_marked; by rewrite decide_False by set_solver|].
    split; [done|]. split; [done|]. solve_calm Hcalm.
  - match goal with |- wp _ _ ?W => set (w1 := W) end.
    destruct (removal_loop (elements (gone_keys w)) 0 w1)
      as (w2 & Hrun & Hc2 & Hr2 & Hs2 & Hd2).
    { subst w1. solve_calm Hcalm. }
    { intros k Hk%elem_of_elements.
      destruct (gone_keys_tracked w k Hk) as (row & Hrow & _). by exists row. }
    eapply wp_of_eq; [exact Hrun|]. cbn [plus].
    split; [done|]. split; [|by rewrite Hr2, Hs2].
    intros k. rewrite Hd2. unfold rows_marked. subst w1. wsimpl.
    destruct (decide (k ∈ elements (gone_keys w))) as [Hin|Hnin].
    + by rewrite decide_True by by apply elem_of_elements.
    + rewrite decide_False; [done|]. by rewrite <- elem_of_elements.
Qed.

(** A row that is active after the gone keys were marked belongs to a key
    of the remote item list. *)
Lemma active_after_marking w (rows : gmap string ItemRow) k row :
  (forall j, rows !! j = rows_marked (gone_keys w) (db_items (store w)) j) ->
  rows !! k = Some row -> is_active row = true ->
  k ∈ (list_to_set (omap raw_key (zot_all_items (remote w))) : gset string).
Proof.
  intros Hdb Hrow Hact. rewrite Hdb in Hrow. unfold rows_marked in Hrow.
  destruct (decide (k ∈ gone_keys w)) as [Hin|Hnin].
  - destruct (db_items (store w) !! k) as [row0|]; [|done].
    cbn in Hrow. by simplify_eq.
  - destruct (decide (k ∈ (list_to_set (omap raw_key (zot_all_items (remote w)))
                           : gset string))) as [|Hnot]; [done|].
    exfalso. apply Hnin. by eapply gone_keys_intro.
Qed.

(** X9: when no call raises, [_handle_removed_items] returns the number of
    keys that are tracked as active and are not a key of the current remote
    item list; exactly the rows of these keys are marked removed (no row is
    deleted, no other row changes), the Sync Result is untouched, and
    afterwards no such key is left, so that a second pass removes nothing. *)
Theorem handle_removed_items_marks_gone_keys w :
  calm w ->
  exists w',
    _handle_removed_items w = (Ok (size (gone_keys w)), w')
    /\ (forall k, db_items (store w') !! k
                  = rows_marked (gone_keys w) (db_items (store w)) k)
    /\ result w' = result w
    /\ remote w' = remote w
    /\ calm w'
    /\ gone_keys w' = ∅.
Proof.
  intros Hcalm.
  destruct (removed_items_pass w Hcalm) as (w' & Hrun & Hdb & Hres & Hrem & Hcalm').
  exists w'. split; [done|]. repeat (split; [done|]).
  apply set_eq. intros k. split; [|set_solver].
  intros Hk. exfalso.
  destruct (gone_keys_tracked w' k Hk) as (row & Hrow & Hact & Hnot).
  apply Hnot. rewrite Hrem. by eapply active_after_marking.
Qed.

End Removed.

(** ** What one item writes *)

Section Rows.

Context {collab : Collaborators}.

(** X10: when no call raises, a re-render of the row [x] whose payload has
    a citation key rewrites the artifact filed under the citation key of the
    row (not the one of the parsed item), keeps key, citation key, type,
    version, path and status of the row, renews its timestamp and content
    fingerprint, caches the payload, and counts the item as updated and as
    nothing else; a payload without citation key is passed over without a
    trace in store, artifacts or Sync Result. *)
Theorem rerender_keeps_row_identity x batch v :
  calm v ->
  exists v',
    _rerender_single_item x batch v = (Ok tt, v')
    /\ match parse_item (payload_for v (zotero_key x)) with
       | Some item =>
           db_items (store v')
           = <[zotero_key x := mkItemRow (rerender_state x batch item v)
                                          (Some (payload_for v (zotero_key x)))]>
               (db_items (store v))
           /\ files v'
              = <[is_citation_key x := rerender_markdown x batch item v]> (files v)
           /\ result v' = one_more_updated (result v)
       | None =>
           store v' = store v /\ files v' = files v /\ result v' = result v
       end.
Proof.
  intros Hcalm. apply wp_ok_elim. unfold payload_for, rerender_state, rerender_markdown.
  unfold _rerender_single_item. wp_ok Hcalm.
  destruct (db_items (store v) !! zotero_key x ≫= row_json) as [cached|] eqn:Hc;
    cbn [default]; unfold id.
  - wp_ok Hcalm.
    destruct (parse_item cached) as [item|] eqn:Hp; [|by wp_ok Hcalm].
    wp_ok Hcalm.
    destruct (nonempty (files v !! is_citation_key x)) as [content|]; wp_ok Hcalm.
    all: by rewrite lookup_insert_eq.
  - wp_ok Hcalm.
    destruct (parse_item (zot_item (remote v) (zotero_key x))) as [item|] eqn:Hp;
      [|by wp_ok Hcalm].
    wp_ok Hcalm.
    destruct (nonempty (files v !! is_citation_key x)) as [content|]; wp_ok Hcalm.
    all: by rewrite lookup_insert_eq.
Qed.

(** X11: when no call raises, an item without Item State row is rendered
    without preserved notes and counted as created, forced or not; the
    artifact filed under its citation key is overwritten without being read:
    the run makes exactly six calls, none of them a read of the artifact or
    an extraction of a section. *)
Theorem new_item_is_created_without_reading item_data batch force item w :
  calm w ->
  parse_item item_data = Some item ->
  db_items (store w) !! key item = None ->
  let markdown := render item (item_annotations batch item) None
                         (attachment_keys batch !! key item) in
  let state := mkItemState (key item) (citation_key item) (item_type item)
                           (version item) (markdown_path (citation_key item))
                           (clock w) active (hash_text markdown) in
  exists w',
    _sync_single_item_batch item_data batch force w = (Ok tt, w')
    /\ db_items (store w')
       = <[key item := mkItemRow state (Some item_data)]> (db_items (store w))
    /\ files w' = <[citation_key item := markdown]> (files w)
    /\ result w' = counted false (length (item_annotations batch item)) (result w)
    /\ trace w'
       = [SUpsertItem state (Some item_data);
          FGetContentHash (citation_key item);
          FWriteMarkdown (citation_key item) markdown;
          RRenderItem item (item_annotations batch item) None
                      (attachment_keys batch !! key item);
          SGetItemState (key item);
          PItemFromApiResponse item_data] ++ trace w.
Proof.
  intros Hcalm Hp Hrow. cbv zeta. apply wp_ok_elim. unfold item_annotations.
  unfold _sync_single_item_batch. wp_ok Hcalm. rewrite Hp. wp_ok Hcalm.
  rewrite Hrow. cbn [fmap option_fmap option_map]. wp_ok Hcalm.
  by rewrite lookup_insert_eq.
Qed.

(** An item without citation key, when no call raises: nothing is stored or
    written. *)
Lemma sync_item_unparsed item_data batch force w :
  calm w ->
  parse_item item_data = None ->
  exists w',
    _sync_single_item_batch item_data batch force w = (Ok tt, w')
    /\ store w' = store w /\ files w' = files w.
Proof.
  intros Hcalm Hp. apply wp_ok_elim.
  unfold _sync_single_item_batch. wp_ok Hcalm. rewrite Hp. wp_ok Hcalm.
  by destruct (store w).
Qed.

End Rows.

(** ** The delta path of Incremental Sync *)

Section Delta.

Context {collab : Collaborators}.

(** Whatever raises, a deletion loop that returns has counted every
    reported key as removed, and nothing else. *)
Lemma deletion_loop_accounts keys : forall w,
  wp (for_each (fun item_key => _handle_deleted_item item_key ;; set_items_removed S)
               keys)
     (fun r w' =>
        match r with
        | Ok _ =>
            items_removed (result w') = (items_removed (result w) + length keys)%nat
            /\ total_items_processed (result w') = total_items_processed (result w)
            /\ settled (result w') = settled (result w)
            /\ same_env w w'
        | Raise _ => True
        end) w.
Proof.
  induction keys as [|k rest IH]; intros w.
  - unfold wp. cbn. repeat split; try lia. set_solver.
  - cbn [for_each]. apply wp_bind. apply wp_bind.
    eapply (wp_post _ (fun w1 => same_env w w1 /\ result w1 = result w)).
    { split; [apply (emits_handle_deleted_item k)
             |apply frames_result_handle_deleted_item]. }
    intros [b|e] w1 [Henv Hres]; [|done]. unfold set_items_removed. wp_step.
    eapply wp_conseq; [apply IH|].
    intros [[]|e] w2; [|done]. wsimpl. rewrite Hres. unfold settled. cbn.
    intros (? & ? & ? & Henv2). do 3 (split; [lia|]).
    eapply same_env_trans; [exact Henv|].
    eapply same_env_trans; [|exact Henv2]. apply set_result_env.
Qed.

(** What an Incremental Sync that returns from the delta path reports. *)
Lemma incremental_delta_outcome sp w :
  wp (incremental_sync sp)
     (fun r w' =>
        match r with
        | Ok res =>
            forall last,
              db_last_library_version (store w) = Some last ->
              template_changed_in w = false ->
              zot_library_version (remote w) <> last ->
              zot_library_version (remote w) - last <= 1000 ->
              total_items_processed res = length (zot_items_since (remote w) last)
              /\ items_removed res = length (zot_deleted_since (remote w) last)
              /\ (settled res <= total_items_processed res)%nat
              /\ db_last_incremental_sync (store w') = Some (clock w)
        | Raise _ => True
        end) w.
Proof.
  unfold incremental_sync. wp_step. wp_step. wp_step.
  wp_all ltac:(try done).
  - (* template changed: excluded *)
    apply wp_skip. intros [res|e] w1; [|done].
    unfold template_changed_in. intros; congruence.
  - (* nothing to do: excluded *)
    intros last' ? _ Hne _. match goal with H : (_ =? _) = true |- _ => apply Z.eqb_eq in H end.
    congruence.
  - (* large gap: excluded *)
    apply wp_skip. intros [res|e] w1; [|done].
    intros last' ? _ _ Hgap. match goal with H : (_ <? _) = true |- _ => apply Z.ltb_lt in H end.
    simplify_eq. lia.
  - (* the delta path *)
    match goal with |- wp _ _ ?W => set (w0 := W) end.
    eapply (wp_post _ (fun w1 => same_env w0 w1 /\ result w1 = result w0)).
    { split; [apply emits_build_batch_data|apply frames_result_build_batch_data]. }
    intros [batch|e] w1 [Henv1 Hres1]; [|done]. apply wp_bind.
    match goal with |- wp (for_each _ ?items) _ _ => set (modified := items) end.
    eapply (wp_post _ (fun w2 =>
              same_env w1 w2
              /\ total_items_processed (result w2)
                 = (total_items_processed (result w1) + length modified)%nat
              /\ items_removed (result w2) = items_removed (result w1)
              /\ (settled (result w2) <= settled (result w1) + length modified)%nat)).
    { pose proof (fan_out_accounts batch false modified w1) as Hfan.
      cbv zeta in Hfan. destruct Hfan as (Hp & Hr & Hs & _).
      split; [apply (emits_for_each _ _ _ (emits_sync_item_guarded batch false))|].
      split; [done|]. split; [done|lia]. }
    intros [[]|e] w2 (Henv2 & Hp2 & Hr2 & Hs2); [|done].
    wp_all ltac:(try done).
    match goal with |- wp (for_each _ ?ks) _ ?W => set (deleted := ks); set (w3 := W) end.
    eapply wp_conseq; [apply deletion_loop_accounts|].
    intros [[]|e] w4; [intros (Hr4 & Hp4 & Hs4 & Henv4)|done].
    wp_all ltac:(try done).
    intros last' [= <-] _ _ _.
    pose proof (same_env_trans _ _ _ Henv1 Henv2) as (Hrem2 & _ & Hclock2 & _).
    destruct Henv4 as (_ & _ & Hclock4 & _).
    subst deleted w3 w0 modified. wsimpl_all.
    rewrite Hrem2 in Hr4. rewrite Hclock4, Hclock2. wsimpl.
    rewrite Hres1 in Hp2, Hr2, Hs2. unfold settled in *. cbn in Hp2, Hr2, Hs2.
    repeat split; lia.
  - (* no prior version: excluded *)
    apply wp_skip. intros [res|e] w1; [|done]. intros; congruence.
Qed.

(** X12: whenever an Incremental Sync with a recorded version, an unchanged
    template and a gap of at most 1000 versions returns, whatever raised and
    was caught on the way, it has processed every item modified since the
    recorded version, reports as removed the number of keys the remote
    reported as deleted (tracked or not), has settled at most the processed
    items (an unchanged one is in no counter), and has recorded the time of
    the incremental sync. *)
Theorem incremental_delta_counts sp w last res w' :
  incremental_sync sp w = (Ok res, w') ->
  db_last_library_version (store w) = Some last ->
  template_changed_in w = false ->
  zot_library_version (remote w) <> last ->
  zot_library_version (remote w) - last <= 1000 ->
  total_items_processed res = length (zot_items_since (remote w) last)
  /\ items_removed res = length (zot_deleted_since (remote w) last)
  /\ (settled res <= total_items_processed res)%nat
  /\ db_last_incremental_sync (store w') = Some (clock w).
Proof.
  intros Hrun Hlast Htpl Hne Hgap.
  pose proof (incremental_delta_outcome sp w) as Hout.
  unfold wp in Hout. rewrite Hrun in Hout. cbn [fst snd] in Hout.
  by apply Hout.
Qed.

End Delta.

(** ** A run raises only at a fatal call *)

Lemma fatal_from_app started mid evs c :
  fatal_from started mid c = true -> fatal_from started (mid ++ evs) c = true.
Proof.
  unfold fatal_from, fatal. rewrite existsb_app.
  destruct (run_level_call c), (existsb deletion_started mid), started; cbn; try done.
  all: by rewrite ?orb_true_r.
Qed.

Lemma rf_never {A} started (m : M A) :
  emits (fun _ => True) m -> (forall w, exists a, (m w).1 = Ok a) ->
  raises_fatal started m.
Proof.
  intros He Hok w. destruct (He w) as [(_&_&_&Hf&_) (evs & Ht & _)].
  exists evs. split; [done|]. split; [done|]. by destruct (Hok w) as [a ->].
Qed.

Lemma rf_ret {A} started (a : A) : raises_fatal started (mret a).
Proof. intros w. by exists []. Qed.

Lemma rf_gets {A} started (f : World -> A) : raises_fatal started (gets f).
Proof. intros w. by exists []. Qed.

Lemma rf_modify started f :
  (forall w, trace (f w) = trace w /\ faults (f w) = faults w) ->
  raises_fatal started (modify f).
Proof. intros Hf w. exists []. cbn. by destruct (Hf w) as [-> ->]. Qed.

Lemma rf_call started c :
  fatal_from started [] c = true -> item_only_call c = false ->
  raises_fatal started (call c).
Proof.
  intros Hfat Hi w. exists [c]. unfold call.
  destruct (faults w (length (trace w)) c) as [e|] eqn:He; cbn.
  - split; [done|]. split; [done|]. by exists [], c.
  - done.
Qed.

Lemma rf_bind {A B} started (m : M A) (k : A -> M B) :
  raises_fatal started m -> (forall a, raises_fatal started (k a)) ->
  raises_fatal started (m ≫= k).
Proof.
  intros Hm Hk w. rewrite bind_run.
  destruct (Hm w) as (evs & Ht & Hf & Hr).
  destruct (m w) as [[a|e] w1]; cbn [fst snd] in *.
  - destruct (Hk a w1) as (evs' & Ht' & Hf' & Hr').
    exists (evs' ++ evs). split; [by rewrite Ht', Ht, app_assoc|].
    split; [congruence|].
    destruct (k a w1).1 as [b|e]; [done|].
    destruct Hr' as (mid & c & -> & Hfat & Hi & Hraise).
    exists (mid ++ evs), c. split; [done|]. split; [by apply fatal_from_app|].
    split; [done|]. by rewrite <- Hf, <- app_assoc, <- Ht.
  - by exists evs.
Qed.

(** The call that starts the deletions: what follows it runs with the
    deletions started. *)
Lemma rf_start {B} started c (k : unit -> M B) :
  deletion_started c = true -> item_only_call c = false ->
  (forall u, raises_fatal true (k u)) ->
  raises_fatal started (call c ≫= k).
Proof.
  intros Hd Hi Hk w. rewrite bind_run. unfold call.
  assert (Hrun : run_level_call c = true) by (by destruct c).
  destruct (faults w (length (trace w)) c) as [e|] eqn:He.
  - exists [c]. cbn. split; [done|]. split; [done|]. exists [], c.
    split; [done|]. split; [|done]. unfold fatal_from, fatal. by rewrite Hrun.
  - destruct (Hk tt (log c w)) as (evs' & Ht' & Hf' & Hr').
    exists (evs' ++ [c]). cbn [log trace faults] in *.
    split; [by rewrite Ht', <- app_assoc|]. split; [done|].
    destruct (k tt _).1 as [b|e]; [done|].
    destruct Hr' as (mid & c' & -> & Hfat & Hi' & Hraise).
    exists (mid ++ [c]), c'. split; [done|]. split.
    + unfold fatal_from, fatal. rewrite existsb_app. cbn. rewrite Hd.
      by rewrite !orb_true_r.
    + split; [done|]. by rewrite <- app_assoc.
Qed.

Lemma rf_assoc {A B C} started (m : M A) (f : A -> M B) (g : B -> M C) :
  raises_fatal started (m ≫= (fun x => f x ≫= g)) ->
  raises_fatal started ((m ≫= f) ≫= g).
Proof.
  intros H w. specialize (H w). rewrite !bind_run in *.
  destruct (m w) as [[a|e] w1]; [|done]. by rewrite bind_run in H.
Qed.

Lemma rf_reraise {A} started (m : M A) :
  raises_fatal started m -> raises_fatal started (try_except m (fun e => raise e)).
Proof. intros Hm w. rewrite try_except_reraise. apply Hm. Qed.

Lemma rf_for_each {A} started (body : A -> M unit) l :
  (forall x, raises_fatal started (body x)) -> raises_fatal started (for_each body l).
Proof.
  intros Hb. induction l as [|x rest IH]; cbn [for_each].
  - apply rf_ret.
  - apply rf_bind; auto.
Qed.

Lemma rf_foldM {A B} started (body : B -> A -> M B) l acc :
  (forall acc x, raises_fatal started (body acc x)) ->
  raises_fatal started (foldM body l acc).
Proof.
  intros Hb. revert acc. induction l as [|x rest IH]; intros acc; cbn [foldM].
  - apply rf_ret.
  - apply rf_bind; auto.
Qed.

Lemma for_each_total {A} (body : A -> M unit) l :
  (forall x w, (body x w).1 = Ok tt) -> forall w, (for_each body l w).1 = Ok tt.
Proof.
  intros Hb. induction l as [|x rest IH]; intros w; [done|].
  cbn [for_each]. rewrite bind_run. specialize (Hb x w).
  destruct (body x w) as [[[]|e] w1]; [apply IH|done].
Qed.

(** ** Nothing written is taken back *)

Lemma replay_app f base evs2 evs1 s :
  replay f base (evs2 ++ evs1) s
  = replay f (base + length evs1) evs2 (replay f base evs1 s).
Proof.
  induction evs2 as [|c older IH]; [done|].
  cbn [app replay]. rewrite IH, length_app.
  by replace (base + (length older + length evs1))%nat
    with (base + length evs1 + length older)%nat by lia.
Qed.

Lemma kw_ret {A} (a : A) : keeps_writes (mret a).
Proof. intros w. split; [done|]. by exists []. Qed.

Lemma kw_raise {A} e : keeps_writes (@raise A e).
Proof. intros w. split; [done|]. by exists []. Qed.

Lemma kw_gets {A} (f : World -> A) : keeps_writes (gets f).
Proof. intros w. split; [done|]. by exists []. Qed.

Lemma kw_modify f :
  (forall w, trace (f w) = trace w /\ faults (f w) = faults w
             /\ db_items (store (f w)) = db_items (store w)
             /\ files (f w) = files w) ->
  keeps_writes (modify f).
Proof.
  intros Hf w. destruct (Hf w) as (Ht & Hfa & Hdb & Hfi). cbn.
  split; [done|]. exists []. cbn. by rewrite Ht, Hdb, Hfi.
Qed.

(** A call without effect on rows and artifacts. *)
Lemma kw_call c : (forall s, write_effect c s = s) -> keeps_writes (call c).
Proof.
  intros Hc w. unfold call.
  destruct (faults w (length (trace w)) c) as [e|] eqn:He; cbn.
  all: split; [done|]; exists [c]; split; [done|].
  all: cbn [replay length]; rewrite Nat.add_0_r, He; by rewrite ?Hc.
Qed.

Lemma kw_bind {A B} (m : M A) (k : A -> M B) :
  keeps_writes m -> (forall a, keeps_writes (k a)) -> keeps_writes (m ≫= k).
Proof.
  intros Hm Hk w. rewrite bind_run.
  destruct (Hm w) as (Hf & evs & Ht & Hs).
  destruct (m w) as [[a|e] w1]; cbn [fst snd] in *.
  - destruct (Hk a w1) as (Hf' & evs' & Ht' & Hs').
    split; [congruence|]. exists (evs' ++ evs).
    split; [by rewrite Ht', Ht, app_assoc|].
    rewrite Hs', Hs, Hf, Ht, length_app, replay_app.
    by rewrite (Nat.add_comm (length evs)).
  - split; [done|]. by exists evs.
Qed.

Lemma kw_try_except {A} (m : M A) h :
  keeps_writes m -> (forall e, keeps_writes (h e)) -> keeps_writes (try_except m h).
Proof.
  intros Hm Hh w. unfold try_except.
  destruct (Hm w) as (Hf & evs & Ht & Hs).
  destruct (m w) as [[a|e] w1]; cbn [fst snd] in *.
  - split; [done|]. by exists evs.
  - destruct (Hh e w1) as (Hf' & evs' & Ht' & Hs').
    split; [congruence|]. exists (evs' ++ evs).
    split; [by rewrite Ht', Ht, app_assoc|].
    rewrite Hs', Hs, Hf, Ht, length_app, replay_app.
    by rewrite (Nat.add_comm (length evs)).
Qed.

Lemma kw_for_each {A} (body : A -> M unit) l :
  (forall x, keeps_writes (body x)) -> keeps_writes (for_each body l).
Proof.
  intros Hb. induction l as [|x rest IH]; cbn [for_each].
  - apply kw_ret.
  - apply kw_bind; auto.
Qed.

Lemma kw_foldM {A B} (body : B -> A -> M B) l acc :
  (forall acc x, keeps_writes (body acc x)) -> keeps_writes (foldM body l acc).
Proof.
  intros Hb. revert acc. induction l as [|x rest IH]; intros acc; cbn [foldM].
  - apply kw_ret.
  - apply kw_bind; auto.
Qed.

Section RunFailures.

Context {collab : Collaborators}.

(** *** The writes, each with its effect *)

Lemma kw_upsert_item st item_json : keeps_writes (state_upsert_item st item_json).
Proof.
  intros w. unfold state_upsert_item, call. rewrite bind_run.
  destruct (faults w (length (trace w)) _) as [e|] eqn:He; cbn.
  all: split; [done|]; eexists [_]; split; [done|].
  all: cbn [replay length]; by rewrite Nat.add_0_r, He.
Qed.

Lemma kw_mark_item_removed k : keeps_writes (state_mark_item_removed k).
Proof.
  intros w. unfold state_mark_item_removed, call. rewrite bind_run.
  destruct (faults w (length (trace w)) _) as [e|] eqn:He; cbn.
  all: split; [done|]; eexists [_]; split; [done|].
  all: cbn [replay length]; by rewrite Nat.add_0_r, He.
Qed.

Lemma kw_write_markdown ck markdown : keeps_writes (files_write_markdown ck markdown).
Proof.
  intros w. unfold files_write_markdown, call. rewrite !bind_run.
  destruct (faults w (length (trace w)) _) as [e|] eqn:He; cbn.
  all: split; [done|]; eexists [_]; split; [done|].
  all: cbn [replay length]; by rewrite Nat.add_0_r, He.
Qed.

Lemma kw_handle_removed_item ck : keeps_writes (files_handle_removed_item ck).
Proof.
  intros w. unfold files_handle_removed_item, call. rewrite !bind_run.
  destruct (faults w (length (trace w)) _) as [e|] eqn:He; cbn.
  all: split; [done|]; eexists [_]; split; [done|].
  all: cbn [replay length]; by rewrite Nat.add_0_r, He.
Qed.

Ltac unfold_reads :=
  unfold zotero_get_library_version, zotero_get_all_items,
    zotero_get_items_since_version, zotero_get_deleted_items,
    zotero_get_all_annotations, zotero_get_all_attachments, zotero_item,
    ZoteroItem_from_api_response, Annotation_from_api_response,
    state_get_last_library_version, state_get_template_version,
    state_get_item_state, state_select_item_json,
    state_get_all_item_keys, state_get_active_items,
    state_record_full_sync, state_update_library_version,
    state_record_template_version, renderer_get_template_hash,
    renderer_get_template_path_identifier, renderer_extract_annotations_section,
    renderer_extract_notes_section, renderer_render_item, files_read_existing,
    files_get_content_hash,
    datetime_now, increment_processed, increment_created, increment_updated,
    increment_skipped, add_annotations, add_error, set_items_removed.

Ltac kw_step :=
  lazymatch goal with
  | |- keeps_writes (state_upsert_item _ _) => apply kw_upsert_item
  | |- keeps_writes (state_mark_item_removed _) => apply kw_mark_item_removed
  | |- keeps_writes (files_write_markdown _ _) => apply kw_write_markdown
  | |- keeps_writes (files_handle_removed_item _) => apply kw_handle_removed_item
  | |- keeps_writes (mbind _ _) => apply kw_bind; [|intros ?]
  | |- keeps_writes (mret _) => apply kw_ret
  | |- keeps_writes (raise _) => apply kw_raise
  | |- keeps_writes (gets _) => apply kw_gets
  | |- keeps_writes (modify _) =>
      apply kw_modify; intros ?; repeat split; reflexivity
  | |- keeps_writes (call _) => apply kw_call; intros ?; reflexivity
  | |- keeps_writes (try_except _ _) => apply kw_try_except; [|intros ?]
  | |- keeps_writes (for_each _ _) => apply kw_for_each; intros ?
  | |- keeps_writes (foldM _ _ _) => apply kw_foldM; intros ? ?
  | |- keeps_writes (match ?x with _ => _ end) => destruct x
  | |- keeps_writes (if ?x then _ else _) => destruct x
  end.

Ltac kw_go :=
  unfold sync_item_guarded, _sync_single_item_batch, rerender_item_guarded,
    _rerender_single_item, _build_batch_data, annotation_step,
    _handle_removed_items, _handle_deleted_item;
  unfold_reads; repeat kw_step.

Lemma kw_full_sync sp : keeps_writes (full_sync sp).
Proof. unfold full_sync. kw_go. Qed.

Lemma kw_full_rerender_all_items sp : keeps_writes (_full_rerender_all_items sp).
Proof. unfold _full_rerender_all_items. kw_go. Qed.

Lemma kw_incremental_sync sp : keeps_writes (incremental_sync sp).
Proof.
  unfold incremental_sync. unfold_reads.
  repeat lazymatch goal with
  | |- keeps_writes (full_sync _) => apply kw_full_sync
  | |- keeps_writes (_full_rerender_all_items _) => apply kw_full_rerender_all_items
  | |- keeps_writes (for_each _ _) => kw_go
  | |- keeps_writes (_build_batch_data _) => kw_go
  | |- _ => kw_step
  end.
Qed.

(** *** Where a run can raise *)

Lemma rerender_item_guarded_total sp batch x w :
  (rerender_item_guarded sp batch x w).1 = Ok tt.
Proof.
  unfold rerender_item_guarded, try_except.
  by destruct (_rerender_single_item _ _ w) as [[[]|e] w1].
Qed.

Lemma rf_fan_out started batch force items :
  raises_fatal started (for_each (sync_item_guarded batch force) items).
Proof.
  apply rf_never.
  - apply emits_for_each. intros x. eapply emits_any, emits_sync_item_guarded.
  - intros w. exists tt. apply for_each_total. intros x v.
    apply sync_item_guarded_total.
Qed.

Lemma rf_rerender_fan_out started sp batch items :
  raises_fatal started (for_each (rerender_item_guarded sp batch) items).
Proof.
  apply rf_never.
  - apply emits_for_each. intros x. eapply emits_any, emits_rerender_item_guarded.
  - intros w. exists tt. apply for_each_total. intros x v.
    apply rerender_item_guarded_total.
Qed.

Ltac rf_step :=
  lazymatch goal with
  | |- raises_fatal _ (mbind _ (mbind _ (call _))) => apply rf_assoc
  | |- raises_fatal _ (mbind _ (call _)) =>
      first [ apply rf_start; [reflexivity|reflexivity|intros ?]
            | apply rf_bind; [apply rf_call; reflexivity|intros ?] ]
  | |- raises_fatal _ (mbind _ (for_each (sync_item_guarded _ _) _)) =>
      apply rf_bind; [apply rf_fan_out|intros ?]
  | |- raises_fatal _ (mbind _ (for_each (rerender_item_guarded _ _) _)) =>
      apply rf_bind; [apply rf_rerender_fan_out|intros ?]
  | |- raises_fatal _ (mbind _ _) => apply rf_bind; [|intros ?]
  | |- raises_fatal _ (mret _) => apply rf_ret
  | |- raises_fatal _ (gets _) => apply rf_gets
  | |- raises_fatal _ (modify _) => apply rf_modify; intros ?; split; reflexivity
  | |- raises_fatal _ (call _) => apply rf_call; reflexivity
  | |- raises_fatal _ (try_except _ _) => apply rf_reraise
  | |- raises_fatal _ (for_each _ _) => apply rf_for_each; intros ?
  | |- raises_fatal _ (foldM _ _ _) => apply rf_foldM; intros ? ?
  | |- raises_fatal _ (match ?x with _ => _ end) => destruct x
  | |- raises_fatal _ (if ?x then _ else _) => destruct x
  end.

Ltac rf_go :=
  unfold _build_batch_data, annotation_step, _handle_removed_items,
    _handle_deleted_item;
  unfold_ops; repeat rf_step.

Lemma rf_full_sync sp : raises_fatal false (full_sync sp).
Proof. unfold full_sync. rf_go. Qed.

Lemma rf_full_rerender_all_items sp :
  raises_fatal false (_full_rerender_all_items sp).
Proof. unfold _full_rerender_all_items. rf_go. Qed.

Lemma rf_incremental_sync sp : raises_fatal false (incremental_sync sp).
Proof.
  unfold incremental_sync. unfold_ops.
  repeat lazymatch goal with
  | |- raises_fatal _ (full_sync _) => apply rf_full_sync
  | |- raises_fatal _ (_full_rerender_all_items _) => apply rf_full_rerender_all_items
  | |- raises_fatal _ (mbind _ (_build_batch_data _)) =>
      apply rf_bind; [rf_go|intros ?]
  | |- raises_fatal _ (for_each (fun _ => mbind _ (_handle_deleted_item _)) _) => rf_go
  | |- _ => rf_step
  end.
Qed.

Lemma raises_fatal_elim {A} (m : M A) w e :
  raises_fatal false m -> (m w).1 = Raise e ->
  exists mid c,
    trace (m w).2 = c :: mid ++ trace w
    /\ fatal mid c = true
    /\ item_only_call c = false
    /\ faults w (length (mid ++ trace w)) c = Some e.
Proof.
  intros Hm Hr. destruct (Hm w) as (evs & Ht & _ & Hraise).
  rewrite Hr in Hraise. destruct Hraise as (mid & c & -> & Hfat & Hi & Hf).
  exists mid, c. split; [done|]. split; [|done].
  unfold fatal_from in Hfat. by rewrite orb_false_r in Hfat.
Qed.

(** A run in which only calls of the per-item reconciliations raise
    returns. *)
Lemma returns_despite_item_failures {A} (m : M A) w :
  raises_fatal false m ->
  (forall n c e, faults w n c = Some e -> item_only_call c = true) ->
  exists a w', m w = (Ok a, w').
Proof.
  intros Hm Hfaults. destruct (m w) as [[a|e] w'] eqn:Hrun; [by eauto|].
  destruct (raises_fatal_elim m w e Hm) as (mid & c & _ & _ & Hi & Hf).
  { by rewrite Hrun. }
  apply Hfaults in Hf. congruence.
Qed.

(** C8: a failure raised while one item is reconciled is caught at the
    per-item boundary and appended as a text to the errors of the Sync
    Result; the fan-out goes on, processes every item and returns normally.
    In Full Sync and in Incremental Sync a call that raises ends the run with
    its exception when it is a run-level call (mode selection, fetch,
    prefetch, effects of a deletion, final commit) or any call made once the
    reconciliation of deletions has started; and a run raises in no other
    case: the exception it raises is the one of its last call, a fatal call
    that is not a call of the per-item reconciliations.  So a run in which
    only calls of the per-item reconciliations raise returns; Full Sync has
    then processed every fetched item and settled each of them, as created,
    updated or skipped or with an error text, and the delta path of
    Incremental Sync has processed every modified item.  No run, returning or raising,
    removes a row from the store, and the rows and artifacts it leaves are
    those it started from with the effect of every write call that did not
    raise: what an item has written stays when the run raises later. *)
Theorem failures_caught_per_item_fatal_per_run sp batch force :
  (forall item_data w e w1,
     _sync_single_item_batch item_data batch force w = (Raise e, w1) ->
     exists w1',
       sync_item_guarded batch force item_data w = (Ok tt, w1')
       /\ errors (result w1') = errors (result w1) ++ [item_error_message item_data e]
       /\ store w1' = store w1 /\ files w1' = files w1 /\ trace w1' = trace w1)
  /\ (forall items w,
        (for_each (sync_item_guarded batch force) items w).1 = Ok tt
        /\ total_items_processed
             (result (for_each (sync_item_guarded batch force) items w).2)
           = (total_items_processed (result w) + length items)%nat
        /\ forall x, In x items ->
             emitted_since w (for_each (sync_item_guarded batch force) items w).2
                           (PItemFromApiResponse x))
  /\ (forall w pre c mid e,
        trace (full_sync sp w).2 = pre ++ c :: mid ++ trace w ->
        fatal mid c = true ->
        faults w (length (mid ++ trace w)) c = Some e ->
        (full_sync sp w).1 = Raise e)
  /\ (forall w pre c mid e,
        trace (incremental_sync sp w).2 = pre ++ c :: mid ++ trace w ->
        fatal mid c = true ->
        faults w (length (mid ++ trace w)) c = Some e ->
        (incremental_sync sp w).1 = Raise e)
  /\ (forall w, same_env w (full_sync sp w).2 /\ same_env w (incremental_sync sp w).2)
  /\ (forall w e,
        (full_sync sp w).1 = Raise e ->
        exists mid c,
          trace (full_sync sp w).2 = c :: mid ++ trace w
          /\ fatal mid c = true
          /\ item_only_call c = false
          /\ faults w (length (mid ++ trace w)) c = Some e)
  /\ (forall w e,
        (incremental_sync sp w).1 = Raise e ->
        exists mid c,
          trace (incremental_sync sp w).2 = c :: mid ++ trace w
          /\ fatal mid c = true
          /\ item_only_call c = false
          /\ faults w (length (mid ++ trace w)) c = Some e)
  /\ (forall w,
        (forall n c e, faults w n c = Some e -> item_only_call c = true) ->
        (exists res w',
           full_sync sp w = (Ok res, w')
           /\ total_items_processed res = length (zot_all_items (remote w))
           /\ settled res = length (zot_all_items (remote w)))
        /\ (exists res w',
              incremental_sync sp w = (Ok res, w')
              /\ forall last,
                   db_last_library_version (store w) = Some last ->
                   template_changed_in w = false ->
                   zot_library_version (remote w) <> last ->
                   zot_library_version (remote w) - last <= 1000 ->
                   total_items_processed res
                   = length (zot_items_since (remote w) last)))
  /\ (forall w, committed w (full_sync sp w).2 /\ committed w (incremental_sync sp w).2).
Proof.
  split; [intros; by apply sync_item_guarded_caught|].
  split; [intros; apply fan_out_attempts_every_item|].
  split.
  { intros w pre c mid e Ht Hfatal Hf.
    eapply (aborts_after_full_sync sp []); [constructor|done| |done].
    by rewrite app_nil_r. }
  split.
  { intros w pre c mid e Ht Hfatal Hf.
    eapply (aborts_after_incremental_sync sp); [done| |done].
    by rewrite app_nil_r. }
  split.
  { intros w. split; [apply (emits_full_sync sp w)|apply (emits_incremental_sync sp w)]. }
  split; [intros w e; apply raises_fatal_elim, rf_full_sync|].
  split; [intros w e; apply raises_fatal_elim, rf_incremental_sync|].
  split.
  { intros w Hfaults. split.
    - destruct (returns_despite_item_failures (full_sync sp) w (rf_full_sync sp) Hfaults)
        as (res & w' & Hrun).
      exists res, w'. split; [done|].
      pose proof (full_sync_outcome sp w) as Hout.
      unfold wp in Hout. rewrite Hrun in Hout. cbn [fst snd] in Hout.
      by destruct Hout as (? & ? & _).
    - destruct (returns_despite_item_failures (incremental_sync sp) w
                  (rf_incremental_sync sp) Hfaults)
        as (res & w' & Hrun).
      exists res, w'. split; [done|].
      pose proof (incremental_delta_outcome sp w) as Hout.
      unfold wp in Hout. rewrite Hrun in Hout. cbn [fst snd] in Hout.
      intros last Hlast Htpl Hne Hgap. by destruct (Hout last Hlast Htpl Hne Hgap). }
  intros w. split; [apply (kw_full_sync sp w)|apply (kw_incremental_sync sp w)].
Qed.

End RunFailures.

Lemma failures_caught_per_item_fatal_per_run_witness :
  (exists w1',
     sync_item_guarded (collab := Demo.collaborators) (Demo.batch 1) true
       Demo.itemA Demo.flaky = (Ok tt, w1')
     /\ errors (result w1') = ["Error syncing item A: boom"])
  /\ (exists res w',
        full_sync (collab := Demo.collaborators) true DemoFail.two_items = (Ok res, w')
        /\ total_items_processed res = 2%nat
        /\ settled res = 2%nat)
  /\ (exists res w',
        incremental_sync (collab := Demo.collaborators) true DemoFail.two_items
        = (Ok res, w')
        /\ total_items_processed res = 2%nat)
  /\ (exists mid c,
        trace (full_sync (collab := Demo.collaborators) true DemoFail.db_locked).2
        = c :: mid
        /\ fatal mid c = true
        /\ item_only_call c = false)
  /\ committed DemoFail.db_locked
       (full_sync (collab := Demo.collaborators) true DemoFail.db_locked).2.
Proof.
  destruct (failures_caught_per_item_fatal_per_run
              (collab := Demo.collaborators) true (Demo.batch 1) true)
    as (Hcaught & _ & _ & _ & _ & Honly & _ & Hsurvive & Hkept).
  split; [|split; [|split; [|split]]].
  - destruct (Hcaught Demo.itemA Demo.flaky "boom"
                (_sync_single_item_batch (collab := Demo.collaborators)
                   Demo.itemA (Demo.batch 1) true Demo.flaky).2)
      as (w1' & Hrun & Herr & _).
    + vm_compute. reflexivity.
    + exists w1'. split; [exact Hrun|]. rewrite Herr. by vm_compute.
  - destruct (Hsurvive DemoFail.two_items) as [(res & w' & Hrun & Hp & Hs) _].
    + intros n c e. destruct c; try discriminate. reflexivity.
    + exists res, w'. split; [exact Hrun|]. split; [exact Hp|exact Hs].
  - destruct (Hsurvive DemoFail.two_items) as [_ (res & w' & Hrun & Hp)].
    + intros n c e. destruct c; try discriminate. reflexivity.
    + exists res, w'. split; [exact Hrun|].
      rewrite (Hp 10); [reflexivity..|discriminate|discriminate].
  - destruct (Honly DemoFail.db_locked "db locked")
      as (mid & c & Ht & Hfat & Hi & _).
    + vm_compute. reflexivity.
    + exists mid, c. rewrite app_nil_r in Ht. split; [exact Ht|]. split; [exact Hfat|exact Hi].
  - apply Hkept.
Defined.

(** C8 at the concrete worlds: with the render of "A" raising, Full Sync
    returns, records the error of "A" and creates "B"; with the final commit
    raising, Full Sync raises and the row and the artifact of "A" written
    before stay. *)
Lemma run_survives_item_failure_and_keeps_rows :
  (exists res w',
     full_sync (collab := Demo.collaborators) true DemoFail.two_items = (Ok res, w')
     /\ errors res = ["Error syncing item A: boom"]
     /\ items_created res = 1%nat
     /\ is_Some (db_items (store w') !! "B")
     /\ db_items (store w') !! "A" = None)
  /\ (exists w',
        full_sync (collab := Demo.collaborators) true DemoFail.db_locked
        = (Raise "db locked", w')
        /\ is_Some (db_items (store w') !! "A")
        /\ is_Some (files w' !! "ck-A")
        /\ db_last_library_version (store w') = None).
Proof.
  split.
  - eexists _, _. split; [vm_compute; reflexivity|].
    split; [reflexivity|]. split; [reflexivity|]. split; [|by vm_compute].
    eexists. by vm_compute.
  - eexists. split; [vm_compute; reflexivity|].
    split; [eexists; by vm_compute|]. split; [eexists; by vm_compute|reflexivity].
Qed.

(** ** Accounting of a Full Re-render *)

Section RerenderAccounting.

Context {collab : Collaborators}.

(** Whatever raises, one re-render behind the per-item boundary is counted
    at most once, as updated or with one error text, and moves no other
    counter. *)
Lemma rerender_item_guarded_accounts sp batch x w :
  let w' := (rerender_item_guarded sp batch x w).2 in
  rerender_untouched (result w') = rerender_untouched (result w)
  /\ (rerender_tally (result w) <= rerender_tally (result w')
      <= S (rerender_tally (result w)))%nat.
Proof.
  cbv zeta.
  apply (wp_run (rerender_item_guarded sp batch x)
           (fun _ w' =>
              rerender_untouched (result w') = rerender_untouched (result w)
              /\ (rerender_tally (result w) <= rerender_tally (result w')
                  <= S (rerender_tally (result w)))%nat)).
  unfold rerender_item_guarded, _rerender_single_item.
  wp_all ltac:(unfold rerender_untouched, rerender_tally; cbn;
               rewrite ?length_app; cbn; split; [done|lia]).
Qed.

Lemma rerender_fan_out_accounts sp batch items : forall w,
  let w' := (for_each (rerender_item_guarded sp batch) items w).2 in
  rerender_untouched (result w') = rerender_untouched (result w)
  /\ (rerender_tally (result w) <= rerender_tally (result w')
      <= rerender_tally (result w) + length items)%nat.
Proof.
  induction items as [|x rest IH]; intros w; cbv zeta.
  - cbn. split; [done|lia].
  - cbn [for_each]. rewrite bind_run.
    pose proof (rerender_item_guarded_accounts sp batch x w) as Hx.
    destruct (rerender_item_guarded sp batch x w) as [[[]|e] w1];
      cbn [fst snd] in *; cbv zeta in Hx; destruct Hx as [Hu Ht].
    + destruct (IH w1) as [Hu' Ht']. cbn [length]. split; [congruence|lia].
    + cbn [length]. split; [done|lia].
Qed.

(** What a Full Re-render that returns reports. *)
Lemma full_rerender_outcome sp w :
  wp (_full_rerender_all_items sp)
     (fun r w' =>
        match r with
        | Ok res =>
            rerender_untouched res = (0, 0, 0, 0, 0)%nat
            /\ (rerender_tally res <= length (active_states w))%nat
        | Raise _ => True
        end) w.
Proof.
  unfold _full_rerender_all_items. wp_all ltac:(try done).
  match goal with |- wp _ _ ?W => set (w0 := W) end.
  eapply (wp_post _ (fun w1 => result w1 = result w0));
    [apply frames_result_build_batch_data|].
  intros [batch|e] w1 Hres1; [|done]. apply wp_bind.
  match goal with |- wp (for_each _ ?items) _ _ => set (todo := items) end.
  eapply (wp_post _ (fun w2 =>
            rerender_untouched (result w2) = rerender_untouched (result w1)
            /\ (rerender_tally (result w2)
                <= rerender_tally (result w1) + length todo)%nat)).
  { pose proof (rerender_fan_out_accounts sp batch todo w1) as Hfan.
    cbv zeta in Hfan. destruct Hfan as [Hu Ht]. split; [done|lia]. }
  intros [[]|e] w2 [Hu2 Ht2]; [|done].
  wp_all ltac:(try done).
  rewrite Hres1 in Hu2, Ht2. subst w0 todo. wsimpl_all.
  unfold rerender_untouched, rerender_tally in *. cbn in Hu2, Ht2.
  split; [done|]. unfold active_states. lia.
Qed.

(** X13: whenever an Incremental Sync that takes the Full Re-render path
    returns, whatever raised and was caught on the way, its Sync Result
    reports no item as processed, created, removed or skipped and no
    annotation as synced; the items updated and the error texts together
    are at most the active Item States of the store. *)
Theorem template_change_run_reports_updates_only sp w last res w' :
  quiet_for 5 w ->
  db_last_library_version (store w) = Some last ->
  template_changed_in w = true ->
  incremental_sync sp w = (Ok res, w') ->
  total_items_processed res = 0%nat
  /\ items_created res = 0%nat
  /\ items_removed res = 0%nat
  /\ items_skipped res = 0%nat
  /\ annotations_synced res = 0%nat
  /\ (items_updated res + length (errors res) <= length (active_states w))%nat.
Proof.
  intros Hq Hlast Htpl Hrun.
  rewrite (mode_template_changed sp w last) in Hrun by done.
  pose proof (full_rerender_outcome sp (selected w)) as Hout.
  unfold wp in Hout. rewrite Hrun in Hout. cbn [fst snd] in Hout.
  destruct Hout as [Hu Ht]. unfold rerender_untouched in Hu. simplify_eq.
  by repeat split.
Qed.

End RerenderAccounting.

(** ** The store after a Full Sync *)

Section Mirror.

Context {collab : Collaborators}.

Lemma remote_key_of_item (items : list RawItem) raw item :
  keeps_key -> In raw items -> parse_item raw = Some item ->
  key item ∈ (list_to_set (omap raw_key items) : gset string).
Proof.
  intros Hkey Hin Hp. apply elem_of_list_to_set, list_elem_of_omap.
  exists raw. split; [by apply list_elem_of_In|]. by apply Hkey.
Qed.

(** One forced reconciliation when no call raises: the row of the item is
    active afterwards, active rows stay active, and a row under another key
    is left as it was. *)
Lemma forced_item_rows batch raw v :
  calm v ->
  exists v',
    sync_item_guarded batch true raw v = (Ok tt, v')
    /\ calm v' /\ remote v' = remote v
    /\ (forall item, parse_item raw = Some item -> tracked_active v' (key item))
    /\ (forall k, tracked_active v k -> tracked_active v' k)
    /\ (forall k, (forall item, parse_item raw = Some item -> k <> key item) ->
          db_items (store v') !! k = db_items (store v) !! k).
Proof.
  intros Hcalm. unfold tracked_active.
  pose proof (emits_sync_item_guarded batch true raw) as He.
  destruct (parse_item raw) as [item|] eqn:Hp.
  - destruct (sync_item_render_path raw batch true item v Hcalm Hp)
      as (v' & Hrun & Hdb & _).
    { unfold goes_on. destruct (db_items _ !! _); auto. }
    pose proof (sync_item_guarded_ok _ _ _ _ _ Hrun) as Hg.
    exists v'. split; [done|].
    pose proof (emits_calm _ _ v He Hcalm) as Hc. destruct (He v) as [(Hrem & _) _].
    rewrite Hg in Hc, Hrem. cbn [snd] in Hc, Hrem.
    split; [done|]. split; [done|]. split; [|split].
    + intros item' [= <-]. eexists. rewrite Hdb, lookup_insert_eq. by split.
    + intros k (row & Hrow & Hact). rewrite Hdb.
      destruct (decide (k = key item)) as [->|Hne].
      * eexists. rewrite lookup_insert_eq. by split.
      * exists row. by rewrite lookup_insert_ne.
    + intros k Hk. rewrite Hdb, lookup_insert_ne; [done|]. intros <-. by eapply Hk.
  - destruct (sync_item_unparsed raw batch true v Hcalm Hp) as (v' & Hrun & Hst & _).
    pose proof (sync_item_guarded_ok _ _ _ _ _ Hrun) as Hg.
    exists v'. split; [done|].
    pose proof (emits_calm _ _ v He Hcalm) as Hc. destruct (He v) as [(Hrem & _) _].
    rewrite Hg in Hc, Hrem. cbn [snd] in Hc, Hrem.
    split; [done|]. split; [done|]. rewrite Hst.
    split; [done|]. by split.
Qed.

(** The forced fan-out when no call raises. *)
Lemma forced_fan_out_rows batch items : forall v,
  calm v ->
  exists v',
    for_each (sync_item_guarded batch true) items v = (Ok tt, v')
    /\ calm v' /\ remote v' = remote v
    /\ (forall raw item, In raw items -> parse_item raw = Some item ->
          tracked_active v' (key item))
    /\ (forall k, tracked_active v k -> tracked_active v' k)
    /\ (forall k, (forall raw item, In raw items -> parse_item raw = Some item ->
                     k <> key item) ->
          db_items (store v') !! k = db_items (store v) !! k).
Proof.
  induction items as [|x rest IH]; intros v Hcalm.
  - exists v. by repeat split.
  - destruct (forced_item_rows batch x v Hcalm)
      as (v1 & Hrun1 & Hcalm1 & Hrem1 & Hnew1 & Hkeep1 & Hother1).
    destruct (IH v1 Hcalm1) as (v2 & Hrun2 & Hcalm2 & Hrem2 & Hnew2 & Hkeep2 & Hother2).
    exists v2. cbn [for_each]. rewrite bind_run, Hrun1.
    split; [done|]. split; [done|]. split; [congruence|]. split; [|split].
    + intros raw item [<-|Hin] Hp.
      * apply Hkeep2. by apply Hnew1.
      * by eapply Hnew2.
    + intros k Hk. by apply Hkeep2, Hkeep1.
    + intros k Hk. rewrite Hother2, Hother1; [done| |].
      * intros item Hp. eapply Hk; [by left|done].
      * intros raw item Hin Hp. eapply Hk; [by right|done].
Qed.

Lemma gone_keys_eq w v :
  remote v = remote w ->
  (forall k, k ∉ remote_keys (remote w) ->
     db_items (store v) !! k = db_items (store w) !! k) ->
  gone_keys v = gone_keys w.
Proof.
  intros Hrem Hdb. apply set_eq. intros k. split; intros Hk.
  - destruct (gone_keys_tracked v k Hk) as (row & Hrow & Hact & Hnot).
    rewrite Hrem in Hnot. rewrite Hdb in Hrow by done. by eapply gone_keys_intro.
  - destruct (gone_keys_tracked w k Hk) as (row & Hrow & Hact & Hnot).
    eapply gone_keys_intro; [by rewrite Hdb|done|by rewrite Hrem].
Qed.

(** X14: when no call raises and the model constructor takes the key of an
    item from its raw payload, Full Sync leaves the store a mirror of the
    remote item list: every row still active belongs to a key of the list,
    every fetched item with a citation key has an active row, and the
    result reports as removed exactly the keys that were tracked as active
    before the run and are not in the list. *)
Theorem full_sync_store_mirrors_remote sp w :
  calm w ->
  keeps_key ->
  exists res w',
    full_sync sp w = (Ok res, w')
    /\ (forall k, tracked_active w' k -> k ∈ remote_keys (remote w))
    /\ (forall raw item,
          In raw (zot_all_items (remote w)) -> parse_item raw = Some item ->
          tracked_active w' (key item))
    /\ items_removed res = size (gone_keys w).
Proof.
  intros Hcalm Hkey. apply wp_ok_some_elim.
  unfold full_sync. wp_ok Hcalm.
  eapply wp_of_eq; [apply build_batch_data_ok; solve_calm Hcalm|]. wsimpl.
  wp_step.
  match goal with |- wp _ _ ?W => set (w1 := W) end.
  assert (Hcalm1 : calm w1) by (subst w1; solve_calm Hcalm).
  destruct (forced_fan_out_rows (batch_of (remote w)) (zot_all_items (remote w)) w1 Hcalm1)
    as (w2 & Hrun2 & Hcalm2 & Hrem2 & Hnew2 & _ & Hother2).
  eapply wp_of_eq; [exact Hrun2|]. cbn beta iota. wp_step.
  destruct (removed_items_pass w2 Hcalm2) as (w3 & Hrun3 & Hdb3 & _ & Hrem3 & Hcalm3).
  eapply wp_of_eq; [exact Hrun3|]. cbn beta iota.
  assert (Hrem1 : remote w1 = remote w) by done.
  assert (Hgone2 : gone_keys w2 = gone_keys w).
  { apply gone_keys_eq; [congruence|]. intros k Hk. rewrite Hother2; [done|].
    intros raw item Hin Hp ->. apply Hk. unfold remote_keys.
    by eapply remote_key_of_item. }
  wp_ok Hcalm3. split; [|split].
  - intros k (row & Hrow & Hact). unfold remote_keys. rewrite <- Hrem1, <- Hrem2.
    by eapply active_after_marking.
  - intros raw item Hin Hp.
    destruct (Hnew2 raw item Hin Hp) as (row & Hrow & Hact).
    exists row. split; [|done]. rewrite Hdb3. unfold rows_marked.
    rewrite decide_False; [done|]. intros Hg.
    destruct (gone_keys_tracked w2 _ Hg) as (_ & _ & _ & Hnot).
    apply Hnot. rewrite Hrem2. by eapply remote_key_of_item.
  - by rewrite Hgone2.
Qed.

End Mirror.

(** ** Deletion of one key *)

Section OneDeletion.

Context {collab : Collaborators}.

(** X15: when no call raises, [_handle_deleted_item] returns whether the
    key has an Item State row, active or already removed; if it has, the
    artifact filed under the citation key of the row leaves the output
    directory and the row is marked removed, and it is no longer tracked as
    active; no other row, no other artifact and no counter changes, and a
    key without row changes nothing. *)
Theorem deletion_marks_row_and_drops_artifact item_key w :
  calm w ->
  exists w',
    _handle_deleted_item item_key w
    = (Ok (bool_decide (is_Some (db_items (store w) !! item_key))), w')
    /\ (forall k, db_items (store w') !! k
                  = rows_marked {[item_key]} (db_items (store w)) k)
    /\ files w'
       = match db_items (store w) !! item_key with
         | Some row => delete (is_citation_key (row_state row)) (files w)
         | None => files w
         end
    /\ result w' = result w
    /\ ~ tracked_active w' item_key.
Proof.
  intros Hcalm. destruct (db_items (store w) !! item_key) as [row|] eqn:Hrow.
  - destruct (handle_deleted_item_tracked item_key row w Hcalm Hrow)
      as (w' & Hrun & Hdb & Hfiles & Hres & _).
    exists w'. rewrite bool_decide_eq_true_2 by by eexists.
    split; [done|]. split; [|split; [done|split; [done|]]].
    + intros k. rewrite Hdb. unfold rows_marked.
      destruct (decide (k = item_key)) as [->|Hne].
      * by rewrite lookup_alter_eq, decide_True by set_solver.
      * by rewrite lookup_alter_ne, decide_False by set_solver.
    + intros (row' & Hrow' & Hact). rewrite Hdb, lookup_alter_eq, Hrow in Hrow'.
      cbn in Hrow'. by simplify_eq.
  - exists (log (SGetItemState item_key) w).
    rewrite bool_decide_eq_false_2 by by intros [? ?].
    split; [apply handle_deleted_item_untracked; [by apply calm_quiet|done]|].
    split; [|split; [done|split; [done|]]].
    + intros k. unfold rows_marked. wsimpl.
      destruct (decide (k ∈ ({[item_key]} : gset string))) as [Hin|]; [|done].
      apply elem_of_singleton in Hin as ->. by rewrite Hrow.
    + intros (row' & Hrow' & _). wsimpl_all. congruence.
Qed.

End OneDeletion.

(** ** What a failed run has not recorded *)

Lemma keeps_on_raise_frames {X A} (f : World -> X) (m : M A) :
  frames f m -> keeps_on_raise f m.
Proof. intros Hm w. specialize (Hm w). by destruct (m w).1. Qed.

Lemma keeps_on_raise_bind {X A B} (f : World -> X) (m : M A) (k : A -> M B) :
  frames f m -> (forall a, keeps_on_raise f (k a)) -> keeps_on_raise f (m ≫= k).
Proof.
  intros Hm Hk w. rewrite bind_run. specialize (Hm w).
  destruct (m w) as [[a|e] w1]; cbn [fst snd] in *; [|done].
  specialize (Hk a w1). destruct (k a w1) as [[b|e] w2]; cbn [fst snd] in *; [done|].
  congruence.
Qed.

Lemma keeps_on_raise_reraise {X A} (f : World -> X) (m : M A) :
  keeps_on_raise f m -> keeps_on_raise f (try_except m (fun e => raise e)).
Proof. intros Hm w. rewrite try_except_reraise. apply Hm. Qed.

Section FailedRun.

Context {collab : Collaborators}.

(** The entry points record the template version with their last call. *)
Lemma keeps_on_raise_record_template current_hash current_path :
  keeps_on_raise stored_template
    (state_record_template_version current_hash current_path ;; gets result).
Proof.
  intros w. unfold state_record_template_version, call.
  rewrite !bind_run. by destruct (faults w _ _).
Qed.

Ltac frames_all :=
  unfold sync_item_guarded, _sync_single_item_batch, rerender_item_guarded,
    _rerender_single_item, _build_batch_data, annotation_step,
    _handle_removed_items, _handle_deleted_item;
  frames_go.

Ltac keeps_step :=
  lazymatch goal with
  | |- keeps_on_raise _ (mbind _ (state_record_template_version _ _)) =>
      apply keeps_on_raise_record_template
  | |- keeps_on_raise _ (mbind _ _) =>
      apply keeps_on_raise_bind; [frames_all|intros ?]
  | |- keeps_on_raise _ (try_except _ _) => apply keeps_on_raise_reraise
  | |- keeps_on_raise _ (match ?x with _ => _ end) => destruct x
  | |- keeps_on_raise _ (if ?x then _ else _) => destruct x
  | |- keeps_on_raise _ (gets _) => apply keeps_on_raise_frames, frames_gets
  end.

Lemma keeps_on_raise_full_sync sp : keeps_on_raise stored_template (full_sync sp).
Proof. unfold full_sync. repeat keeps_step. Qed.

Lemma keeps_on_raise_full_rerender sp :
  keeps_on_raise stored_template (_full_rerender_all_items sp).
Proof. unfold _full_rerender_all_items. repeat keeps_step. Qed.

Lemma keeps_on_raise_incremental_sync sp :
  keeps_on_raise stored_template (incremental_sync sp).
Proof.
  unfold incremental_sync.
  repeat lazymatch goal with
  | |- keeps_on_raise _ (full_sync _) => apply keeps_on_raise_full_sync
  | |- keeps_on_raise _ (_full_rerender_all_items _) =>
      apply keeps_on_raise_full_rerender
  | |- _ => keeps_step
  end.
Qed.

(** X16: a Full Sync or an Incremental Sync that raises has not recorded a
    template version: the stored one is what it was before the run, so
    that a template change shows again to the next run. *)
Theorem failed_run_records_no_template_version sp w e w' :
  full_sync sp w = (Raise e, w') \/ incremental_sync sp w = (Raise e, w') ->
  db_template_version (store w') = db_template_version (store w)
  /\ template_changed_in w' = template_changed_in w.
Proof.
  intros Hrun.
  assert (Hkeep : stored_template w' = stored_template w /\ same_env w w').
  { destruct Hrun as [Hrun|Hrun].
    - pose proof (keeps_on_raise_full_sync sp w) as Hk.
      pose proof (emits_full_sync sp w) as [Henv _].
      rewrite Hrun in Hk, Henv. by split.
    - pose proof (keeps_on_raise_incremental_sync sp w) as Hk.
      pose proof (emits_incremental_sync sp w) as [Henv _].
      rewrite Hrun in Hk, Henv. by split. }
  destruct Hkeep as [Hst (_ & Htpl & _)]. unfold stored_template in Hst.
  split; [done|]. unfold template_changed_in. by rewrite Hst, Htpl.
Qed.

End FailedRun.

(** ** The rest of the engine at the concrete library *)

Lemma keeps_key_demo : keeps_key (collab := Demo.collaborators).
Proof.
  intros raw item Hp. cbn in Hp.
  destruct (raw_key raw) as [k|]; [|done].
  destruct (String.eqb (raw_data raw) ""); by simplify_eq.
Qed.

Lemma batch_annotations_grouped_in_order_witness :
  exists batch w',
    _build_batch_data (collab := Demo.collaborators) true Demo.fresh = (Ok batch, w')
    /\ annotations_by_item batch !! "A" = Some [mkAnnotation (Some "ATT1") "note"]
    /\ annotations_by_item batch !! "ATT1" = None.
Proof.
  destruct (batch_annotations_grouped_in_order (collab := Demo.collaborators)
              true Demo.fresh (calm_demo _ _ _ _ _ _))
    as (batch & w' & Hrun & Hall).
  exists batch, w'. split; [exact Hrun|]. rewrite !Hall. by vm_compute.
Defined.

Lemma prefetch_makes_two_requests_witness :
  exists batch,
    _build_batch_data (collab := Demo.collaborators) true (Demo.tracked 1 3)
    = (Ok batch, logs (prefetch_log (Demo.library_with 3)) (Demo.tracked 1 3)).
Proof.
  destruct (prefetch_makes_two_requests (collab := Demo.collaborators)
              true (Demo.tracked 1 3) (calm_demo _ _ _ _ _ _))
    as (batch & Hrun & _).
  exists batch. exact Hrun.
Defined.

Lemma full_sync_accounts_for_every_item_witness :
  exists res w',
    full_sync (collab := Demo.collaborators) true Demo.flaky = (Ok res, w')
    /\ total_items_processed res = 1%nat
    /\ errors res = ["Error syncing item A: boom"].
Proof.
  destruct (full_sync_accounts_for_every_item (collab := Demo.collaborators)
              true Demo.flaky) as [_ Hacc].
  assert (Hrun : full_sync (collab := Demo.collaborators) true Demo.flaky
                 = (Ok (mkSyncResult 1 0 0 0 0 1 ["Error syncing item A: boom"]),
                    (full_sync (collab := Demo.collaborators) true Demo.flaky).2)).
  { vm_compute. reflexivity. }
  destruct (Hacc _ _ Hrun) as [Hp _].
  eexists _, _. split; [exact Hrun|]. split; [exact Hp|reflexivity].
Defined.

Lemma full_sync_commits_witness :
  db_last_library_version
    (store (full_sync (collab := Demo.collaborators) true Demo.flaky).2) = Some 11
  /\ db_template_version
       (store (full_sync (collab := Demo.collaborators) true Demo.flaky).2)
     = Some Demo.builtin.
Proof.
  destruct (full_sync_commits (collab := Demo.collaborators) true Demo.flaky
              (mkSyncResult 1 0 0 0 0 1 ["Error syncing item A: boom"])
              (full_sync (collab := Demo.collaborators) true Demo.flaky).2)
    as (Hv & _ & Ht).
  - vm_compute. reflexivity.
  - split; [exact Hv|exact Ht].
Defined.

Lemma incremental_sync_commits_and_settles_witness :
  incremental_sync (collab := Demo.collaborators) true
    (incremental_sync (collab := Demo.collaborators) true Demo.fresh).2
  = (Ok SyncResult0,
     set_result (fun _ => SyncResult0)
       (selected (incremental_sync (collab := Demo.collaborators) true Demo.fresh).2)).
Proof.
  destruct (incremental_sync_commits_and_settles (collab := Demo.collaborators)
              true true Demo.fresh) as [_ Hnext].
  destruct (Hnext (mkSyncResult 1 1 0 1 0 1 [])
                  (incremental_sync (collab := Demo.collaborators) true Demo.fresh).2)
    as (_ & _ & Hrun).
  - vm_compute. reflexivity.
  - right. reflexivity.
  - apply Hrun. intros n c _. reflexivity.
Defined.

Lemma template_change_run_keeps_recorded_version_witness :
  db_last_library_version
    (store (incremental_sync (collab := Demo.collaborators) true Demo.uncached).2)
  = Some 10.
Proof.
  destruct (template_change_run_keeps_recorded_version
              (collab := Demo.collaborators) true Demo.uncached 10)
    as (Hv & _ & _).
  - intros n c _. reflexivity.
  - reflexivity.
  - reflexivity.
  - exact Hv.
Defined.

Lemma handle_removed_items_marks_gone_keys_witness :
  exists w',
    _handle_removed_items (collab := Demo.collaborators) DemoMore.orphaned
    = (Ok 1%nat, w')
    /\ db_items (store w') !! "B" = Some (mark_removed DemoMore.rowB)
    /\ db_items (store w') !! "A" = Some (Demo.rowA 1).
Proof.
  destruct (handle_removed_items_marks_gone_keys (collab := Demo.collaborators)
              DemoMore.orphaned (calm_demo _ _ _ _ _ _))
    as (w' & Hrun & Hdb & _).
  exists w'. split; [exact Hrun|]. rewrite !Hdb. by vm_compute.
Defined.

Lemma rerender_keeps_row_identity_witness :
  exists v',
    _rerender_single_item (collab := Demo.collaborators)
      (row_state (Demo.rowA 1)) (Demo.batch 1) Demo.uncached = (Ok tt, v')
    /\ result v' = one_more_updated SyncResult0.
Proof.
  destruct (rerender_keeps_row_identity (collab := Demo.collaborators)
              (row_state (Demo.rowA 1)) (Demo.batch 1) Demo.uncached
              (calm_demo _ _ _ _ _ _))
    as (v' & Hrun & Hpost).
  exists v'. split; [exact Hrun|]. exact (proj2 (proj2 Hpost)).
Defined.

Lemma new_item_is_created_without_reading_witness :
  exists w',
    _sync_single_item_batch (collab := Demo.collaborators)
      Demo.itemA (Demo.batch 1) false Demo.fresh = (Ok tt, w')
    /\ items_created (result w') = 1%nat
    /\ length (trace w') = 6%nat.
Proof.
  destruct (new_item_is_created_without_reading (collab := Demo.collaborators)
              Demo.itemA (Demo.batch 1) false Demo.parsedA Demo.fresh)
    as (w' & Hrun & _ & _ & Hres & Ht).
  - apply calm_demo.
  - reflexivity.
  - reflexivity.
  - exists w'. split; [exact Hrun|]. rewrite Hres, Ht. by vm_compute.
Defined.

Lemma incremental_delta_counts_witness :
  exists res w',
    incremental_sync (collab := Demo.collaborators) true Demo.fresh = (Ok res, w')
    /\ total_items_processed res = 1%nat
    /\ items_removed res = 1%nat
    /\ db_last_incremental_sync (store w') = Some 0%nat.
Proof.
  assert (Hrun : incremental_sync (collab := Demo.collaborators) true Demo.fresh
                 = (Ok (mkSyncResult 1 1 0 1 0 1 []),
                    (incremental_sync (collab := Demo.collaborators) true Demo.fresh).2)).
  { vm_compute. reflexivity. }
  destruct (incremental_delta_counts (collab := Demo.collaborators) true Demo.fresh 10
              _ _ Hrun)
    as (Hp & Hr & _ & Ht).
  - reflexivity.
  - reflexivity.
  - vm_compute. discriminate.
  - vm_compute. discriminate.
  - eexists _, _. split; [exact Hrun|]. split; [exact Hp|]. split; [exact Hr|exact Ht].
Defined.

Lemma template_change_run_reports_updates_only_witness :
  exists res w',
    incremental_sync (collab := Demo.collaborators) true Demo.uncached = (Ok res, w')
    /\ total_items_processed res = 0%nat
    /\ items_updated res = 1%nat.
Proof.
  assert (Hrun : incremental_sync (collab := Demo.collaborators) true Demo.uncached
                 = (Ok (mkSyncResult 0 0 1 0 0 0 []),
                    (incremental_sync (collab := Demo.collaborators) true
                       Demo.uncached).2)).
  { vm_compute. reflexivity. }
  destruct (template_change_run_reports_updates_only (collab := Demo.collaborators)
              true Demo.uncached 10 _ _
              ltac:(intros n c _; reflexivity) eq_refl eq_refl Hrun)
    as (Hp & _).
  eexists _, _. split; [exact Hrun|]. split; [exact Hp|reflexivity].
Defined.

Lemma full_sync_store_mirrors_remote_witness :
  exists res w',
    full_sync (collab := Demo.collaborators) true DemoMore.orphaned = (Ok res, w')
    /\ tracked_active w' "A"
    /\ ~ tracked_active w' "B"
    /\ items_removed res = 1%nat.
Proof.
  destruct (full_sync_store_mirrors_remote (collab := Demo.collaborators)
              true DemoMore.orphaned (calm_demo _ _ _ _ _ _) keeps_key_demo)
    as (res & w' & Hrun & Honly & Hall & Hrem).
  exists res, w'. split; [exact Hrun|]. split; [|split].
  - apply (Hall Demo.itemA Demo.parsedA); [by left|reflexivity].
  - intros HB. apply Honly in HB. revert HB. by vm_compute.
  - rewrite Hrem. by vm_compute.
Defined.

Lemma deletion_marks_row_and_drops_artifact_witness :
  exists w',
    _handle_deleted_item (collab := Demo.collaborators) "A" (Demo.tracked 1 1)
    = (Ok true, w')
    /\ files w' = delete "ck-A" (files (Demo.tracked 1 1)).
Proof.
  destruct (deletion_marks_row_and_drops_artifact (collab := Demo.collaborators)
              "A" (Demo.tracked 1 1) (calm_demo _ _ _ _ _ _))
    as (w' & Hrun & _ & Hfiles & _).
  exists w'. split; [exact Hrun|exact Hfiles].
Defined.

Lemma failed_run_records_no_template_version_witness :
  template_changed_in
    (incremental_sync (collab := Demo.collaborators) true DemoMore.outage).2 = true.
Proof.
  destruct (failed_run_records_no_template_version (collab := Demo.collaborators)
              true DemoMore.outage "down"
              (incremental_sync (collab := Demo.collaborators) true DemoMore.outage).2)
    as [_ Htpl].
  - right. vm_compute. reflexivity.
  - rewrite Htpl. reflexivity.
Defined.

(** ** Path sanitization of the command line *)

Import Cli.

Lemma lstrip_blank ws s : blank ws -> lstrip (ws ++ s) = lstrip s.
Proof.
  induction 1 as [|c ws Hc _ IH]; [done|]. cbn. by rewrite Hc.
Qed.

Lemma lstrip_head s :
  (forall c, head s = Some c -> isspace c = false) -> lstrip s = s.
Proof.
  destruct s as [|c s]; [done|]. intros H. cbn. by rewrite (H c).
Qed.

Lemma lstrip_head_not_space s c : head (lstrip s) = Some c -> isspace c = false.
Proof.
  induction s as [|d s IH]; [done|]. cbn.
  destruct (isspace d) eqn:Hd; [done|]. cbn. by intros [= <-].
Qed.

(** [lstrip] removes a blank prefix. *)
Lemma lstrip_split s : exists ws, blank ws /\ s = ws ++ lstrip s.
Proof.
  induction s as [|c s (ws & Hws & IH)]; [exists []; split; [constructor|done]|].
  cbn. destruct (isspace c) eqn:Hc.
  - exists (c :: ws). split; [by constructor|]. cbn. by rewrite <- IH.
  - exists []. split; [constructor|done].
Qed.

Lemma blank_rev ws : blank ws -> blank (rev ws).
Proof.
  induction 1 as [|c ws Hc _ IH]; [constructor|].
  cbn [rev]. apply Forall_app_2; [exact IH|]. by repeat constructor.
Qed.

Lemma rstrip_blank s ws : blank ws -> rstrip (s ++ ws) = rstrip s.
Proof.
  intros Hws. unfold rstrip. rewrite rev_app_distr, lstrip_blank; [done|].
  by apply blank_rev.
Qed.

Lemma last_rev (s : pystr) : last (rev s) = head s.
Proof. destruct s as [|c s]; [done|]. cbn. by rewrite last_snoc. Qed.

Lemma head_rev (s : pystr) : head (rev s) = last s.
Proof. by rewrite <- last_rev, rev_involutive. Qed.

Lemma rstrip_last s :
  (forall c, last s = Some c -> isspace c = false) -> rstrip s = s.
Proof.
  intros H. unfold rstrip. rewrite lstrip_head; [apply rev_involutive|].
  intros c. rewrite head_rev. apply H.
Qed.

Lemma rstrip_last_not_space s c : last (rstrip s) = Some c -> isspace c = false.
Proof. unfold rstrip. rewrite last_rev. apply lstrip_head_not_space. Qed.

(** [rstrip] removes a blank suffix. *)
Lemma rstrip_split s : exists ws, blank ws /\ s = rstrip s ++ ws.
Proof.
  destruct (lstrip_split (rev s)) as (ws & Hws & Hs).
  exists (rev ws). split; [by apply blank_rev|].
  unfold rstrip. rewrite <- rev_app_distr, <- Hs. symmetry. apply rev_involutive.
Qed.

Lemma rstrip_head s c :
  head (rstrip s) = Some c -> head s = Some c.
Proof.
  destruct (rstrip_split s) as (ws & _ & Hs). intros Hc. rewrite Hs.
  by destruct (rstrip s).
Qed.

Lemma strip_stripped s : stripped (strip s).
Proof.
  unfold strip. split; intros c Hc.
  - apply rstrip_head in Hc. by eapply lstrip_head_not_space.
  - by eapply rstrip_last_not_space.
Qed.

Lemma strip_id s : stripped s -> strip s = s.
Proof.
  intros [Hh Hl]. unfold strip. rewrite lstrip_head by done. by apply rstrip_last.
Qed.

Lemma strip_blank s : blank s -> strip s = [].
Proof.
  intros Hs. unfold strip. rewrite <- (app_nil_r s), lstrip_blank by done. done.
Qed.

(** [strip] removes a blank prefix and a blank suffix around a stripped
    string. *)
Lemma strip_around ws1 s ws2 :
  blank ws1 -> blank ws2 -> stripped s -> strip (ws1 ++ s ++ ws2) = s.
Proof.
  intros H1 H2 [Hh Hl]. destruct s as [|c s].
  - cbn [app]. apply strip_blank. by apply Forall_app_2.
  - unfold strip. rewrite lstrip_blank by done.
    rewrite lstrip_head.
    + rewrite rstrip_blank by done. by apply rstrip_last.
    + cbn. intros d [= <-]. by apply Hh.
Qed.

Lemma quote_stripped q s :
  isspace q = false -> stripped ([q] ++ s ++ [q]).
Proof.
  intros Hq. split; intros c.
  - by intros [= <-].
  - rewrite app_assoc, last_snoc. by intros [= <-].
Qed.

Lemma inner_quote q (s : pystr) : inner ([q] ++ s ++ [q]) = s.
Proof. unfold inner. cbn [app tail]. apply removelast_last. Qed.

Lemma endswith_quote p q (s : pystr) : endswith p ([q] ++ s ++ [q]) = (q =? p)%N.
Proof. unfold endswith. by rewrite app_assoc, last_snoc. Qed.

(** X18: for every path, [sanitize_path] returns a string that neither
    starts nor ends with whitespace; a path that has no whitespace at its
    ends and is not enclosed in a pair of equal quotes is returned as it
    is. *)
Theorem sanitize_path_strips_and_keeps_clean_paths (path_str : pystr) :
  stripped (sanitize_path path_str)
  /\ (stripped path_str -> quoted path_str = false ->
      sanitize_path path_str = path_str).
Proof.
  split.
  - unfold sanitize_path. cbv zeta. apply strip_stripped.
  - intros Hs Hq. unfold sanitize_path. cbv zeta. rewrite (strip_id _ Hs).
    unfold quoted in Hq. rewrite Hq. by apply strip_id.
Qed.

(** X19: a path enclosed in one pair of double or of single quotes, with
    any whitespace around the quotes and any whitespace between the quotes
    and the path, is returned without quotes and whitespace: exactly one
    pair of quotes is removed. *)
Theorem sanitize_path_removes_one_pair_of_quotes (q : N) (ws1 ws2 ws3 ws4 core : pystr) :
  q = dquote \/ q = squote ->
  blank ws1 -> blank ws2 -> blank ws3 -> blank ws4 ->
  stripped core ->
  sanitize_path (ws1 ++ ([q] ++ (ws2 ++ core ++ ws3) ++ [q]) ++ ws4) = core.
Proof.
  intros Hq H1 H2 H3 H4 Hcore. unfold sanitize_path. cbv zeta.
  assert (Hsp : isspace q = false) by (by destruct Hq as [->| ->]).
  rewrite (strip_around ws1 _ ws4 H1 H4 (quote_stripped q _ Hsp)).
  rewrite !endswith_quote. cbn [app startswith].
  assert (Hin : inner (q :: (ws2 ++ core ++ ws3) ++ [q]) = ws2 ++ core ++ ws3)
    by apply (inner_quote q).
  destruct Hq as [->| ->]; cbn [N.eqb Pos.eqb andb orb dquote squote];
    rewrite Hin; by apply strip_around.
Qed.

Lemma sanitize_path_strips_and_keeps_clean_paths_witness :
  Cli.sanitize_path [47; 116; 109; 112; 32; 120]%N = [47; 116; 109; 112; 32; 120]%N.
Proof.
  apply (proj2 (sanitize_path_strips_and_keeps_clean_paths
                  [47; 116; 109; 112; 32; 120]%N)).
  - split; intros c [= <-]; reflexivity.
  - reflexivity.
Defined.

Lemma sanitize_path_removes_one_pair_of_quotes_witness :
  Cli.sanitize_path [32; 34; 32; 47; 116; 109; 112; 9; 34; 10]%N
  = [47; 116; 109; 112]%N.
Proof.
  apply (sanitize_path_removes_one_pair_of_quotes
           34 [32] [32] [9] [10] [47; 116; 109; 112])%N.
  - by left.
  - by repeat constructor.
  - by repeat constructor.
  - by repeat constructor.
  - by repeat constructor.
  - split; intros c [= <-]; reflexivity.
Defined.
